(** * Programmer/monitor firmware for the 4-bit breadboard computer

    A shallow embedding of [Arduino/Arduino.ino] and the properties of its
    RAM transfer engine, execution control, breakpoint store, assembler and
    disassembler.

    Conventions.  A C [byte] is a [Z] in [0, 256) with the truncation
    written out as [to_byte]; an [int] is a [Z]; [unsigned int] arithmetic is
    reduced modulo 2^16 ([to_uint]).  Arrays are lists indexed with stdpp's
    lookup and insert.  Text sent to [Serial] is accumulated as a [string]. *)

From Stdlib Require Import ZArith Ascii String.
From stdpp Require Import base numbers list gmap.

Local Open Scope Z_scope.

Definition to_byte (v : Z) : Z := v mod 256.
Definition to_uint (v : Z) : Z := v mod 65536.

(** Reading an array cell; cells outside the modelled contents read as 0. *)
Definition cell (l : list Z) (i : Z) : Z := default 0 (l !! Z.to_nat i).

(** ** The target: RAM, address register, clock and the shared bus

    The firmware only sees pins.  [target] is the part of the breadboard
    computer behind those pins that the transfer engine talks to: the 16x8
    RAM, the 4-bit memory address register (MAR), the clock line, the three
    control lines MI/RI/RO once the programmer drives them, and the eight bus
    pins of the programmer (direction and output latch).

    This is the environment of the firmware, taken from the control-bit
    table that accompanies the source (MI: memory address register in, RI:
    RAM in, RO: RAM out) and the 4-bit address field of the instruction set.
    On a rising clock edge the MAR latches the low nibble of the bus when MI
    is high and the RAM stores the bus byte at the MAR address when RI is
    high; while RO is high and the programmer's bus pins are inputs, the RAM
    cell at the MAR address is on the bus; an undriven bus reads 0. *)
Module Target.

Record target := Build {
  ram      : list Z;
  mar      : Z;
  clk      : bool;
  pin_mi   : bool;
  pin_ri   : bool;
  pin_ro   : bool;
  bus_out  : bool;
  bus_pins : list bool
}.

Definition set_ram v t := Build v (mar t) (clk t) (pin_mi t) (pin_ri t) (pin_ro t) (bus_out t) (bus_pins t).
Definition set_mar v t := Build (ram t) v (clk t) (pin_mi t) (pin_ri t) (pin_ro t) (bus_out t) (bus_pins t).
Definition set_clk v t := Build (ram t) (mar t) v (pin_mi t) (pin_ri t) (pin_ro t) (bus_out t) (bus_pins t).
Definition set_mi v t := Build (ram t) (mar t) (clk t) v (pin_ri t) (pin_ro t) (bus_out t) (bus_pins t).
Definition set_ri v t := Build (ram t) (mar t) (clk t) (pin_mi t) v (pin_ro t) (bus_out t) (bus_pins t).
Definition set_ro v t := Build (ram t) (mar t) (clk t) (pin_mi t) (pin_ri t) v (bus_out t) (bus_pins t).
Definition set_bus_out v t := Build (ram t) (mar t) (clk t) (pin_mi t) (pin_ri t) (pin_ro t) v (bus_pins t).
Definition set_bus_pins v t := Build (ram t) (mar t) (clk t) (pin_mi t) (pin_ri t) (pin_ro t) (bus_out t) v.

(** Level of bus line [i] as [digitalRead(PIN_BUS0+i)] sees it. *)
Definition bus_line (t : target) (i : nat) : bool :=
  if bus_out t then default false (bus_pins t !! i)
  else if pin_ro t then Z.testbit (cell (ram t) (mar t)) (Z.of_nat i)
  else false.

(** [read_bus]: [res |= 1<<i] for every line that reads HIGH. *)
Definition read_bus (t : target) : Z :=
  foldl (fun res i => if bus_line t i then Z.lor res (Z.shiftl 1 (Z.of_nat i)) else res)
        0 (seq 0 8).

(** [write_bus]: [digitalWrite(i, data&1); data /= 2] over the eight pins. *)
Fixpoint write_pins (n : nat) (data : Z) : list bool :=
  match n with
  | O => []
  | S n' => negb (Z.land data 1 =? 0) :: write_pins n' (data / 2)
  end.

Definition write_bus (data : Z) (t : target) : target :=
  set_bus_pins (write_pins 8 (to_byte data)) t.

Definition SET_RO_HIGH := set_ro true.
Definition SET_RO_LOW := set_ro false.
Definition SET_RI_HIGH := set_ri true.
Definition SET_RI_LOW := set_ri false.
Definition SET_MI_HIGH := set_mi true.
Definition SET_MI_LOW := set_mi false.
Definition SET_BUS_INPUT := set_bus_out false.
Definition SET_BUS_OUTPUT := set_bus_out true.

(** What the target does on a LOW->HIGH clock transition. *)
Definition rising_edge (t : target) : target :=
  let v := read_bus t in
  let ram' := if pin_ri t then <[Z.to_nat (mar t) := v]> (ram t) else ram t in
  let mar' := if pin_mi t then Z.land v 15 else mar t in
  set_clk true (set_mar mar' (set_ram ram' t)).

(** [while(!CLOCK())] and [while(CLOCK())]: the programmer runs with
    interrupts off and is faster than the clock, so a wait returns at the
    first edge that brings the line to the level waited for. *)
Definition wait_clock_high (t : target) : target :=
  if clk t then t else rising_edge t.

Definition wait_clock_low (t : target) : target :=
  if clk t then set_clk false t else t.

(** [wait_clock_info(HIGH)]: same wait; the 2 s notice is advisory. *)
Definition wait_clock_info_high := wait_clock_high.

(** Body of the [for] loop of [read_ram]; [n] iterations remain, [i] is the
    loop counter. *)
Fixpoint read_ram_loop (n : nat) (start i : Z) (t : target) : target * list Z :=
  match n with
  | O => (t, [])
  | S n' =>
      let address := to_byte (start + i) in
      let t := wait_clock_low t in
      let t := SET_RO_LOW t in
      let t := SET_BUS_OUTPUT t in
      let t := write_bus address t in
      let t := SET_MI_HIGH t in
      let t := wait_clock_high t in
      let t := wait_clock_low t in
      let t := SET_MI_LOW t in
      let t := SET_BUS_INPUT t in
      let t := SET_RO_HIGH t in
      let t := wait_clock_high t in
      let d := read_bus t in
      let r := read_ram_loop n' start (i + 1) t in
      (r.1, d :: r.2)
  end.

(** [read_ram(data, start, len)]: returns the target and [data[0..len-1]]. *)
Definition read_ram (t : target) (start len : Z) : target * list Z :=
  let t := wait_clock_info_high t in
  let t := wait_clock_high t in
  let r := read_ram_loop (Z.to_nat len) (to_byte start) 0 t in
  let t := wait_clock_low r.1 in
  let t := SET_RO_LOW t in
  (t, r.2).

(** Body of the [for] loop of [write_ram] over [data[i..len-1]]. *)
Fixpoint write_ram_loop (data : list Z) (start i : Z) (t : target) : target :=
  match data with
  | [] => t
  | d :: data' =>
      let address := to_byte (start + i) in
      let t := wait_clock_low t in
      let t := SET_RI_LOW t in
      let t := write_bus address t in
      let t := SET_MI_HIGH t in
      let t := wait_clock_high t in
      let t := wait_clock_low t in
      let t := SET_MI_LOW t in
      let t := write_bus d t in
      let t := SET_RI_HIGH t in
      let t := wait_clock_high t in
      write_ram_loop data' start (i + 1) t
  end.

(** [write_ram(data, start, len)] with [data] the [len] bytes passed. *)
Definition write_ram (t : target) (data : list Z) (start : Z) : target :=
  let t := wait_clock_info_high t in
  let t := SET_BUS_OUTPUT t in
  let t := wait_clock_high t in
  let t := write_ram_loop data (to_byte start) 0 t in
  let t := wait_clock_low t in
  let t := SET_RI_LOW t in
  SET_BUS_INPUT t.

End Target.

(** ** Text helpers *)

Definition chr (c : Z) : ascii := ascii_of_nat (Z.to_nat c).
Definition code (c : ascii) : Z := Z.of_nat (nat_of_ascii c).

Definition text (l : list Z) : string := string_of_list_ascii (map chr l).
Definition codes (s : string) : list Z := map code (list_ascii_of_string s).

(** What [Serial.println()] appends. *)
Definition CRLF : string := String (chr 13) (String (chr 10) EmptyString).

Definition hex_digit (v : Z) : Z := if v <? 10 then 48 + v else 87 + v.

(** [dec2hex]: [sprintf(buf, "%02x", v)] on a [byte] argument. *)
Definition dec2hex (v : Z) : string :=
  let v := to_byte v in text [hex_digit (v / 16); hex_digit (v mod 16)].

(** ** The opcode table *)

Record opcodes_struct := Opcode {
  mnemonic   : string;
  opcode     : Z;
  num_cycles : Z;
  has_arg    : bool
}.

Definition opcodes_4bit : list opcodes_struct :=
  [ Opcode "NOP  " 0x00 3 false;
    Opcode "LDA  " 0x10 3 true;
    Opcode "ADD  " 0x20 3 true;
    Opcode "SUB  " 0x30 3 true;
    Opcode "STA  " 0x40 3 true;
    Opcode "LDI  " 0x50 3 true;
    Opcode "JMP  " 0x60 3 true;
    Opcode "JC   " 0x70 3 true;
    Opcode "JZ   " 0x80 3 true;
    Opcode "DSI  " 0x90 3 true;
    Opcode "INC  " 0xA0 3 true;
    Opcode "DEC  " 0xB0 3 true;
    Opcode "LDB  " 0xC0 3 true;
    Opcode "DSP  " 0xD0 3 true;
    Opcode "OUT  " 0xE0 3 false;
    Opcode "HLT  " 0xF0 3 false;
    Opcode ".OR  " 0xFE 0 true;
    Opcode ".BY  " 0xFF 0 true ].

(** [opcodes_4bit[k]]; the table ends with the [NULL] sentinel entry. *)
Definition opcode_at (k : Z) : opcodes_struct :=
  default (Opcode EmptyString 0 0 false) (opcodes_4bit !! Z.to_nat k).

Definition mode_4bit : bool := true.

(** ** Character classes and argument parsing *)

Definition BUFFER_SIZE : Z := 256.

Definition in_range (lo hi c : Z) : bool := (lo <=? c) && (c <=? hi).

(** The Arduino character tests, which are those of the C library. *)
Definition isDigit (c : Z) : bool := in_range 48 57 c.
Definition isAlpha (c : Z) : bool := in_range 65 90 c || in_range 97 122 c.
Definition isAlphaNumeric (c : Z) : bool := isAlpha c || isDigit c.
Definition isSpace (c : Z) : bool := (c =? 32) || in_range 9 13 c.
Definition tolower (c : Z) : Z := if in_range 65 90 c then c + 32 else c.

Definition hex_char_to_byte (c : Z) : Z :=
  if in_range 48 57 c then c - 48
  else if in_range 97 102 c then 10 + (c - 97)
  else if in_range 65 70 c then 10 + (c - 65)
  else -1.

(** [while( i<len && p(buffer[i]) ) i++;] with [n] passes allowed. *)
Fixpoint scan (p : Z -> bool) (buffer : list Z) (len : Z) (n : nat) (i : Z) : Z :=
  match n with
  | O => i
  | S n' =>
      if (i <? len) && p (cell buffer i) then scan p buffer len n' (i + 1) else i
  end.

(** The loop stops at [len] at the latest, so [len - i] passes are all it
    can make. *)
Definition skip (p : Z -> bool) (buffer : list Z) (len i : Z) : Z :=
  scan p buffer len (Z.to_nat (len - i)) i.

(** [buffer[i .. j-1]]. *)
Definition slice (buffer : list Z) (i j : Z) : list Z :=
  take (Z.to_nat (j - i)) (drop (Z.to_nat i) buffer).

(** [parse_arg(buffer, len, i, value, force_hex)]: the result, and the new
    values of the reference parameters [i] and [value]. *)
Definition parse_arg (buffer : list Z) (len i value : Z) (force_hex : bool)
    : bool * Z * Z :=
  if ((i <? len) && (cell buffer i =? 36)) || force_hex then
    let i := if cell buffer i =? 36 then i + 1 else i in
    if (i <? len) && (0 <=? hex_char_to_byte (cell buffer i)) then
      let value := to_byte (hex_char_to_byte (cell buffer i)) in
      let i := i + 1 in
      if (i <? len) && (0 <=? hex_char_to_byte (cell buffer i)) then
        (true, i + 1, to_byte (Z.shiftl value 4 + hex_char_to_byte (cell buffer i)))
      else (true, i, value)
    else (false, i, value)
  else if (i <? len) && isDigit (cell buffer i) then
    let value := to_byte (cell buffer i - 48) in
    let i := i + 1 in
    if (i <? len) && isDigit (cell buffer i) then
      let value := to_byte (value * 10 + (cell buffer i - 48)) in
      let i := i + 1 in
      if (i <? len) && isDigit (cell buffer i) then
        (true, i + 1, to_byte (value * 10 + (cell buffer i - 48)))
      else (true, i, value)
    else (true, i, value)
  else (false, i, value).

(** ** The byte store (internal EEPROM) *)
Module Eeprom.

(** Erased cells read as 0xFF. *)
Definition EEPROM_read (e : gmap Z Z) (idx : Z) : Z := default 255 (e !! idx).
Definition EEPROM_write (e : gmap Z Z) (idx val : Z) : gmap Z Z := <[idx := to_byte val]> e.

(** [write_eeprom(buffer, internal, start, size)]; [start] and [size] are
    [unsigned int], so the sum in the guard is taken modulo 2^16. *)
Definition write_eeprom (e : gmap Z Z) (buffer : list Z) (internal : bool)
    (start size : Z) : gmap Z Z * bool :=
  if internal && (to_uint (start + size) <? 1024 - 16) then
    (foldl (fun e i => EEPROM_write e (to_uint (start + i)) (cell buffer i))
           e (seqZ 0 size), true)
  else (e, false).

(** [read_eeprom]: the bytes placed in [buffer[0..size-1]], if any. *)
Definition read_eeprom (e : gmap Z Z) (internal : bool) (start size : Z)
    : option (list Z) :=
  if internal && (to_uint (start + size) <? 1024 - 16) then
    Some (map (fun i => EEPROM_read e (to_uint (start + i))) (seqZ 0 size))
  else None.

End Eeprom.

(** ** Breakpoints *)
Module Breakpoints.
Import Eeprom.

Definition MAX_BREAKPOINTS : Z := 10.

Record bp_state := BP {
  num_breakpoints : Z;
  breakpoints     : list Z
}.

(** The breakpoints in force: [breakpoints[0 .. num_breakpoints-1]]. *)
Definition active (s : bp_state) : list Z :=
  take (Z.to_nat (num_breakpoints s)) (breakpoints s).

(** The [EEPROM.write] calls of [save_breakpoints], in program order. *)
Definition save_breakpoints_writes (s : bp_state) : list (Z * Z) :=
  map (fun i => (1021 - i, cell (breakpoints s) i)) (seqZ 0 (num_breakpoints s))
  ++ [(1022, num_breakpoints s)].

Definition apply_writes (e : gmap Z Z) (ws : list (Z * Z)) : gmap Z Z :=
  foldl (fun e w => EEPROM_write e w.1 w.2) e ws.

Definition save_breakpoints (s : bp_state) (e : gmap Z Z) : gmap Z Z :=
  apply_writes e (save_breakpoints_writes s).

Definition load_breakpoints (s : bp_state) (e : gmap Z Z) : bp_state :=
  let n := EEPROM_read e 1022 in
  if n <=? MAX_BREAKPOINTS then
    BP n (foldl (fun b i => <[Z.to_nat i := EEPROM_read e (1021 - i)]> b)
                (breakpoints s) (seqZ 0 n))
  else s.

(** [for(j=0; j<num_breakpoints; j++) if( breakpoints[j]==a ) break;] *)
Fixpoint bp_search (n : nat) (j a : Z) (s : bp_state) : Z :=
  match n with
  | O => j
  | S n' =>
      if j <? num_breakpoints s then
        if cell (breakpoints s) j =? a then j else bp_search n' (j + 1) a s
      else j
  end.

Definition bp_find (a : Z) (s : bp_state) : Z :=
  bp_search (Z.to_nat (num_breakpoints s)) 0 a s.

(** State of the monitor that the breakpoint commands touch. *)
Record monitor_state := Mon {
  bps    : bp_state;
  eeprom : gmap Z Z
}.

(** Command [b a] once the address has been parsed. *)
Definition add_breakpoint (a : Z) (m : monitor_state) : monitor_state * string :=
  let s := bps m in
  let j := bp_find a s in
  if j >=? num_breakpoints s then
    if num_breakpoints s <? MAX_BREAKPOINTS then
      let s' := BP (to_byte (num_breakpoints s + 1))
                   (<[Z.to_nat (num_breakpoints s) := a]> (breakpoints s)) in
      (Mon s' (save_breakpoints s' (eeprom m)),
       ("Added breakpoint at: " ++ dec2hex a ++ CRLF)%string)
    else (m, ("Too many breakpoints." ++ CRLF)%string)
  else (m, ("Breakpoint already exists." ++ CRLF)%string).

(** Command [B a] once the address has been parsed. *)
Definition remove_breakpoint (a : Z) (m : monitor_state) : monitor_state * string :=
  let s := bps m in
  let j := bp_find a s in
  if j <? num_breakpoints s then
    let n' := to_byte (num_breakpoints s - 1) in
    let s' := BP n' (<[Z.to_nat j := cell (breakpoints s) n']> (breakpoints s)) in
    (Mon s' (save_breakpoints s' (eeprom m)),
     ("Removed breakpoint at: " ++ dec2hex a ++ CRLF)%string)
  else (m, ("Breakpoint not found." ++ CRLF)%string).

(** Command [B *]. *)
Definition remove_all_breakpoints (m : monitor_state) : monitor_state * string :=
  let s' := BP 0 (breakpoints (bps m)) in
  (Mon s' (save_breakpoints s' (eeprom m)),
   ("Removing all breakpoints." ++ CRLF)%string).

(** [show_breakpoints]. *)
Definition show_breakpoints (s : bp_state) : string :=
  ("Breakpoints at:"
   ++ foldl (fun o i => o ++ " " ++ dec2hex (cell (breakpoints s) i)) EmptyString (seqZ 0 (num_breakpoints s))
   ++ CRLF)%string.

(** Monitor command [b]: [buffer[i]] is the command letter. *)
Definition monitor_b (buffer : list Z) (len i : Z) (m : monitor_state)
    : monitor_state * string :=
  let i := skip isSpace buffer len (i + 1) in
  let '(res, _, a) := parse_arg buffer len i 1 true in
  if res then add_breakpoint a m
  else (m, show_breakpoints (bps m)).

(** Monitor command [B]. *)
Definition monitor_B (buffer : list Z) (len i : Z) (m : monitor_state)
    : monitor_state * string :=
  let i := skip isSpace buffer len (i + 1) in
  let '(res, i, a) := parse_arg buffer len i 1 true in
  if res then remove_breakpoint a m
  else if (i <? len) && (cell buffer i =? 42) then remove_all_breakpoints m
  else (m, ("Expected address argument." ++ CRLF)%string).

End Breakpoints.

(** ** Execution control: [run] *)
Module Run.
Import Breakpoints.

(** What the programmer samples during one pass of the loop of [run]: the
    bus on the first cycle (program counter), bit 0 of [PIND] (the serial RX
    line, low when a character is coming in) and the bus on the second cycle
    (opcode).  The target and the host decide these values. *)
Record fetch := Fetch {
  f_pc     : Z;
  f_rx     : bool;
  f_opcode : Z
}.

Definition hlt : Z := 0xF0.

(** The table that [run] builds in [buffer]:
    [buffer[opcodes_4bit[i].opcode & 0xF0] = opcodes_4bit[i].num_cycles]. *)
Definition cycles_table (buffer : list Z) : list Z :=
  foldl (fun buf o => <[Z.to_nat (Z.land (opcode o) 0xF0) := num_cycles o]> buf)
        buffer opcodes_4bit.

(** The unrolled breakpoint comparison; [true] is a [break], [false] is the
    jump to the label [go]. *)
Definition breakpoint_hit (first : bool) (s : bp_state) (pc : Z) : bool :=
  let n := num_breakpoints s in
  let b := breakpoints s in
  if first || (n <? 1) then false else
  if pc =? cell b 0 then true else
  if n <? 2 then false else
  if pc =? cell b 1 then true else
  if n <? 3 then false else
  if pc =? cell b 2 then true else
  if n <? 4 then false else
  if pc =? cell b 3 then true else
  if n <? 5 then false else
  if pc =? cell b 4 then true else
  if n <? 6 then false else
  if pc =? cell b 5 then true else
  if n <? 7 then false else
  if pc =? cell b 6 then true else
  if n <? 8 then false else
  if pc =? cell b 7 then true else
  if n <? 9 then false else
  if pc =? cell b 8 then true else
  if n <? 10 then false else
  if pc =? cell b 9 then true else false.

(** Why the [while] loop was left.  The source does not store this; it is
    kept here to state which exit was taken. *)
Inductive exit_kind := AtLimit | AtBreakpoint | AtSerial | AtHalt.

(** State at the end of the loop.  [l_exit = None]: the samples ran out
    while the loop was still going.  [l_done] counts the passes completed,
    that is the instructions the target executed under [run]; [l_cycles]
    counts the extra clock cycles skipped. *)
Record loop_end := LoopEnd {
  l_exit   : option exit_kind;
  l_opcode : Z;
  l_done   : Z;
  l_cycles : Z
}.

(** [while( ++i <= num_instructions ) { ... }] with [i] a [byte]. *)
Fixpoint run_loop (table : list Z) (s : bp_state) (num_instructions : Z)
    (samples : list fetch) (i : Z) (first : bool) (opcode done cycles : Z)
    : loop_end :=
  let i := to_byte (i + 1) in
  if i <=? num_instructions then
    match samples with
    | [] => LoopEnd None opcode done cycles
    | f :: samples' =>
        if breakpoint_hit first s (f_pc f) then
          LoopEnd (Some AtBreakpoint) opcode done cycles
        else if negb (f_rx f) then
          LoopEnd (Some AtSerial) opcode done cycles
        else
          let opcode := to_byte (f_opcode f) in
          if opcode =? hlt then LoopEnd (Some AtHalt) opcode done cycles
          else
            let num_cycles := cell table (Z.land opcode (if mode_4bit then 0xF0 else 0xFC)) in
            run_loop table s num_instructions samples' i false opcode
                     (done + 1) (cycles + num_cycles)
    end
  else LoopEnd (Some AtLimit) opcode done cycles.

(** [if( num_instructions<0 ) num_instructions = 32767;] *)
Definition instruction_limit (num_instructions : Z) : Z :=
  if num_instructions <? 0 then 32767 else num_instructions.

Definition run_until (buffer : list Z) (s : bp_state) (num_instructions : Z)
    (opcode0 : Z) (samples : list fetch) : loop_end :=
  run_loop (cycles_table buffer) s (instruction_limit num_instructions)
           samples 0 true opcode0 0 0.



End Run.

(** ** The assembler and the disassembler *)
Module Asm.
Import Target.

Definition ASM_MAX_LABELS : Z := 16.
Definition ASM_MAX_LABEL_FORWARD_REF : Z := 16.

Record label_struct := Label {
  label         : list Z;
  loc           : Z;
  forward_count : Z;
  forward       : list Z
}.

(** The globals and locals of [assemble] that outlive a line: the write
    address [a], the origin [addr], the label table, the target and the text
    printed so far. *)
Record asm_state := State {
  asm_a      : Z;
  asm_addr   : Z;
  num_labels : Z;
  labels     : list label_struct;
  hw         : target;
  out        : string
}.

Definition set_a v st := State v (asm_addr st) (num_labels st) (labels st) (hw st) (out st).
Definition set_addr v st := State (asm_a st) v (num_labels st) (labels st) (hw st) (out st).
Definition set_num_labels v st := State (asm_a st) (asm_addr st) v (labels st) (hw st) (out st).
Definition set_labels v st := State (asm_a st) (asm_addr st) (num_labels st) v (hw st) (out st).
Definition set_hw v st := State (asm_a st) (asm_addr st) (num_labels st) (labels st) v (out st).
Definition set_out v st := State (asm_a st) (asm_addr st) (num_labels st) (labels st) (hw st) v.

Definition print (s : string) (st : asm_state) : asm_state :=
  set_out (out st ++ s)%string st.
Definition println (s : string) (st : asm_state) : asm_state :=
  print (s ++ CRLF)%string st.

Definition label_at (ls : list label_struct) (k : Z) : label_struct :=
  default (Label [] 0 0 []) (ls !! Z.to_nat k).

(** The three bytes [lbuf] that [find_label] compares: the identifier at
    [buffer+lbl], cut or padded with spaces to three characters. *)
Definition lbuf (buffer : list Z) (lbl llen : Z) : list Z :=
  [ cell buffer lbl;
    if llen >? 1 then cell buffer (lbl + 1) else 32;
    if llen >? 2 then cell buffer (lbl + 2) else 32 ].

(** [memcmp(x, y, 3)==0] *)
Definition memcmp3 (x y : list Z) : bool :=
  (cell x 0 =? cell y 0) && (cell x 1 =? cell y 1) && (cell x 2 =? cell y 2).

(** [find_label(buffer+lbl, llen)]: the index of the entry found or made
    ([None] for [NULL]) and the table afterwards. *)
Definition find_label (buffer : list Z) (lbl llen : Z) (st : asm_state)
    : option Z * asm_state :=
  let key := lbuf buffer lbl llen in
  let res := foldl (fun res i => if memcmp3 (label (label_at (labels st) i)) key
                                 then Some i else res)
                   None (seqZ 0 (num_labels st)) in
  match res with
  | Some k => (Some k, st)
  | None =>
      if num_labels st <? ASM_MAX_LABELS then
        let k := num_labels st in
        let l := Label key (-1) 0 (forward (label_at (labels st) k)) in
        (Some k, set_num_labels (k + 1) (set_labels (<[Z.to_nat k := l]> (labels st)) st))
      else (None, st)
  end.

(** The byte written back to a forward-reference site. *)
Definition patch_byte (a b : Z) : Z :=
  if mode_4bit then to_byte (Z.lor (Z.land b 0xF0) (Z.land (a + Z.land b 0x0F) 0x0F))
  else to_byte (b + a).

(** [for(j=0; j<lbl->forward_count; j++)]: read, merge, write back. *)
Fixpoint patch_forward (n : nat) (j : Z) (fwd : list Z) (a : Z) (t : target) : target :=
  match n with
  | O => t
  | S n' =>
      let r := read_ram t (cell fwd j) 1 in
      let b := patch_byte a (cell r.2 0) in
      let t := write_ram r.1 [b] (cell fwd j) in
      patch_forward n' (j + 1) fwd a t
  end.

(** The branch of the label check that defines label [k] at address [a]. *)
Definition define_label (k : Z) (st : asm_state) : asm_state :=
  let l := label_at (labels st) k in
  let t := patch_forward (Z.to_nat (forward_count l)) 0 (forward l) (asm_a st) (hw st) in
  set_labels (<[Z.to_nat k := Label (label l) (asm_a st) 0 (forward l)]> (labels st))
             (set_hw t st).

(** Prints [buffer[i..]] up to the next space and leaves [i] there. *)
Definition print_word (buffer : list Z) (len i : Z) (st : asm_state) : asm_state * Z :=
  let j := skip (fun c => negb (isSpace c)) buffer len i in
  (print (text (slice buffer i j)) st, j).

(** "check label": the state, [i] and [ok] afterwards. *)
Definition check_label (buffer : list Z) (len : Z) (st : asm_state)
    : asm_state * Z * bool :=
  if isAlpha (cell buffer 0) then
    let i := skip isAlphaNumeric buffer len 0 in
    match find_label buffer 0 i st with
    | (None, st) => (println "Too many labels." st, i, false)
    | (Some k, st) =>
        if loc (label_at (labels st) k) >=? 0 then
          (println "Duplicate label definition." st, i, false)
        else (define_label k st, i, true)
    end
  else if negb (isSpace (cell buffer 0)) then
    let '(st, i) := print_word buffer len 0 (print "Invalid label: " st) in
    (println EmptyString st, i, false)
  else (st, 0, true).

(** [strncasecmp(m, buffer+mstart, 3)==0]; no mnemonic has a NUL among its
    first three characters, so all three positions are compared. *)
Definition strncasecmp3 (m : list Z) (buffer : list Z) (mstart : Z) : bool :=
  forallb (fun k => tolower (cell m k) =? tolower (cell buffer (mstart + k))) [0; 1; 2].

(** "find opcode": [(ok, opcodeIdx, noargmatch)] after the loop over the
    table from entry [j] on. *)
Fixpoint find_opcode (ops : list opcodes_struct) (j : Z) (buffer : list Z)
    (mstart i len : Z) (isimmediate noargmatch : bool) : bool * Z * bool :=
  match ops with
  | [] => (false, -1, noargmatch)
  | o :: ops' =>
      if strncasecmp3 (codes (mnemonic o)) buffer mstart
         && eqb isimmediate (cell (codes (mnemonic o)) 4 =? 35) then
        if negb (has_arg o) || (i <? len) then (true, j, noargmatch)
        else find_opcode ops' (j + 1) buffer mstart i len isimmediate true
      else find_opcode ops' (j + 1) buffer mstart i len isimmediate noargmatch
  end.

(** A reference to the label at [buffer+lblStart]: the lookup, then either
    the forward reference recorded or the address taken as argument. *)
Definition label_reference (buffer : list Z) (lblStart llen arg : Z) (st : asm_state)
    : asm_state * bool * Z :=
  match find_label buffer lblStart llen st with
  | (None, st) => (println "Too many labels." st, false, arg)
  | (Some k, st) =>
      let l := label_at (labels st) k in
      if loc l <? 0 then
        if forward_count l <? ASM_MAX_LABEL_FORWARD_REF then
          let site := to_byte (if mode_4bit then asm_a st else asm_a st + 1) in
          let l' := Label (label l) (loc l) (to_byte (forward_count l + 1))
                          (<[Z.to_nat (forward_count l) := site]> (forward l)) in
          (set_labels (<[Z.to_nat k := l']> (labels st)) st, true, arg)
        else (println "Too many forward references to label." st, false, arg)
      else (st, true, to_byte (loc l))
  end.

(** The label-reference form of an argument; [i] is at its first letter. *)
Definition label_argument (buffer : list Z) (len i arg : Z) (st : asm_state)
    : asm_state * Z * bool * Z :=
  let lblStart := i in
  let i := skip isAlphaNumeric buffer len i in
  let '(st, ok, arg) := label_reference buffer lblStart (i - lblStart) arg st in
  if (cell buffer i =? 43) || (cell buffer i =? 45) then
    let issub := cell buffer i =? 45 in
    let i := skip isSpace buffer len (i + 1) in
    if i <? len then
      let '(res, i, addval) := parse_arg buffer len i 0 false in
      if res then
        let addval := if issub then to_byte (- addval) else addval in
        (st, i, ok, to_byte (arg + addval))
      else
        let '(st, i) := print_word buffer len i
                          (print "Invalid argument to '+/-' operator: " st) in
        (println EmptyString st, i, false, arg)
    else (println "Expected argument to '+/-' operator" st, i, false, arg)
  else (st, i, ok, arg).

(** "read mnemonic" and its argument: state, [i], [ok], [opcodeIdx], [arg]. *)
Definition read_mnemonic (buffer : list Z) (len i : Z) (st : asm_state)
    : asm_state * Z * bool * Z * Z :=
  let i := skip isSpace buffer len i in
  if i <? len then
    let mstart := i in
    let '(i, isimmediate, (ok, opcodeIdx, noargmatch)) :=
      if i + 3 <=? len then
        let i := skip isSpace buffer len (i + 3) in
        let isimmediate := (i <? len) && (cell buffer i =? 35) in
        let i := if isimmediate then i + 1 else i in
        (i, isimmediate, find_opcode opcodes_4bit 0 buffer mstart i len isimmediate false)
      else (i, false, (false, -1, false)) in
    if negb ok then
      if noargmatch then (println "Expected argument" st, i, false, opcodeIdx, 0)
      else
        let '(st, i) := print_word buffer len mstart (print "Invalid mnemonic: " st) in
        let st := if isimmediate then print " #" st else st in
        (println EmptyString st, i, false, opcodeIdx, 0)
    else if has_arg (opcode_at opcodeIdx) then
      if i <? len then
        if isAlpha (cell buffer i) then
          let '(st, i, ok, arg) := label_argument buffer len i 0 st in
          (st, i, ok, opcodeIdx, arg)
        else
          let '(res, i, arg) := parse_arg buffer len i 0 false in
          if res then (st, i, true, opcodeIdx, arg)
          else
            let '(st, i) := print_word buffer len i (print "Invalid argument: " st) in
            (println EmptyString st, i, false, opcodeIdx, arg)
      else (println "Expected argument" st, i, false, opcodeIdx, 0)
    else (st, i, true, opcodeIdx, 0)
  else (st, i, true, -1, 0).

(** The C string at [buffer+i], as [println] prints it: up to the NUL. *)
Fixpoint c_string (l : list Z) : list Z :=
  match l with
  | [] => []
  | c :: l' => if c =? 0 then [] else c :: c_string l'
  end.

(** "warn if there was any extra characters" *)
Definition warn_extra (buffer : list Z) (len i : Z) (st : asm_state) : asm_state :=
  let i := skip isSpace buffer len i in
  if i <? len then
    println (text (c_string (drop (Z.to_nat i) buffer))) (print "Extra ignored: " st)
  else st.

Definition write_byte (b : Z) (st : asm_state) : asm_state :=
  set_a (asm_a st + 1) (set_hw (write_ram (hw st) [b] (asm_a st)) st).

(** The last block of the loop body: what a parsed statement does. *)
Definition emit (opcodeIdx arg : Z) (st : asm_state) : asm_state :=
  let opcode := opcode (opcode_at opcodeIdx) in
  if opcode =? 0xff then write_byte arg st
  else if opcode =? 0xfe then set_a arg (set_addr arg st)
  else if mode_4bit then write_byte (to_byte (Z.lor opcode (Z.land arg 0x0f))) st
  else
    let st := write_byte opcode st in
    if has_arg (opcode_at opcodeIdx) then write_byte arg st else st.

(** One pass of the loop of [assemble] on a line already in [buffer]
    (with the space appended; the cell after it holds the NUL). *)
Definition assemble_line (buffer : list Z) (st : asm_state) : asm_state :=
  let len := Z.of_nat (length buffer) in
  if len =? 0 then st else
  let '(st, i, ok) := check_label buffer len st in
  let '(st, i, ok, opcodeIdx, arg) :=
    if ok then read_mnemonic buffer len i st else (st, i, ok, -1, 0) in
  let st := if ok then warn_extra buffer len i st else st in
  if ok && (opcodeIdx >=? 0) then emit opcodeIdx arg st else st.

(** The label name as the summary prints it: up to the first space. *)
Fixpoint label_name (n : nat) (l : list Z) : list Z :=
  match n, l with
  | S n', c :: l' => if c =? 32 then [] else c :: label_name n' l'
  | _, _ => []
  end.

(** The loop over the label table after the last line: the text printed
    and the [header] flag. *)
Definition undefined_labels (n : Z) (ls : list label_struct) : string * bool :=
  foldl (fun (r : string * bool) i =>
           let l := label_at ls i in
           if loc l <? 0 then
             ((r.1 ++ (if r.2 then String (chr 10) "UNDEFINED LABELS: " else ",")
                   ++ text (label_name 3 (label l)))%string, false)
           else r)
        (EmptyString, true) (seqZ 0 n).

(** What [assemble] does after the input loop. *)
Definition assemble_finish (st : asm_state) : asm_state :=
  if asm_a st >? asm_addr st then
    println EmptyString (print (undefined_labels (num_labels st) (labels st)).1 st)
  else st.

(** The line editor at the head of the loop: [c] is the character read
    last, [buf] is [buffer[0..len-1]].  Returns the last character, the
    line, the echo and the input left; [None] when the input runs out while
    it waits in [serial_read_wait].  Comment characters are echoed, as they
    are while the receive queue is short. *)
Fixpoint read_line (input : list Z) (c : Z) (buf : list Z) (commentLen : Z)
    (echo : list Z) : option (Z * list Z * list Z * list Z) :=
  if Z.of_nat (length buf) <? BUFFER_SIZE then
    match input with
    | [] => None
    | c :: input' =>
        if (c =? 26) || (c =? 27) || (c =? 13) then Some (c, buf, echo, input')
        else if (c =? 8) || (c =? 127) then
          if commentLen >? 0 then read_line input' c buf (commentLen - 1) (echo ++ [127])
          else if Z.of_nat (length buf) >? 0 then
            read_line input' c (removelast buf) commentLen (echo ++ [127])
          else read_line input' c buf commentLen echo
        else if (commentLen =? 0) && (c =? 59) then read_line input' c buf 1 (echo ++ [c])
        else if commentLen >? 0 then read_line input' c buf (commentLen + 1) (echo ++ [c])
        else read_line input' c (buf ++ [c]) commentLen (echo ++ [c])
    end
  else Some (c, buf, echo, input).

(** [while( true )] of [assemble]; each pass takes at least one character,
    so [fuel] above the length of the input is never used up. *)
Fixpoint assemble_loop (fuel : nat) (input : list Z) (st : asm_state) : option asm_state :=
  match fuel with
  | O => None
  | S fuel' =>
      let st := print (dec2hex (asm_a st) ++ ": ") st in
      match read_line input 0 [] 0 [] with
      | None => None
      | Some (c, buf, echo, input') =>
          let st := println (text echo) st in
          if (c =? 26) || (c =? 27) then Some (assemble_finish st)
          else assemble_loop fuel' input' (assemble_line (buf ++ [32]) st)
      end
  end.

(** [assemble(addr)] on the characters [input] typed at the console;
    [None] when it is still waiting for more. *)
Definition assemble (addr : Z) (input : list Z) (ls : list label_struct)
    (t : target) : option asm_state :=
  assemble_loop (S (length input)) input (State addr addr 0 ls t EmptyString).

(** The instruction text of byte [b] as [disassemble] prints it. *)
Definition instr_text (b : Z) : string :=
  let o := opcode_at (Z.shiftr b 4) in
  (mnemonic o ++ (if has_arg o then dec2hex (Z.land b 0x0f) else EmptyString))%string.

(** One pass of the loop of [disassemble] at address [a]. *)
Definition disassemble_step (t : target) (a : Z) : target * string :=
  let r := read_ram t a 1 in
  let b := cell r.2 0 in
  (r.1, (dec2hex a ++ ": " ++ dec2hex b ++ "   " ++ instr_text b ++ CRLF)%string).

(** [disassemble(a, e)]: the target, the text printed and the input left;
    [None] while it waits for a key. *)
Fixpoint disassemble_loop (fuel : nat) (t : target) (a e : Z) (input : list Z)
    (o : string) : option (target * string * list Z) :=
  match fuel with
  | O => None
  | S fuel' =>
      if (a <=? e) || (e <? 0) then
        let r := disassemble_step t a in
        let o := (o ++ r.2)%string in
        if e <? 0 then
          match input with
          | [] => None
          | c :: input' =>
              if negb (c =? 32) then Some (r.1, o, input')
              else disassemble_loop fuel' r.1 (a + 1) e input' o
          end
        else disassemble_loop fuel' r.1 (a + 1) e input o
      else Some (t, o, input)
  end.

Definition disassemble (t : target) (a e : Z) (input : list Z)
    : option (target * string * list Z) :=
  disassemble_loop (Z.to_nat (e - a + 1) + length input + 1) t a e input EmptyString.

End Asm.

(** * Notions used to state the properties *)

Definition is_byte (v : Z) : Prop := 0 <= v < 256.

(** The number on eight lines whose levels are given by [f]. *)
Definition lines_value (f : nat -> bool) : Z :=
  foldl (fun res i => if f i then Z.lor res (Z.shiftl 1 (Z.of_nat i)) else res)
        0 (seq 0 8).

Section TransferNotions.
Import Target.

(** One pass of the loop of [write_ram]. *)
Definition write_cycle (address d : Z) (t : target) : target :=
  wait_clock_high (SET_RI_HIGH (write_bus d (SET_MI_LOW (wait_clock_low
    (wait_clock_high (SET_MI_HIGH (write_bus address (SET_RI_LOW (wait_clock_low t))))))))).

(** One pass of the loop of [read_ram], up to the sampling of the bus. *)
Definition read_cycle (address : Z) (t : target) : target :=
  wait_clock_high (SET_RO_HIGH (SET_BUS_INPUT (SET_MI_LOW (wait_clock_low
    (wait_clock_high (SET_MI_HIGH (write_bus address (SET_BUS_OUTPUT (SET_RO_LOW
      (wait_clock_low t)))))))))).

(** The RAM after bytes [data] went to the cells [p], [p+1], ... as the
    4-bit address register selects them. *)
Fixpoint store_bytes (data : list Z) (p : Z) (r : list Z) : list Z :=
  match data with
  | [] => r
  | d :: data' => store_bytes data' (p + 1) (<[Z.to_nat (p mod 16) := to_byte d]> r)
  end.

End TransferNotions.

Section BreakpointNotions.
Import Breakpoints.

(** The invariant of the breakpoint set: at most ten entries in the
    ten-cell array, no value twice. *)
Definition bp_ok (s : bp_state) : Prop :=
  0 <= num_breakpoints s <= MAX_BREAKPOINTS
  /\ length (breakpoints s) = 10%nat
  /\ NoDup (active s).

(** The mutations the monitor offers. *)
Inductive bp_command :=
  | CmdAdd (a : Z)
  | CmdRemove (a : Z)
  | CmdRemoveAll.

Definition exec (m : monitor_state) (c : bp_command) : monitor_state :=
  match c with
  | CmdAdd a => (add_breakpoint a m).1
  | CmdRemove a => (remove_breakpoint a m).1
  | CmdRemoveAll => (remove_all_breakpoints m).1
  end.

(** The state at power-on: the globals are zero, the EEPROM is erased. *)
Definition power_on : monitor_state := Mon (BP 0 (replicate 10 0)) ∅.

(** The store holds set [s]: its count, and its values below the count. *)
Definition stored (e : gmap Z Z) (s : bp_state) : Prop :=
  Eeprom.EEPROM_read e 1022 = num_breakpoints s
  /\ forall i, 0 <= i < num_breakpoints s ->
       Eeprom.EEPROM_read e (1021 - i) = cell (breakpoints s) i.

End BreakpointNotions.

Section PersistenceNotions.
Import Breakpoints.

(** The values of the set are bytes, as they are once parsed. *)
Definition bp_bytes (s : bp_state) : Prop :=
  forall i, 0 <= i < num_breakpoints s -> is_byte (cell (breakpoints s) i).

(** Commands whose argument is a byte. *)
Definition byte_command (c : bp_command) : Prop :=
  match c with
  | CmdAdd a | CmdRemove a => is_byte a
  | CmdRemoveAll => True
  end.

(** Commands that add a byte or clear the set. *)
Definition growing_command (c : bp_command) : Prop :=
  match c with
  | CmdAdd a => is_byte a
  | CmdRemove _ => False
  | CmdRemoveAll => True
  end.

End PersistenceNotions.

(** ** Concrete states used in the examples *)

(** A target with cleared RAM, clock low, all lines low. *)
Definition blank_target : Target.target :=
  Target.Build (replicate 16 0) 0 false false false false false (replicate 8 false).

(** The monitor after breakpoints 5 and 7 were set and saved. *)
Definition two_breakpoints : Breakpoints.monitor_state :=
  let s := Breakpoints.BP 2 [5; 7; 0; 0; 0; 0; 0; 0; 0; 0] in
  Breakpoints.Mon s (Breakpoints.save_breakpoints s ∅).

Definition no_breakpoints : Breakpoints.bp_state := Breakpoints.BP 0 (replicate 10 0).

Section RunNotions.
Import Breakpoints Run.

(** A sample on which the loop of [run] goes on: no breakpoint at the
    program counter, serial line idle, opcode other than HLT. *)
Definition quiet (s : bp_state) (f : fetch) : Prop :=
  breakpoint_hit false s (f_pc f) = false
  /\ f_rx f = true
  /\ to_byte (f_opcode f) <> hlt.


(** The target executing NOP at address 0 with the serial line idle. *)
Definition nop_sample : fetch := Fetch 0 true 0.

End RunNotions.

Section AsmNotions.
Import Asm.

(** The firmware keeps RI low between transfers; the RAM has 16 byte cells. *)
Definition target_ok (t : Target.target) : Prop :=
  length (Target.ram t) = 16%nat
  /\ Forall is_byte (Target.ram t)
  /\ Target.pin_ri t = false.

(** The two characters that [dec2hex] makes of a nibble. *)
Definition two_digits (v : Z) : string :=
  String "0" (String (chr (hex_digit v)) EmptyString).

(** The line typed to assemble again what the disassembler printed for
    byte [b]: blank label field, then the instruction text; the assembler
    adds the closing space. *)
Definition reassemble_buffer (b : Z) : list Z :=
  (32 :: codes (instr_text b)) ++ [32].

(** Bytes whose instruction text assembles back to themselves: a decimal
    digit as argument, or no argument and a zero low nibble. *)
Definition reassembles (b : Z) : bool :=
  if has_arg (opcode_at (Z.shiftr b 4)) then Z.land b 0x0f <=? 9
  else Z.land b 0x0f =? 0.

(** The label table with every cell zero, and the assembler at address 0
    on a cleared target. *)
Definition blank_labels : list label_struct :=
  replicate 16 (Label [0; 0; 0] 0 0 (replicate 16 0)).

Definition asm_blank : asm_state := State 0 0 0 blank_labels blank_target EmptyString.

End AsmNotions.

Section LabelNotions.

(** An identifier cut to three characters, padded with spaces. *)
Definition pad3 (ident : list Z) : list Z := take 3 (ident ++ [32; 32]).

(** A label identifier: a letter followed by letters and digits. *)
Definition identifier (x : list Z) : Prop :=
  (exists c x', x = c :: x' /\ isAlpha c = true)
  /\ Forall (fun c => isAlphaNumeric c = true) x.

(** What may follow an identifier: the end of the line or a character
    that is neither a letter nor a digit. *)
Definition ends_identifier (rest : list Z) : Prop :=
  forall c rest', rest = c :: rest' -> isAlphaNumeric c = false.

(** No [+] or [-] follows: the reference carries no offset. *)
Definition no_offset (rest : list Z) : Prop :=
  forall c rest', rest = c :: rest' -> c <> 43 /\ c <> 45.

End LabelNotions.

Section ForwardReferenceNotions.
Import Asm.

(** The RAM after each site of the list had the address [a] merged in. *)
Definition patch_ram (a : Z) (sites r : list Z) : list Z :=
  foldl (fun r s => <[Z.to_nat (s mod 16) := patch_byte a (cell r (s mod 16))]> r)
        r sites.

(** The forward-reference sites recorded for a label. *)
Definition recorded_sites (l : label_struct) : list Z :=
  take (Z.to_nat (forward_count l)) (forward l).

(** The RAM cells those sites select. *)
Definition site_cells (l : label_struct) : list Z :=
  map (fun s => s mod 16) (recorded_sites l).

(** The names of the labels of the table that have no address, in table
    order, as the summary prints them. *)
Definition undefined_names (n : Z) (ls : list label_struct) : list string :=
  map (fun l => text (label_name 3 (label l)))
      (List.filter (fun l => loc l <? 0) (map (label_at ls) (seqZ 0 n))).

(** The summary line for these names. *)
Definition summary_text (names : list string) : string :=
  match names with
  | [] => EmptyString
  | _ => (String (chr 10) "UNDEFINED LABELS: " ++ String.concat "," names)%string
  end.

(** Two references to the label FOO, at addresses 0 and 1, not yet defined. *)
Definition two_forward_refs : asm_state :=
  assemble_line (codes " JC FOO ") (assemble_line (codes " JMP FOO ") asm_blank).

End ForwardReferenceNotions.

(** * The rest of the monitor *)

From Stdlib Require DecimalString.

(** [Serial.print] of an unsigned number: its decimal digits. *)
Definition print_dec (n : Z) : string :=
  DecimalString.NilEmpty.string_of_uint (N.to_uint (Z.to_N n)).

(** ** Analog inputs *)
Module Analog.

(** [read_analog_2bit] on the value that [analogRead] returned. *)
Definition read_analog_2bit (v : Z) : Z :=
  if v <? 400 then 0
  else if v <? 600 then 1
  else if v <? 700 then 2
  else 3.

(** The thresholds of [read_analog_4bit]: [res] is the number of
    thresholds that the value has reached. *)
Definition level_4bit (v : Z) : Z :=
  if v <? 45 then 0
  else if v <? 150 then 1
  else if v <? 230 then 2
  else if v <? 310 then 3
  else if v <? 350 then 4
  else if v <? 400 then 5
  else if v <? 430 then 6
  else if v <? 475 then 7
  else if v <? 525 then 8
  else if v <? 550 then 9
  else if v <? 575 then 10
  else if v <? 600 then 11
  else if v <? 615 then 12
  else if v <? 632 then 13
  else if v <? 647 then 14
  else 15.

(** [read_analog_4bit] on the ten values that [analogRead] returned: their
    sum, divided by 10, then the level. *)
Definition read_analog_4bit (reads : list Z) : Z :=
  let v := foldl (fun v i => v + cell reads i) 0 (seqZ 0 10) in
  level_4bit (v / 10).

End Analog.

(** ** Console input of hexadecimal bytes *)
Module Console.

(** [read_hex_char(first)] on the characters that [serial_read_wait] will
    return: the result, the echo and the input left; [None] while it waits. *)
Fixpoint read_hex_char (first : bool) (input : list Z) : option (Z * string * list Z) :=
  match input with
  | [] => None
  | c :: input' =>
      let cv := hex_char_to_byte c in
      if cv >=? 0 then Some (cv, text [c], input')
      else if negb first && ((c =? 32) || (c =? 13)) then Some (-1, EmptyString, input')
      else if c =? 27 then Some (-2, EmptyString, input')
      else read_hex_char first input'
  end.

(** [serial_read_byte]: the byte, or -1 after ESC. *)
Definition serial_read_byte (input : list Z) : option (Z * string * list Z) :=
  match read_hex_char true input with
  | None => None
  | Some (cv1, o1, input) =>
      if cv1 =? -2 then Some (-1, o1, input)
      else if cv1 <? 0 then Some (0, (o1 ++ "00")%string, input)
      else
        match read_hex_char false input with
        | None => None
        | Some (cv2, o2, input) =>
            if cv2 =? -2 then Some (-1, (o1 ++ o2 ++ text [127])%string, input)
            else if cv2 <? 0 then
              Some (cv1, (o1 ++ o2 ++ text [127] ++ dec2hex cv1)%string, input)
            else Some (cv1 * 16 + cv2, (o1 ++ o2)%string, input)
        end
  end.

End Console.

(** ** Memory commands, RAM images and the program counter *)
Module Memory.
Import Target Eeprom.

(** What these commands work on: the global [buffer], the EEPROM, the
    target and the text printed. *)
Record machine := Machine {
  buffer : list Z;
  store  : gmap Z Z;
  hw     : target;
  out    : string
}.

Definition set_buffer v m := Machine v (store m) (hw m) (out m).
Definition set_store v m := Machine (buffer m) v (hw m) (out m).
Definition set_hw v m := Machine (buffer m) (store m) v (out m).
Definition print (s : string) (m : machine) : machine :=
  Machine (buffer m) (store m) (hw m) (out m ++ s)%string.
Definition println (s : string) (m : machine) : machine := print (s ++ CRLF)%string m.

(** One pass of the loop of [print_data]. *)
Definition print_data_step (data : list Z) (addr : Z) (o : string) (i : Z) : string :=
  let o := if i mod 16 =? 0 then
             ((if i >? 0 then o ++ CRLF else o) ++ dec2hex (addr + i) ++ ": ")%string
           else if i mod 16 =? 8 then (o ++ " ")%string
           else o in
  (o ++ dec2hex (cell data i) ++ " ")%string.

(** [print_data(data, addr, len)]: the text it prints. *)
Definition print_data (data : list Z) (addr len : Z) : string :=
  (foldl (print_data_step data addr) EmptyString (seqZ 0 len) ++ CRLF)%string.

(** [read_ram(buffer, start, len)] on the global buffer: the bytes read
    replace its first cells. *)
Definition read_to_buffer (start len : Z) (m : machine) : machine :=
  let r := read_ram (hw m) start len in
  set_buffer (r.2 ++ drop (length r.2) (buffer m)) (set_hw r.1 m).

(** [write_ram(buffer, start, len)] from the global buffer. *)
Definition write_from_buffer (start len : Z) (m : machine) : machine :=
  set_hw (write_ram (hw m) (take (Z.to_nat len) (buffer m)) start) m.

(** [save_data(eeprom_internal, eeprom_start, ram_start, size)] *)
Definition save_data (print_serial_output eeprom_internal : bool)
    (eeprom_start ram_start size : Z) (m : machine) : machine :=
  if print_serial_output then
    let m := println (print_dec ram_start)
               (print " bytes starting at address "
                  (print (print_dec size) (print "Saving " m))) in
    if size >? BUFFER_SIZE then println "[Error: buffer to small]" m
    else
      let m := read_to_buffer ram_start size m in
      let w := write_eeprom (store m) (buffer m) eeprom_internal eeprom_start size in
      if w.2 then
        print (print_data (buffer m) ram_start size) (println "Saved:" (set_store w.1 m))
      else println "[Error: exceeded EEPROM address space" m
  else
    let m := read_to_buffer ram_start size m in
    set_store (write_eeprom (store m) (buffer m) eeprom_internal eeprom_start size).1 m.

(** [read_eeprom(buffer, ...)] on the global buffer; the buffer is left as
    it was when the read is refused. *)
Definition read_eeprom_to_buffer (eeprom_internal : bool) (eeprom_start size : Z)
    (m : machine) : machine * bool :=
  match read_eeprom (store m) eeprom_internal eeprom_start size with
  | Some bytes => (set_buffer (bytes ++ drop (length bytes) (buffer m)) m, true)
  | None => (m, false)
  end.

(** [load_data(eeprom_internal, eeprom_start, ram_start, size)]; the RAM is
    written from address 0 whatever [ram_start] is. *)
Definition load_data (print_serial_output eeprom_internal : bool)
    (eeprom_start ram_start size : Z) (m : machine) : machine :=
  if print_serial_output then
    if size >? BUFFER_SIZE then println "[Error: buffer to small]" m
    else
      let r := read_eeprom_to_buffer eeprom_internal eeprom_start size m in
      if r.2 then
        let m := print (print_data (buffer r.1) ram_start size) (println "Loading:" r.1) in
        println "done" (write_from_buffer 0 size m)
      else println "[Error: exceeded EEPROM address space" m
  else
    let r := read_eeprom_to_buffer eeprom_internal eeprom_start size m in
    write_from_buffer 0 size r.1.

Definition image_banner (ok bad : string) (num : Z) (m : machine) : machine :=
  println (print_dec num) (print (if num <? 16 then ok else bad) m).

(** [load_ram_image(num, size_4bit)] *)
Definition load_ram_image (print_serial_output : bool) (num : Z) (size_4bit : bool)
    (m : machine) : machine :=
  let m := if print_serial_output
           then image_banner "Loading RAM image #" "Invalid RAM image number: " num m
           else m in
  if size_4bit then load_data print_serial_output true (num * 16) 0 16 m
  else load_data print_serial_output false (num * 256) 0 256 m.

(** [save_ram_image(num, size_4bit)] *)
Definition save_ram_image (print_serial_output : bool) (num : Z) (size_4bit : bool)
    (m : machine) : machine :=
  let m := if print_serial_output
           then image_banner "Saving RAM image #" "Invalid RAM image number: " num m
           else m in
  if size_4bit then save_data print_serial_output true (num * 16) 0 16 m
  else save_data print_serial_output false (num * 256) 0 256 m.

(** [memory_clear(s, e, v)] *)
Definition memory_clear (s e v : Z) (m : machine) : machine :=
  let n := e - s + 1 in
  let m := set_buffer (foldl (fun b i => <[Z.to_nat i := v]> b) (buffer m) (seqZ 0 n)) m in
  let m := write_from_buffer s n m in
  println "." (print (dec2hex v) (print " to value "
    (print (dec2hex e) (print "-" (print (dec2hex s) (print "Set memory range " m)))))).

(** The [do ... while] of [memory_dump] for [e==0]: [None] while it waits
    for a key. *)
Fixpoint memory_dump_blocks (fuel : nat) (a : Z) (input : list Z) (m : machine)
    : option (machine * list Z) :=
  match fuel with
  | O => None
  | S fuel' =>
      let m := read_to_buffer a 16 m in
      let m := print (print_data (buffer m) a 16) m in
      let a := a + 16 in
      if (negb mode_4bit || (a <? 16)) && (a <? 256) then
        match input with
        | [] => None
        | c :: input' =>
            if c =? 32 then memory_dump_blocks fuel' a input' m else Some (m, input')
        end
      else Some (m, input)
  end.

(** [memory_dump(s, e)]; the address grows by 16 up to 256, so 17 passes
    are never needed. *)
Definition memory_dump (s e : Z) (input : list Z) (m : machine)
    : option (machine * list Z) :=
  if e =? 0 then memory_dump_blocks 17 s input m
  else
    let n := e - s + 1 in
    let m := read_to_buffer s n m in
    Some (print (print_data (buffer m) s n) m, input).

(** The loop of [memory_update]: [None] while it waits for input. *)
Fixpoint memory_update_loop (fuel : nat) (a i e : Z) (input : list Z) (m : machine)
    : option (machine * list Z) :=
  match fuel with
  | O => None
  | S fuel' =>
      if a + i <=? e then
        let m := if i mod 16 =? 0 then
                   print ": " (print (dec2hex (a + i)) (if i >? 0 then println EmptyString m else m))
                 else if i mod 16 =? 8 then print " " m
                 else m in
        match Console.serial_read_byte input with
        | None => None
        | Some (d, echo, input') =>
            let m := print echo m in
            if d <? 0 then Some (m, input')
            else
              let m := print " " m in
              let b := to_byte d in
              let m := set_hw (write_ram (hw m) [b] (a + i)) m in
              memory_update_loop fuel' a (i + 1) e input' m
        end
      else Some (m, input)
  end.

(** [memory_update(a)]; at most [e - a + 1] bytes are taken. *)
Definition memory_update (a : Z) (input : list Z) (m : machine)
    : option (machine * list Z) :=
  let e := if mode_4bit then 0x0f else 0xff in
  match memory_update_loop (Z.to_nat (e - a + 1) + 1) a 0 e input m with
  | None => None
  | Some (m, input) => Some (println EmptyString m, input)
  end.




End Memory.

Module BreakpointCheck.
Import Breakpoints.

(** [check_breakpoint(pc)]: the search is the loop of the monitor
    commands, with the program counter for the address. *)
Definition check_breakpoint (pc : Z) (s : bp_state) : bool * string :=
  let bp := bp_find pc s in
  if bp <? num_breakpoints s then
    (true, ("Stopped at breakpoint: " ++ dec2hex (cell (breakpoints s) bp) ++ CRLF)%string)
  else (false, EmptyString).

End BreakpointCheck.

(** * Notions used to state the further properties *)

(** The number that decimal digits denote. *)
Definition decimal_value (ds : list Z) : Z := foldl (fun acc d => acc * 10 + d) 0 ds.

(** The characters that [read_hex_char] passes over: no hexadecimal digit,
    not ESC and, after the first digit, neither space nor carriage return. *)
Definition skipped (first : bool) (c : Z) : bool :=
  (hex_char_to_byte c <? 0) && negb (c =? 27)
  && (first || negb ((c =? 32) || (c =? 13))).

(** The characters of the two-digit hexadecimal forms of [bytes]. *)
Definition typed (bytes : list Z) : list Z :=
  flat_map (fun b => codes (dec2hex b)) bytes.

(** The label table within its bounds: at most sixteen labels, and for
    each entry at most sixteen forward references in an array of sixteen. *)
Definition labels_ok (st : Asm.asm_state) : Prop :=
  0 <= Asm.num_labels st <= Asm.ASM_MAX_LABELS
  /\ length (Asm.labels st) = 16%nat
  /\ Forall (fun l => 0 <= Asm.forward_count l <= Asm.ASM_MAX_LABEL_FORWARD_REF
                      /\ length (Asm.forward l) = 16%nat) (Asm.labels st).

Definition asm_ok (st : Asm.asm_state) : Prop :=
  labels_ok st /\ target_ok (Asm.hw st).

(** The assembler with label [lp] defined at address 0 and the next
    instruction to go to address 1. *)
Definition one_label : Asm.asm_state :=
  Asm.State 1 0 1
    (<[0%nat := Asm.Label (pad3 (codes "lp")) 0 0 (replicate 16 0)]> blank_labels)
    blank_target EmptyString.

(** The line that the disassembler prints for address [a] of the RAM [r],
    and the lines for [n] addresses from [a] on. *)
Definition listing_line (r : list Z) (a : Z) : string :=
  (dec2hex a ++ ": " ++ dec2hex (cell r (a mod 16)) ++ "   "
   ++ Asm.instr_text (cell r (a mod 16)) ++ CRLF)%string.

Fixpoint listing (r : list Z) (a : Z) (n : nat) : string :=
  match n with
  | O => EmptyString
  | S n' => (listing_line r a ++ listing r (a + 1) n')%string
  end.

(** Every line that the line editor hands to the assembler leaves room in
    the 256-byte [buffer] for the space and the NUL that the assembler
    appends: [buffer[len++] = ' '; buffer[len] = 0;] stay inside the array
    when the line has at most 254 characters.  The last line, ended by ESC or
    Ctrl-Z, gets neither. *)
Fixpoint lines_fit (fuel : nat) (input : list Z) : bool :=
  match fuel with
  | O => true
  | S fuel' =>
      match Asm.read_line input 0 [] 0 [] with
      | None => true
      | Some (c, buf, _, input') =>
          if (c =? 26) || (c =? 27) then true
          else (Z.of_nat (length buf) + 1 <? BUFFER_SIZE) && lines_fit fuel' input'
      end
  end.

(** * Properties *)

(** ** Bytes and the bus *)

Lemma byte_cases (P : Z -> bool) :
  forallb P (seqZ 0 256) = true -> forall v, is_byte v -> P v = true.
Proof.
  intros H v Hv. rewrite forallb_forall in H. apply H.
  apply list_elem_of_In, elem_of_seqZ. unfold is_byte in Hv. lia.
Qed.

Lemma to_byte_id v : is_byte v -> to_byte v = v.
Proof. intros Hv. apply Z.mod_small. exact Hv. Qed.

Lemma to_byte_is_byte v : is_byte (to_byte v).
Proof. unfold is_byte, to_byte. apply Z.mod_pos_bound. lia. Qed.

Lemma land_15 v : Z.land v 15 = v mod 16.
Proof. change 15 with (Z.ones 4). rewrite Z.land_ones by lia. reflexivity. Qed.

Section Bus.
Import Target.

Lemma read_bus_lines t : read_bus t = lines_value (bus_line t).
Proof. reflexivity. Qed.

Lemma lines_value_ext f g :
  (forall i, (i < 8)%nat -> f i = g i) -> lines_value f = lines_value g.
Proof.
  intros H. unfold lines_value. simpl.
  rewrite !H by lia. reflexivity.
Qed.

Lemma lines_value_pins v :
  is_byte v -> lines_value (fun i => default false (write_pins 8 v !! i)) = v.
Proof.
  intros Hv.
  apply Z.eqb_eq.
  apply (byte_cases (fun v => lines_value (fun i => default false (write_pins 8 v !! i)) =? v));
    [vm_compute; reflexivity | exact Hv].
Qed.

Lemma lines_value_bits v :
  is_byte v -> lines_value (fun i => Z.testbit v (Z.of_nat i)) = v.
Proof.
  intros Hv.
  apply Z.eqb_eq.
  apply (byte_cases (fun v => lines_value (fun i => Z.testbit v (Z.of_nat i)) =? v));
    [vm_compute; reflexivity | exact Hv].
Qed.

(** The programmer drives the bus: the target sees the byte written. *)
Lemma read_bus_driven t d :
  bus_out t = true -> read_bus (write_bus d t) = to_byte d.
Proof.
  intros Ho. rewrite read_bus_lines.
  rewrite (lines_value_ext _ (fun i => default false (write_pins 8 (to_byte d) !! i))).
  - apply lines_value_pins, to_byte_is_byte.
  - intros i _. unfold bus_line, write_bus. destruct t; simpl in *. rewrite Ho. reflexivity.
Qed.

(** The RAM drives the bus: the programmer reads the addressed cell. *)
Lemma read_bus_ram t :
  bus_out t = false -> pin_ro t = true -> is_byte (cell (ram t) (mar t)) ->
  read_bus t = cell (ram t) (mar t).
Proof.
  intros Ho Hr Hb. rewrite read_bus_lines.
  rewrite (lines_value_ext _ (fun i => Z.testbit (cell (ram t) (mar t)) (Z.of_nat i))).
  - apply lines_value_bits, Hb.
  - intros i _. unfold bus_line. rewrite Ho, Hr. reflexivity.
Qed.

End Bus.

(** ** The RAM transfer engine *)

Ltac target_simpl :=
  cbv beta iota zeta delta
    [write_cycle read_cycle Target.wait_clock_low Target.wait_clock_high
     Target.rising_edge Target.SET_RO_HIGH Target.SET_RO_LOW Target.SET_RI_HIGH
     Target.SET_RI_LOW Target.SET_MI_HIGH Target.SET_MI_LOW Target.SET_BUS_INPUT
     Target.SET_BUS_OUTPUT Target.write_bus Target.set_ram Target.set_mar
     Target.set_clk Target.set_mi Target.set_ri Target.set_ro Target.set_bus_out
     Target.set_bus_pins Target.ram Target.mar Target.clk Target.pin_mi
     Target.pin_ri Target.pin_ro Target.bus_out Target.bus_pins].


Section Transfer.
Import Target.

Lemma read_bus_build r m c mi ri ro d :
  read_bus (Build r m c mi ri ro true (write_pins 8 (to_byte d))) = to_byte d.
Proof.
  pose proof (read_bus_driven (Build r m c mi ri ro true []) d eq_refl) as H.
  unfold write_bus, set_bus_pins in H. exact H.
Qed.

Lemma write_ram_loop_cons d data start i t :
  write_ram_loop (d :: data) start i t
  = write_ram_loop data start (i + 1) (write_cycle (to_byte (start + i)) d t).
Proof. cbv beta iota zeta delta [write_ram_loop write_cycle]. reflexivity. Qed.

Local Opaque read_bus write_pins.

Lemma write_cycle_spec address d t :
  bus_out t = true ->
  write_cycle address d t
  = Build (<[Z.to_nat (to_byte address mod 16) := to_byte d]> (ram t))
          (to_byte address mod 16) true false true (pin_ro t) true
          (write_pins 8 (to_byte d)).
Proof.
  intros Ho. destruct t as [r m c mi ri ro bo bp]. simpl in Ho. subst bo.
  destruct c; target_simpl; rewrite ?read_bus_build, land_15; reflexivity.
Qed.

Lemma to_byte_mod16 v : to_byte v mod 16 = v mod 16.
Proof.
  unfold to_byte.
  pose proof (Z.div_mod v 256 ltac:(lia)).
  pose proof (Z.mod_pos_bound v 256 ltac:(lia)).
  pose proof (Z.div_mod (v mod 256) 16 ltac:(lia)).
  pose proof (Z.mod_pos_bound (v mod 256) 16 ltac:(lia)).
  apply (Z.mod_unique_pos _ _ (16 * (v / 256) + v mod 256 / 16)); lia.
Qed.

Lemma mod16_shift_ne p k : 0 < k < 16 -> (p + k) mod 16 <> p mod 16.
Proof.
  intros Hk He.
  pose proof (Z.div_mod p 16 ltac:(lia)).
  pose proof (Z.div_mod (p + k) 16 ltac:(lia)).
  lia.
Qed.

Lemma cell_insert_eq (r : list Z) q v :
  0 <= q < Z.of_nat (length r) -> cell (<[Z.to_nat q := v]> r) q = v.
Proof.
  intros Hq. unfold cell. rewrite list_lookup_insert_eq by lia. reflexivity.
Qed.

Lemma cell_insert_ne (r : list Z) q q' v :
  0 <= q -> 0 <= q' -> q <> q' -> cell (<[Z.to_nat q := v]> r) q' = cell r q'.
Proof.
  intros Hq Hq' Hne. unfold cell. rewrite list_lookup_insert_ne by lia. reflexivity.
Qed.

Lemma store_bytes_length data p r : length (store_bytes data p r) = length r.
Proof.
  revert p r. induction data as [|d data IH]; intros p r; simpl; [reflexivity|].
  rewrite IH. apply length_insert.
Qed.

(** Cells that none of the next [length data <= 16] addresses selects. *)
Lemma store_bytes_other data p r q :
  0 <= q < 16 ->
  (forall k, 0 <= k < Z.of_nat (length data) -> (p + k) mod 16 <> q) ->
  cell (store_bytes data p r) q = cell r q.
Proof.
  revert p r. induction data as [|d data IH]; intros p r Hq Hk; simpl; [reflexivity|].
  rewrite IH; [|exact Hq|].
  - apply cell_insert_ne; [apply Z.mod_pos_bound; lia | lia |].
    specialize (Hk 0). rewrite Z.add_0_r in Hk. apply Hk. simpl length. lia.
  - intros k Hk'. replace (p + 1 + k) with (p + (k + 1)) by lia.
    apply Hk. simpl length. lia.
Qed.

Lemma store_bytes_cell data p r k :
  length r = 16%nat -> (length data <= 16)%nat ->
  0 <= k < Z.of_nat (length data) ->
  cell (store_bytes data p r) ((p + k) mod 16) = to_byte (cell data k).
Proof.
  revert p r k. induction data as [|d data IH]; intros p r k Hr Hl Hk; simpl in *; [lia|].
  destruct (decide (k = 0)) as [->|Hne].
  - rewrite Z.add_0_r. rewrite store_bytes_other.
    + rewrite cell_insert_eq; [reflexivity|].
      pose proof (Z.mod_pos_bound p 16). lia.
    + apply Z.mod_pos_bound. lia.
    + intros j Hj. replace (p + 1 + j) with (p + (j + 1)) by lia.
      apply mod16_shift_ne. lia.
  - replace (p + k) with (p + 1 + (k - 1)) by lia.
    rewrite IH; [| rewrite length_insert; exact Hr | lia | lia].
    unfold cell. replace (Z.to_nat k) with (S (Z.to_nat (k - 1))) by lia.
    reflexivity.
Qed.

Lemma write_ram_loop_spec data start i t :
  bus_out t = true ->
  let t' := write_ram_loop data start i t in
  ram t' = store_bytes data (start + i) (ram t) /\ bus_out t' = true.
Proof.
  revert i t. induction data as [|d data IH]; intros i t Ho; [split; [reflexivity|exact Ho]|].
  cbv zeta. rewrite write_ram_loop_cons.
  rewrite write_cycle_spec by exact Ho.
  specialize (IH (i + 1) (Build (<[Z.to_nat (to_byte (to_byte (start + i)) mod 16) := to_byte d]> (ram t))
          (to_byte (to_byte (start + i)) mod 16) true false true (pin_ro t) true
          (write_pins 8 (to_byte d))) eq_refl).
  cbv zeta in IH. destruct IH as [IH1 IH2]. split; [|exact IH2].
  rewrite IH1. simpl. rewrite !to_byte_mod16.
  replace (start + (i + 1)) with (start + i + 1) by lia. reflexivity.
Qed.

Lemma write_ram_head t :
  let t1 := wait_clock_high (SET_BUS_OUTPUT (wait_clock_high t)) in
  bus_out t1 = true /\ ram t1 = ram (wait_clock_high t).
Proof.
  destruct t as [r m c mi ri ro bo bp].
  destruct c; target_simpl; split; reflexivity.
Qed.

Lemma write_ram_tail t :
  let t' := SET_BUS_INPUT (SET_RI_LOW (wait_clock_low t)) in
  ram t' = ram t /\ pin_ri t' = false.
Proof.
  destruct t as [r m c mi ri ro bo bp].
  destruct c; target_simpl; split; reflexivity.
Qed.

(** [write_ram] leaves the bytes in the cells addressed, with RI low. *)
Lemma write_ram_spec t data start :
  let t' := write_ram t data start in
  ram t' = store_bytes data (to_byte start) (ram (wait_clock_high t))
  /\ pin_ri t' = false.
Proof.
  cbv zeta. unfold write_ram, wait_clock_info_high.
  destruct (write_ram_head t) as [Ho Hr]. cbv zeta in Ho, Hr.
  destruct (write_ram_loop_spec data (to_byte start) 0 _ Ho) as [Hram _].
  rewrite Z.add_0_r, Hr in Hram.
  destruct (write_ram_tail (write_ram_loop data (to_byte start) 0
              (wait_clock_high (SET_BUS_OUTPUT (wait_clock_high t))))) as [H1 H2].
  cbv zeta in H1, H2. rewrite H1, Hram. split; [reflexivity | exact H2].
Qed.

Lemma read_ram_loop_succ n start i t :
  read_ram_loop (S n) start i t
  = let t' := read_cycle (to_byte (start + i)) t in
    let r := read_ram_loop n start (i + 1) t' in
    (r.1, read_bus t' :: r.2).
Proof. cbv beta iota zeta delta [read_ram_loop read_cycle]. reflexivity. Qed.

Lemma read_cycle_spec address t :
  pin_ri t = false ->
  read_cycle address t
  = Build (ram t) (to_byte address mod 16) true false false true false
          (write_pins 8 (to_byte address)).
Proof.
  intros Hri. destruct t as [r m c mi ri ro bo bp]. simpl in Hri. subst ri.
  destruct c; target_simpl; rewrite ?read_bus_build, land_15; reflexivity.
Qed.

(** With RI low, [read_ram]'s loop returns the cells addressed and leaves
    the RAM as it was. *)
Lemma read_ram_loop_spec n start i t :
  pin_ri t = false ->
  (forall k, 0 <= k < Z.of_nat n -> is_byte (cell (ram t) ((start + i + k) mod 16))) ->
  let r := read_ram_loop n start i t in
  r.2 = map (fun k => cell (ram t) ((start + i + k) mod 16)) (seqZ 0 (Z.of_nat n))
  /\ ram r.1 = ram t /\ pin_ri r.1 = false.
Proof.
  revert i t. induction n as [|n IH]; intros i t Hri Hb; [repeat split; assumption|].
  cbv zeta. rewrite read_ram_loop_succ. cbv zeta.
  rewrite read_cycle_spec by exact Hri.
  set (t' := Build _ _ _ _ _ _ _ _).
  destruct (IH (i + 1) t' eq_refl) as (IH1 & IH2 & IH3).
  { intros k Hk. subst t'. simpl ram.
    replace (start + (i + 1) + k) with (start + i + (k + 1)) by lia. apply Hb. lia. }
  cbn [fst snd]. split; [|split; [rewrite IH2; reflexivity | exact IH3]].
  rewrite IH1.
  replace (Z.of_nat (S n)) with (Z.succ (Z.of_nat n)) by lia.
  rewrite (seqZ_cons 0 (Z.succ (Z.of_nat n))) by lia. rewrite Z.pred_succ.
  cbn [map]. f_equal.
  - rewrite read_bus_ram; subst t'; simpl; try reflexivity.
    + rewrite !to_byte_mod16, Z.add_0_r. reflexivity.
    + rewrite !to_byte_mod16. specialize (Hb 0). rewrite Z.add_0_r in Hb. apply Hb. lia.
  - simpl ram. change (Z.succ 0) with (1 + 0). rewrite <- (fmap_add_seqZ 1 0).
    change (map ?f ?l) with (f <$> l). rewrite <- list_fmap_compose.
    symmetry. apply list_fmap_ext. intros _ k _. simpl. f_equal. f_equal. lia.
Qed.

Lemma read_ram_head t :
  pin_ri t = false ->
  let t2 := wait_clock_high (wait_clock_high t) in
  pin_ri t2 = false /\ ram t2 = ram t.
Proof.
  intros Hri. destruct t as [r m c mi ri ro bo bp]. simpl in Hri. subst ri.
  destruct c; target_simpl; split; reflexivity.
Qed.

Lemma read_ram_tail t :
  let t' := SET_RO_LOW (wait_clock_low t) in
  ram t' = ram t /\ pin_ri t' = pin_ri t.
Proof.
  destruct t as [r m c mi ri ro bo bp].
  destruct c; target_simpl; split; reflexivity.
Qed.

(** With RI low, [read_ram] returns the cells addressed and leaves the RAM
    and RI as they were. *)
Lemma read_ram_spec t start n :
  pin_ri t = false ->
  (forall k, 0 <= k < Z.of_nat n -> is_byte (cell (ram t) ((start + k) mod 16))) ->
  let r := read_ram t start (Z.of_nat n) in
  r.2 = map (fun k => cell (ram t) ((start + k) mod 16)) (seqZ 0 (Z.of_nat n))
  /\ ram r.1 = ram t /\ pin_ri r.1 = false.
Proof.
  intros Hri Hb. cbv zeta. unfold read_ram, wait_clock_info_high. rewrite Nat2Z.id.
  destruct (read_ram_head t Hri) as [Hri2 Hram2]. cbv zeta in Hri2, Hram2.
  assert (Hmod : forall k, (to_byte start + 0 + k) mod 16 = (start + k) mod 16).
  { intros k. rewrite Z.add_0_r.
    rewrite <- (Z.add_mod_idemp_l (to_byte start)), to_byte_mod16 by lia.
    apply Z.add_mod_idemp_l. lia. }
  destruct (read_ram_loop_spec n (to_byte start) 0 _ Hri2) as (H1 & H2 & H3).
  { intros k Hk. rewrite Hram2, Hmod. apply Hb, Hk. }
  destruct (read_ram_tail (read_ram_loop n (to_byte start) 0
              (wait_clock_high (wait_clock_high t))).1) as [T1 T2].
  cbv zeta in T1, T2. cbn [fst snd].
  split; [|split; [rewrite T1, H2; exact Hram2 | rewrite T2; exact H3]].
  rewrite H1, Hram2. change (map ?f ?l) with (f <$> l).
  apply list_fmap_ext. intros _ k _. rewrite Hmod. reflexivity.
Qed.

(** [write_ram] of one byte with RI low changes the addressed cell only. *)
Lemma write_ram_one t b start :
  pin_ri t = false ->
  let t' := write_ram t [b] start in
  ram t' = <[Z.to_nat (start mod 16) := to_byte b]> (ram t) /\ pin_ri t' = false.
Proof.
  intros Hri. destruct (write_ram_spec t [b] start) as [H1 H2]. cbv zeta in *.
  split; [|exact H2]. rewrite H1. simpl store_bytes. rewrite to_byte_mod16.
  destruct t as [r m c mi ri ro bo bp]. simpl in Hri. subst ri.
  destruct c; target_simpl; reflexivity.
Qed.

(** Writing at most 16 bytes and reading the same range back returns them,
    whatever the start address and the state of the pins before. *)
Lemma write_read_ram t data start :
  length (ram t) = 16%nat -> (length data <= 16)%nat -> Forall is_byte data ->
  (read_ram (write_ram t data start) start (Z.of_nat (length data))).2 = data.
Proof.
  intros Hr Hl Hd.
  destruct (write_ram_spec t data start) as [Hram Hri]. cbv zeta in Hram, Hri.
  set (t1 := write_ram t data start) in *.
  assert (Hr0 : length (ram (wait_clock_high t)) = 16%nat).
  { destruct t as [r m c mi ri ro bo bp].
    simpl in Hr. destruct c, ri; target_simpl; rewrite ?length_insert; exact Hr. }
  assert (Hcell : forall k, 0 <= k < Z.of_nat (length data) ->
            cell (ram t1) ((to_byte start + k) mod 16) = cell data k).
  { intros k Hk. rewrite Hram, store_bytes_cell by (assumption || lia).
    apply to_byte_id. unfold cell.
    destruct (data !! Z.to_nat k) as [d|] eqn:E; [|simpl; unfold is_byte; lia].
    simpl. rewrite Forall_forall in Hd. apply Hd. eapply list_elem_of_lookup_2, E. }
  unfold read_ram, wait_clock_info_high. cbn [snd].
  set (t2 := wait_clock_high (wait_clock_high t1)).
  assert (H2 : pin_ri t2 = false /\ ram t2 = ram t1).
  { subst t2. destruct t1 as [r m c mi ri ro bo bp]. simpl in Hri. subst ri.
    destruct c; target_simpl; split; reflexivity. }
  destruct H2 as [Hri2 Hram2].
  rewrite Nat2Z.id.
  destruct (read_ram_loop_spec (length data) (to_byte start) 0 t2 Hri2) as (Hres & _).
  { intros k Hk. rewrite Z.add_0_r, Hram2, Hcell by lia.
    unfold cell. destruct (data !! Z.to_nat k) as [d|] eqn:E; [|simpl; unfold is_byte; lia].
    simpl. rewrite Forall_forall in Hd. apply Hd. eapply list_elem_of_lookup_2, E. }
  rewrite Hres. apply list_eq. intros j.
  change (map ?f ?l) with (f <$> l). rewrite list_lookup_fmap.
  destruct (decide (j < length data)%nat) as [Hj|Hj].
  - rewrite lookup_seqZ_lt by lia. simpl.
    rewrite Z.add_0_r, Hram2, Z.add_0_l, Hcell by lia.
    unfold cell. rewrite Nat2Z.id.
    destruct (lookup_lt_is_Some_2 data j Hj) as [d E]. rewrite E. reflexivity.
  - rewrite lookup_seqZ_ge by lia. simpl.
    symmetry. apply lookup_ge_None. lia.
Qed.

(** C1.  For every start address and byte sequence that fits in the 16-byte
    RAM of the target, [write_ram] followed by [read_ram] over the same
    address range returns exactly the bytes written. *)
Theorem ram_write_read_roundtrip (t : Target.target) (data : list Z) (start : Z) :
  length (Target.ram t) = 16%nat ->
  Forall is_byte data ->
  0 <= start -> start + Z.of_nat (length data) <= 16 ->
  (Target.read_ram (Target.write_ram t data start) start (Z.of_nat (length data))).2 = data.
Proof.
  intros Hr Hd Hs Hfit. apply write_read_ram; [exact Hr | lia | exact Hd].
Qed.

End Transfer.

Lemma ram_write_read_roundtrip_witness :
  (0 <= 3 /\ 3 + Z.of_nat (length [0x55; 0xE0; 0xFF]) <= 16)
  /\ (Target.read_ram (Target.write_ram blank_target [0x55; 0xE0; 0xFF] 3) 3
        (Z.of_nat (length [0x55; 0xE0; 0xFF]))).2 = [0x55; 0xE0; 0xFF].
Proof.
  split; [simpl; lia|].
  apply (ram_write_read_roundtrip blank_target [0x55; 0xE0; 0xFF] 3).
  - reflexivity.
  - repeat constructor; unfold is_byte; lia.
  - lia.
  - simpl. lia.
Defined.

(** ** The breakpoint set *)

Section BreakpointSet.
Import Breakpoints Eeprom.

Lemma cell_lookup (l : list Z) k :
  0 <= k < Z.of_nat (length l) -> l !! Z.to_nat k = Some (cell l k).
Proof.
  intros Hk. unfold cell.
  destruct (lookup_lt_is_Some_2 l (Z.to_nat k)) as [x E]; [lia|].
  rewrite E. reflexivity.
Qed.

Lemma active_elem s a :
  0 <= num_breakpoints s <= Z.of_nat (length (breakpoints s)) ->
  a ∈ active s <-> exists k, 0 <= k < num_breakpoints s /\ cell (breakpoints s) k = a.
Proof.
  intros Hn. unfold active. rewrite elem_of_take. split.
  - intros (i & Hi & Hlt). exists (Z.of_nat i). split; [lia|].
    unfold cell. rewrite Nat2Z.id, Hi. reflexivity.
  - intros (k & Hk & <-). exists (Z.to_nat k). split; [|lia].
    apply cell_lookup. lia.
Qed.

Lemma bp_search_spec n j a s :
  0 <= j -> Z.of_nat n = num_breakpoints s - j ->
  let r := bp_search n j a s in
  j <= r <= num_breakpoints s
  /\ (r < num_breakpoints s -> cell (breakpoints s) r = a)
  /\ (forall k, j <= k < r -> cell (breakpoints s) k <> a).
Proof.
  revert j. induction n as [|n IH]; intros j Hj Hn; cbv zeta; simpl.
  - repeat split; try lia.
  - destruct (Z.ltb_spec j (num_breakpoints s)); [|lia].
    destruct (Z.eqb_spec (cell (breakpoints s) j) a) as [He|He].
    + split; [lia|]. split; [intros _; exact He | intros k Hk; lia].
    + destruct (IH (j + 1)) as (H1 & H2 & H3); [lia | lia |].
      split; [lia|]. split; [exact H2|].
      intros k Hk. destruct (decide (k = j)) as [->|]; [exact He|]. apply H3. lia.
Qed.

Lemma bp_find_spec a s :
  0 <= num_breakpoints s <= Z.of_nat (length (breakpoints s)) ->
  let j := bp_find a s in
  0 <= j <= num_breakpoints s
  /\ (j < num_breakpoints s -> cell (breakpoints s) j = a /\ a ∈ active s)
  /\ (j = num_breakpoints s -> a ∉ active s).
Proof.
  intros Hn. cbv zeta. unfold bp_find.
  destruct (bp_search_spec (Z.to_nat (num_breakpoints s)) 0 a s) as (H1 & H2 & H3); [lia|lia|].
  cbv zeta in H1, H2, H3. split; [exact H1|]. split.
  - intros Hlt. split; [apply H2, Hlt|]. apply active_elem; [exact Hn|].
    eexists. split; [|apply H2, Hlt]. lia.
  - intros He Hin. apply active_elem in Hin; [|exact Hn].
    destruct Hin as (k & Hk & Hc). apply (H3 k); [lia | exact Hc].
Qed.

Lemma bp_find_in a s :
  0 <= num_breakpoints s <= Z.of_nat (length (breakpoints s)) ->
  a ∈ active s -> bp_find a s < num_breakpoints s.
Proof.
  intros Hn Hin. destruct (bp_find_spec a s Hn) as (H1 & _ & H3). cbv zeta in *.
  destruct (decide (bp_find a s = num_breakpoints s)) as [E|]; [|lia].
  exfalso. exact (H3 E Hin).
Qed.

Lemma bp_find_notin a s :
  0 <= num_breakpoints s <= Z.of_nat (length (breakpoints s)) ->
  a ∉ active s -> bp_find a s = num_breakpoints s.
Proof.
  intros Hn Hin. destruct (bp_find_spec a s Hn) as (H1 & H2 & _). cbv zeta in *.
  destruct (decide (bp_find a s < num_breakpoints s)) as [E|]; [|lia].
  exfalso. apply Hin, H2, E.
Qed.

Lemma bp_ok_bounds s :
  bp_ok s -> 0 <= num_breakpoints s <= Z.of_nat (length (breakpoints s)).
Proof. intros (Hn & Hl & _). unfold MAX_BREAKPOINTS in Hn. lia. Qed.

(** A value already in the set is refused and nothing changes. *)
Lemma add_breakpoint_exists a m :
  bp_ok (bps m) -> a ∈ active (bps m) ->
  add_breakpoint a m = (m, ("Breakpoint already exists." ++ CRLF)%string).
Proof.
  intros Hok Hin. unfold add_breakpoint.
  pose proof (bp_find_in a _ (bp_ok_bounds _ Hok) Hin).
  destruct (Z.geb_spec (bp_find a (bps m)) (num_breakpoints (bps m))); [lia|reflexivity].
Qed.

(** A new value is refused when ten are set, and nothing changes. *)
Lemma add_breakpoint_full a m :
  bp_ok (bps m) -> a ∉ active (bps m) -> num_breakpoints (bps m) = 10 ->
  add_breakpoint a m = (m, ("Too many breakpoints." ++ CRLF)%string).
Proof.
  intros Hok Hin Hn. unfold add_breakpoint.
  rewrite (bp_find_notin a _ (bp_ok_bounds _ Hok) Hin), Hn. reflexivity.
Qed.

(** A new value goes to the end of the set when there is room. *)
Lemma add_breakpoint_new a m :
  bp_ok (bps m) -> a ∉ active (bps m) -> num_breakpoints (bps m) < 10 ->
  bps (add_breakpoint a m).1
  = BP (num_breakpoints (bps m) + 1)
       (<[Z.to_nat (num_breakpoints (bps m)) := a]> (breakpoints (bps m)))
  /\ active (bps (add_breakpoint a m).1) = active (bps m) ++ [a].
Proof.
  intros Hok Hin Hn. pose proof Hok as (Hb & Hl & Hnd).
  unfold add_breakpoint.
  rewrite (bp_find_notin a _ (bp_ok_bounds _ Hok) Hin).
  destruct (Z.geb_spec (num_breakpoints (bps m)) (num_breakpoints (bps m))); [|lia].
  unfold MAX_BREAKPOINTS.
  destruct (Z.ltb_spec (num_breakpoints (bps m)) 10); [|lia].
  cbn [fst bps]. rewrite to_byte_id by (unfold is_byte; lia).
  split; [reflexivity|]. unfold active. cbn [num_breakpoints breakpoints].
  replace (Z.to_nat (num_breakpoints (bps m) + 1))
    with (S (Z.to_nat (num_breakpoints (bps m)))) by lia.
  rewrite (take_S_r _ _ a) by (apply list_lookup_insert_eq; lia).
  rewrite take_insert_ge by lia. reflexivity.
Qed.

(** A value that is not in the set cannot be removed; nothing changes. *)
Lemma remove_breakpoint_missing a m :
  bp_ok (bps m) -> a ∉ active (bps m) ->
  remove_breakpoint a m = (m, ("Breakpoint not found." ++ CRLF)%string).
Proof.
  intros Hok Hin. unfold remove_breakpoint.
  rewrite (bp_find_notin a _ (bp_ok_bounds _ Hok) Hin).
  rewrite Z.ltb_irrefl. reflexivity.
Qed.

Lemma add_breakpoint_ok a m : bp_ok (bps m) -> bp_ok (bps (add_breakpoint a m).1).
Proof.
  intros Hok. pose proof Hok as (Hb & Hl & Hnd). unfold MAX_BREAKPOINTS in Hb.
  destruct (decide (a ∈ active (bps m))) as [Hin|Hin].
  { rewrite add_breakpoint_exists by assumption. exact Hok. }
  destruct (decide (num_breakpoints (bps m) = 10)) as [Hn|Hn].
  { rewrite add_breakpoint_full by assumption. exact Hok. }
  destruct (add_breakpoint_new a m Hok Hin) as [Hs Ha]; [lia|].
  unfold bp_ok. rewrite Ha, Hs. cbn [num_breakpoints breakpoints].
  unfold MAX_BREAKPOINTS. rewrite length_insert.
  split; [lia|]. split; [exact Hl|].
  apply NoDup_app. split; [exact Hnd|]. split; [|apply NoDup_singleton].
  intros x Hx Hx'. apply list_elem_of_singleton in Hx'. subst x. exact (Hin Hx).
Qed.

Lemma remove_breakpoint_ok a m : bp_ok (bps m) -> bp_ok (bps (remove_breakpoint a m).1).
Proof.
  intros Hok. pose proof Hok as (Hb & Hl & Hnd). unfold MAX_BREAKPOINTS in Hb.
  destruct (decide (a ∈ active (bps m))) as [Hin|Hin];
    [|rewrite remove_breakpoint_missing by assumption; exact Hok].
  pose proof (bp_find_in a _ (bp_ok_bounds _ Hok) Hin) as Hj.
  destruct (bp_find_spec a (bps m) (bp_ok_bounds _ Hok)) as (Hj0 & _ & _). cbv zeta in Hj0.
  unfold remove_breakpoint.
  destruct (Z.ltb_spec (bp_find a (bps m)) (num_breakpoints (bps m))); [|lia].
  cbn [fst bps]. set (j := bp_find a (bps m)) in *.
  rewrite to_byte_id by (unfold is_byte; lia).
  set (n' := num_breakpoints (bps m) - 1).
  unfold bp_ok, active. cbn [num_breakpoints breakpoints]. unfold MAX_BREAKPOINTS.
  rewrite length_insert. split; [lia|]. split; [exact Hl|].
  apply NoDup_alt. intros i1 i2 x H1 H2.
  rewrite lookup_take, list_lookup_insert in H1, H2.
  assert (Hold : forall i i' y, (i < Z.to_nat (num_breakpoints (bps m)))%nat ->
            (i' < Z.to_nat (num_breakpoints (bps m)))%nat ->
            breakpoints (bps m) !! i = Some y -> breakpoints (bps m) !! i' = Some y -> i = i').
  { intros i i' y Hi Hi' E E'. apply (NoDup_lookup (active (bps m)) i i' y Hnd);
      unfold active; rewrite lookup_take_lt by lia; assumption. }
  assert (Hlast : breakpoints (bps m) !! Z.to_nat n' = Some (cell (breakpoints (bps m)) n')).
  { apply cell_lookup. lia. }
  repeat case_decide; try discriminate; simplify_eq; try lia.
  - exfalso. enough (i1 = Z.to_nat n') by lia. eapply Hold; eauto; lia.
  - exfalso. enough (i2 = Z.to_nat n') by lia. eapply Hold; eauto; lia.
  - eapply Hold; eauto; lia.
Qed.

Lemma remove_all_breakpoints_ok m :
  bp_ok (bps m) -> bp_ok (bps (remove_all_breakpoints m).1).
Proof.
  intros (Hb & Hl & Hnd). unfold remove_all_breakpoints, bp_ok, active, MAX_BREAKPOINTS.
  cbn [fst bps num_breakpoints breakpoints]. split; [lia|]. split; [exact Hl|].
  simpl. apply NoDup_nil. exact I.
Qed.

Lemma exec_ok m c : bp_ok (bps m) -> bp_ok (bps (exec m c)).
Proof.
  intros Hok. destruct c; simpl.
  - apply add_breakpoint_ok, Hok.
  - apply remove_breakpoint_ok, Hok.
  - apply remove_all_breakpoints_ok, Hok.
Qed.

Lemma power_on_ok : bp_ok (bps power_on).
Proof.
  unfold bp_ok, power_on, active, MAX_BREAKPOINTS. simpl.
  split; [lia|]. split; [reflexivity|]. apply NoDup_nil. exact I.
Qed.

(** C5.  Whatever sequence of add, remove and remove-all commands is
    applied to a breakpoint set with at most ten distinct entries, the set
    keeps at most ten entries and no duplicates; in the state reached, adding
    a further value to a full set is refused with "Too many breakpoints.",
    adding a value of the set is refused with "Breakpoint already exists." and
    removing a value outside the set reports "Breakpoint not found.", each
    leaving the set and the store as they were. *)
Theorem breakpoint_set_invariant (m0 : Breakpoints.monitor_state) (cmds : list bp_command) :
  bp_ok (Breakpoints.bps m0) ->
  let m := foldl exec m0 cmds in
  (0 <= Breakpoints.num_breakpoints (Breakpoints.bps m) <= 10
   /\ (length (Breakpoints.active (Breakpoints.bps m)) <= 10)%nat
   /\ NoDup (Breakpoints.active (Breakpoints.bps m)))
  /\ (forall a, a ∉ Breakpoints.active (Breakpoints.bps m) ->
        length (Breakpoints.active (Breakpoints.bps m)) = 10%nat ->
        Breakpoints.add_breakpoint a m = (m, ("Too many breakpoints." ++ CRLF)%string))
  /\ (forall a, a ∈ Breakpoints.active (Breakpoints.bps m) ->
        Breakpoints.add_breakpoint a m = (m, ("Breakpoint already exists." ++ CRLF)%string))
  /\ (forall a, a ∉ Breakpoints.active (Breakpoints.bps m) ->
        Breakpoints.remove_breakpoint a m = (m, ("Breakpoint not found." ++ CRLF)%string)).
Proof.
  intros Hok0. cbv zeta.
  assert (Hok : bp_ok (bps (foldl exec m0 cmds))).
  { revert m0 Hok0. induction cmds as [|c cmds IH]; intros m0 Hok0; simpl; [exact Hok0|].
    apply IH, exec_ok, Hok0. }
  set (m := foldl exec m0 cmds) in *.
  pose proof Hok as (Hb & Hl & Hnd). unfold MAX_BREAKPOINTS in Hb.
  assert (Hlen : length (active (bps m)) = Z.to_nat (num_breakpoints (bps m))).
  { unfold active. rewrite length_take. lia. }
  split; [split; [exact Hb|split; [lia|exact Hnd]]|].
  split; [|split].
  - intros a Hin Hfull. apply add_breakpoint_full; [exact Hok|exact Hin|lia].
  - intros a Hin. apply add_breakpoint_exists; assumption.
  - intros a Hin. apply remove_breakpoint_missing; assumption.
Qed.

(** The command lines [b ...] and [B ...] do nothing but these mutations. *)
Lemma monitor_b_ok buffer len i m :
  bp_ok (bps m) -> bp_ok (bps (monitor_b buffer len i m).1).
Proof.
  intros Hok. unfold monitor_b.
  destruct (parse_arg _ _ _ _ _) as [[res i'] a]. destruct res; [|exact Hok].
  apply add_breakpoint_ok, Hok.
Qed.

Lemma monitor_B_ok buffer len i m :
  bp_ok (bps m) -> bp_ok (bps (monitor_B buffer len i m).1).
Proof.
  intros Hok. unfold monitor_B.
  destruct (parse_arg _ _ _ _ _) as [[res i'] a]. destruct res.
  - apply remove_breakpoint_ok, Hok.
  - destruct (_ && _); [apply remove_all_breakpoints_ok, Hok | exact Hok].
Qed.

(** ** Persistence of the breakpoint set *)

Lemma EEPROM_read_write e i v j :
  EEPROM_read (EEPROM_write e i v) j
  = if decide (i = j) then to_byte v else EEPROM_read e j.
Proof.
  unfold EEPROM_read, EEPROM_write. rewrite lookup_insert.
  case_decide; reflexivity.
Qed.

Lemma apply_writes_app e ws1 ws2 :
  apply_writes e (ws1 ++ ws2) = apply_writes (apply_writes e ws1) ws2.
Proof. unfold apply_writes. apply foldl_app. Qed.

(** The store after the value writes of a set with [n] entries. *)
Lemma read_value_writes (g : Z -> Z) e (n : nat) idx :
  EEPROM_read (apply_writes e (map (fun i => (1021 - i, g i)) (seqZ 0 (Z.of_nat n)))) idx
  = if decide (1021 - Z.of_nat n < idx <= 1021) then to_byte (g (1021 - idx))
    else EEPROM_read e idx.
Proof.
  induction n as [|n IH].
  { simpl. case_decide; [lia|reflexivity]. }
  rewrite seqZ_S, map_app, apply_writes_app. simpl map.
  unfold apply_writes at 1. simpl foldl. rewrite EEPROM_read_write, IH.
  repeat case_decide; try lia; try reflexivity.
  f_equal. f_equal. lia.
Qed.

Lemma save_breakpoints_stored s e :
  0 <= num_breakpoints s <= 10 -> bp_bytes s -> stored (save_breakpoints s e) s.
Proof.
  intros Hn Hb. unfold save_breakpoints, save_breakpoints_writes.
  rewrite apply_writes_app. unfold apply_writes at 1. simpl foldl.
  replace (seqZ 0 (num_breakpoints s))
    with (seqZ 0 (Z.of_nat (Z.to_nat (num_breakpoints s))))
    by (rewrite Z2Nat.id by lia; reflexivity).
  split.
  - rewrite EEPROM_read_write. case_decide; [|lia].
    apply to_byte_id. unfold is_byte. lia.
  - intros i Hi. rewrite EEPROM_read_write. case_decide; [lia|].
    rewrite read_value_writes. case_decide; [|lia].
    replace (1021 - (1021 - i)) with i by lia. apply to_byte_id, Hb, Hi.
Qed.

Lemma load_lookup e s0 (n : nat) k :
  (n <= length (breakpoints s0))%nat ->
  foldl (fun b i => <[Z.to_nat i := EEPROM_read e (1021 - i)]> b)
        (breakpoints s0) (seqZ 0 (Z.of_nat n)) !! k
  = if decide (k < n)%nat then Some (EEPROM_read e (1021 - Z.of_nat k))
    else breakpoints s0 !! k.
Proof.
  induction n as [|n IH]; intros Hn.
  { change (Z.of_nat 0) with 0. rewrite seqZ_nil by lia. cbn [foldl].
    case_decide; [lia|reflexivity]. }
  rewrite seqZ_S, foldl_app. simpl foldl.
  rewrite list_lookup_insert, IH by lia.
  assert (Hlen : length (foldl (fun b i => <[Z.to_nat i := EEPROM_read e (1021 - i)]> b)
                   (breakpoints s0) (seqZ 0 (Z.of_nat n))) = length (breakpoints s0)).
  { clear. induction n as [|n IH]; [reflexivity|].
    rewrite seqZ_S, foldl_app. simpl foldl. rewrite length_insert. exact IH. }
  rewrite Hlen.
  repeat case_decide; try lia; try reflexivity.
  f_equal. f_equal. lia.
Qed.

(** [load_breakpoints] recovers the set that the store holds. *)
Lemma load_breakpoints_stored e s s0 :
  0 <= num_breakpoints s <= 10 -> length (breakpoints s) = 10%nat ->
  length (breakpoints s0) = 10%nat -> stored e s ->
  active (load_breakpoints s0 e) = active s.
Proof.
  intros Hn Hl Hl0 [Hc Hv]. unfold load_breakpoints. rewrite Hc. unfold MAX_BREAKPOINTS.
  destruct (Z.leb_spec (num_breakpoints s) 10); [|lia].
  unfold active. cbn [num_breakpoints breakpoints].
  apply list_eq. intros k. rewrite !lookup_take.
  case_decide; [|reflexivity].
  replace (seqZ 0 (num_breakpoints s))
    with (seqZ 0 (Z.of_nat (Z.to_nat (num_breakpoints s))))
    by (rewrite Z2Nat.id by lia; reflexivity).
  rewrite load_lookup by lia. case_decide; [|lia].
  rewrite Hv by lia. rewrite <- (Nat2Z.id k) at 2. symmetry. apply cell_lookup. lia.
Qed.

(** A write of a value cell that agrees with set [s] keeps [s] stored. *)
Lemma stored_write e s idx v :
  idx <> 1022 ->
  (forall i, 0 <= i < num_breakpoints s -> idx = 1021 - i -> to_byte v = cell (breakpoints s) i) ->
  stored e s -> stored (EEPROM_write e idx v) s.
Proof.
  intros Hidx Hv [Hc Hs]. split.
  - rewrite EEPROM_read_write. case_decide; [lia|exact Hc].
  - intros i Hi. rewrite EEPROM_read_write. case_decide; [|apply Hs, Hi].
    apply Hv; [exact Hi|lia].
Qed.

Lemma stored_writes e s ws :
  Forall (fun w : Z * Z => w.1 <> 1022 /\
            forall i, 0 <= i < num_breakpoints s -> w.1 = 1021 - i ->
                      to_byte w.2 = cell (breakpoints s) i) ws ->
  stored e s -> stored (apply_writes e ws) s.
Proof.
  revert e. induction ws as [|w ws IH]; intros e Hws Hs; [exact Hs|].
  apply Forall_cons in Hws as [[H1 H2] Hws].
  unfold apply_writes. simpl. apply IH; [exact Hws|].
  apply stored_write; assumption.
Qed.

Lemma prefix_snoc_cases {A} (ws l : list A) c :
  ws `prefix_of` l ++ [c] -> ws = l ++ [c] \/ ws `prefix_of` l.
Proof.
  intros [k Hk]. destruct k as [|x k _] using rev_ind.
  - left. rewrite app_nil_r in Hk. symmetry. exact Hk.
  - right. rewrite app_assoc in Hk. apply app_inj_tail in Hk as [Hk _].
    exists k. exact Hk.
Qed.

(** When the new set [s'] keeps the entries of the old set [s] in place,
    the store holds [s] until the count is written, and [s'] from then on. *)
Lemma save_prefix_extends e s s' ws :
  0 <= num_breakpoints s' <= 10 -> bp_bytes s' -> bp_bytes s ->
  (forall i, 0 <= i < num_breakpoints s -> 0 <= i < num_breakpoints s' ->
             cell (breakpoints s') i = cell (breakpoints s) i) ->
  stored e s ->
  ws `prefix_of` save_breakpoints_writes s' ->
  stored (apply_writes e ws) s \/ stored (apply_writes e ws) s'.
Proof.
  intros Hn' Hb' Hb Hext Hs Hpre.
  apply prefix_snoc_cases in Hpre as [->|Hpre].
  - right. apply save_breakpoints_stored; assumption.
  - left. apply stored_writes; [|exact Hs].
    apply Forall_forall. intros w Hw.
    destruct Hpre as [k Hk].
    assert (Hin : w ∈ map (fun i => (1021 - i, cell (breakpoints s') i))
                         (seqZ 0 (num_breakpoints s'))).
    { rewrite Hk. apply elem_of_app. left. exact Hw. }
    apply list_elem_of_fmap in Hin as (i & -> & Hi). apply elem_of_seqZ in Hi.
    cbn [fst snd]. split; [lia|].
    intros i' Hi' He. assert (i' = i) by lia. subst i'.
    rewrite Hext by lia. apply to_byte_id, Hb, Hi'.
Qed.

Lemma remove_breakpoint_found a m :
  bp_ok (bps m) -> a ∈ active (bps m) ->
  0 <= bp_find a (bps m) < num_breakpoints (bps m)
  /\ bps (remove_breakpoint a m).1
     = BP (num_breakpoints (bps m) - 1)
          (<[Z.to_nat (bp_find a (bps m))
             := cell (breakpoints (bps m)) (num_breakpoints (bps m) - 1)]>
             (breakpoints (bps m))).
Proof.
  intros Hok Hin. pose proof Hok as (Hb & _). unfold MAX_BREAKPOINTS in Hb.
  pose proof (bp_find_in a _ (bp_ok_bounds _ Hok) Hin) as Hj.
  destruct (bp_find_spec a (bps m) (bp_ok_bounds _ Hok)) as (Hj0 & _ & _). cbv zeta in Hj0.
  split; [lia|]. unfold remove_breakpoint.
  destruct (Z.ltb_spec (bp_find a (bps m)) (num_breakpoints (bps m))); [|lia].
  cbn [fst bps]. rewrite to_byte_id by (unfold is_byte; lia). reflexivity.
Qed.

(** A mutation either leaves everything as it is or saves the new set. *)
Lemma exec_saves m c :
  exec m c = m
  \/ exec m c = Mon (bps (exec m c)) (save_breakpoints (bps (exec m c)) (eeprom m)).
Proof.
  destruct c as [a|a|]; simpl.
  - unfold add_breakpoint. destruct (_ >=? _); [destruct (_ <? _)|];
      cbn [fst]; [right; reflexivity | left; reflexivity | left; reflexivity].
  - unfold remove_breakpoint. destruct (_ <? _); cbn [fst];
      [right; reflexivity | left; reflexivity].
  - right. reflexivity.
Qed.

Lemma exec_bytes m c :
  bp_ok (bps m) -> bp_bytes (bps m) -> byte_command c -> bp_bytes (bps (exec m c)).
Proof.
  intros Hok Hby Hc. pose proof Hok as (Hb & Hl & _). unfold MAX_BREAKPOINTS in Hb.
  destruct c as [a|a|]; simpl in *.
  - destruct (decide (a ∈ active (bps m))) as [Hin|Hin].
    { rewrite add_breakpoint_exists by assumption. exact Hby. }
    destruct (decide (num_breakpoints (bps m) = 10)) as [Hn|Hn].
    { rewrite add_breakpoint_full by assumption. exact Hby. }
    destruct (add_breakpoint_new a m Hok Hin) as [Hs _]; [lia|]. rewrite Hs.
    intros i Hi. cbn [num_breakpoints breakpoints] in *.
    destruct (decide (i = num_breakpoints (bps m))) as [->|Hne].
    + rewrite cell_insert_eq by lia. exact Hc.
    + rewrite cell_insert_ne by lia. apply Hby. lia.
  - destruct (decide (a ∈ active (bps m))) as [Hin|Hin];
      [|rewrite remove_breakpoint_missing by assumption; exact Hby].
    destruct (remove_breakpoint_found a m Hok Hin) as [Hj Hs]. rewrite Hs.
    intros i Hi. cbn [num_breakpoints breakpoints] in *.
    destruct (decide (i = bp_find a (bps m))) as [->|Hne].
    + rewrite cell_insert_eq by lia. apply Hby. lia.
    + rewrite cell_insert_ne by lia. apply Hby. lia.
  - intros i Hi. cbn [num_breakpoints] in Hi. lia.
Qed.

(** Adding and clearing leave the entries that stay where they were. *)
Lemma exec_extends m c i :
  bp_ok (bps m) -> growing_command c ->
  0 <= i < num_breakpoints (bps m) -> 0 <= i < num_breakpoints (bps (exec m c)) ->
  cell (breakpoints (bps (exec m c))) i = cell (breakpoints (bps m)) i.
Proof.
  intros Hok Hc Hi Hi'. pose proof Hok as (Hb & Hl & _). unfold MAX_BREAKPOINTS in Hb.
  destruct c as [a|a|]; simpl in *; [|contradiction|reflexivity].
  destruct (decide (a ∈ active (bps m))) as [Hin|Hin].
  { rewrite add_breakpoint_exists by assumption. reflexivity. }
  destruct (decide (num_breakpoints (bps m) = 10)) as [Hn|Hn].
  { rewrite add_breakpoint_full by assumption. reflexivity. }
  destruct (add_breakpoint_new a m Hok Hin) as [Hs _]; [lia|]. rewrite Hs.
  cbn [breakpoints]. apply cell_insert_ne; lia.
Qed.

(** C6 (amended).  A breakpoint mutation persists the set by writing the
    values (cells 1021 downwards) and then the count (cell 1022).  When the
    sequence is complete the store holds the new set and [load_breakpoints]
    returns it.  For an addition and for remove-all, after every prefix of
    the sequence the store still holds the old set or already the new one. *)
Theorem breakpoint_persistence (m : Breakpoints.monitor_state) (c : bp_command)
    (s0 : Breakpoints.bp_state) :
  bp_ok (Breakpoints.bps m) -> bp_bytes (Breakpoints.bps m) ->
  stored (Breakpoints.eeprom m) (Breakpoints.bps m) ->
  byte_command c -> length (Breakpoints.breakpoints s0) = 10%nat ->
  let m' := exec m c in
  (exists vals,
      Breakpoints.save_breakpoints_writes (Breakpoints.bps m')
      = vals ++ [(1022, Breakpoints.num_breakpoints (Breakpoints.bps m'))]
      /\ Forall (fun w : Z * Z => 1012 <= w.1 <= 1021) vals)
  /\ stored (Breakpoints.eeprom m') (Breakpoints.bps m')
  /\ Breakpoints.active (Breakpoints.load_breakpoints s0 (Breakpoints.eeprom m'))
     = Breakpoints.active (Breakpoints.bps m')
  /\ (growing_command c ->
      forall ws, ws `prefix_of` Breakpoints.save_breakpoints_writes (Breakpoints.bps m') ->
        let l := Breakpoints.active
                   (Breakpoints.load_breakpoints s0 (Breakpoints.apply_writes (Breakpoints.eeprom m) ws)) in
        l = Breakpoints.active (Breakpoints.bps m) \/ l = Breakpoints.active (Breakpoints.bps m')).
Proof.
  intros Hok Hby Hst Hc Hl0. cbv zeta.
  pose proof (exec_ok m c Hok) as Hok'.
  pose proof (exec_bytes m c Hok Hby Hc) as Hby'.
  pose proof Hok as (Hb & Hl & _). pose proof Hok' as (Hb' & Hl' & _).
  unfold MAX_BREAKPOINTS in Hb, Hb'.
  assert (Hst' : stored (eeprom (exec m c)) (bps (exec m c))).
  { destruct (exec_saves m c) as [E|E]; rewrite E; [exact Hst|].
    cbn [eeprom bps]. apply save_breakpoints_stored; assumption. }
  split; [|split; [exact Hst'|split]].
  - eexists. split; [reflexivity|].
    apply Forall_forall. intros w Hw.
    apply list_elem_of_fmap in Hw as (i & -> & Hi). apply elem_of_seqZ in Hi.
    cbn [fst]. lia.
  - apply load_breakpoints_stored; assumption.
  - intros Hg ws Hpre.
    destruct (save_prefix_extends (eeprom m) (bps m) (bps (exec m c)) ws) as [H|H];
      try assumption.
    + intros i Hi Hi'. apply exec_extends; assumption.
    + left. apply load_breakpoints_stored; assumption.
    + right. apply load_breakpoints_stored; assumption.
Qed.

Lemma two_breakpoints_ok : bp_ok (bps two_breakpoints).
Proof.
  unfold bp_ok, MAX_BREAKPOINTS. split; [simpl; lia|]. split; [reflexivity|].
  assert (active (bps two_breakpoints) = [5; 7]) as -> by (vm_compute; reflexivity).
  apply NoDup_ListNoDup.
  constructor; [simpl; intros [H|[]]; discriminate|].
  constructor; [simpl; tauto | constructor].
Qed.

Lemma two_breakpoints_bytes : bp_bytes (bps two_breakpoints).
Proof.
  intros i Hi. simpl in Hi.
  assert (i = 0 \/ i = 1) as [-> | ->] by lia; unfold is_byte, cell; simpl; lia.
Qed.

Lemma two_breakpoints_stored : stored (eeprom two_breakpoints) (bps two_breakpoints).
Proof.
  split; [vm_compute; reflexivity|]. intros i Hi. simpl in Hi.
  assert (i = 0 \/ i = 1) as [-> | ->] by lia; vm_compute; reflexivity.
Qed.

Lemma breakpoint_set_invariant_witness :
  bp_ok (bps power_on)
  /\ NoDup (active (bps (foldl exec power_on [CmdAdd 5; CmdAdd 7; CmdAdd 5; CmdRemove 5])))
  /\ remove_breakpoint 9 (foldl exec power_on [CmdAdd 5; CmdAdd 7; CmdAdd 5; CmdRemove 5])
     = (foldl exec power_on [CmdAdd 5; CmdAdd 7; CmdAdd 5; CmdRemove 5],
        ("Breakpoint not found." ++ CRLF)%string).
Proof.
  pose proof (breakpoint_set_invariant power_on
                [CmdAdd 5; CmdAdd 7; CmdAdd 5; CmdRemove 5] power_on_ok) as H.
  cbv zeta in H. destruct H as ((_ & _ & Hnd) & _ & _ & Hrm).
  split; [exact power_on_ok|]. split; [exact Hnd|].
  apply Hrm. vm_compute. intros Hin.
  apply list_elem_of_In in Hin. simpl in Hin. intuition discriminate.
Defined.

Lemma breakpoint_persistence_witness :
  stored (eeprom (exec two_breakpoints (CmdAdd 9))) (bps (exec two_breakpoints (CmdAdd 9)))
  /\ active (load_breakpoints no_breakpoints (eeprom (exec two_breakpoints (CmdAdd 9))))
     = active (bps (exec two_breakpoints (CmdAdd 9))).
Proof.
  pose proof (breakpoint_persistence two_breakpoints (CmdAdd 9) no_breakpoints
                two_breakpoints_ok two_breakpoints_bytes two_breakpoints_stored) as H.
  cbv zeta in H. destruct H as (_ & H1 & H2 & _).
  - unfold byte_command, is_byte. lia.
  - reflexivity.
  - split; [exact H1 | exact H2].
Defined.

(** C6 as stated fails: removing breakpoint 5 from the saved set {5, 7}
    writes the value cell first and the count last, and after the first
    write the store holds the set 7, 7, which is neither the old set nor the
    new one. *)
Lemma breakpoint_removal_not_atomic :
  stored (eeprom two_breakpoints) (bps two_breakpoints)
  /\ save_breakpoints_writes (bps (exec two_breakpoints (CmdRemove 5)))
     = [(1021, 7); (1022, 1)]
  /\ [(1021, 7)] `prefix_of` save_breakpoints_writes (bps (exec two_breakpoints (CmdRemove 5)))
  /\ active (load_breakpoints no_breakpoints (apply_writes (eeprom two_breakpoints) [(1021, 7)]))
     = [7; 7]
  /\ active (bps two_breakpoints) = [5; 7]
  /\ active (bps (exec two_breakpoints (CmdRemove 5))) = [7].
Proof.
  split; [exact two_breakpoints_stored|].
  split; [vm_compute; reflexivity|].
  split; [exists [(1022, 1)]; vm_compute; reflexivity|].
  split; [vm_compute; reflexivity|].
  split; vm_compute; reflexivity.
Qed.

End BreakpointSet.



(** ** The byte store *)

Section ByteStore.
Import Eeprom.

(** The guard of [write_eeprom] and [read_eeprom]. *)
Lemma write_eeprom_result e buffer internal start size :
  (write_eeprom e buffer internal start size).2
  = internal && (to_uint (start + size) <? 1008).
Proof. unfold write_eeprom. destruct (_ && _); reflexivity. Qed.

(** A refused write leaves the store as it was. *)
Lemma write_eeprom_refused e buffer internal start size :
  (write_eeprom e buffer internal start size).2 = false ->
  (write_eeprom e buffer internal start size).1 = e.
Proof. unfold write_eeprom. destruct (_ && _); [discriminate|reflexivity]. Qed.

(** C9.  The 63rd program slot, bytes 992..1007, lies inside the region
    below the 16 configuration bytes (992 + 16 = 1024 - 16), yet the store
    refuses to write or read it; slot 61 just below is accepted.  The store
    is unchanged by the refused write. *)
Theorem eeprom_last_slot_refused (e : gmap Z Z) (buffer : list Z) :
  992 + 16 <= 1024 - 16
  /\ Eeprom.write_eeprom e buffer true 992 16 = (e, false)
  /\ Eeprom.read_eeprom e true 992 16 = None
  /\ (Eeprom.write_eeprom e buffer true 976 16).2 = true.
Proof.
  split; [lia|]. split; [reflexivity|]. split; [reflexivity|].
  apply write_eeprom_result.
Qed.

End ByteStore.

(** ** Execution control *)

Section Execution.
Import Breakpoints Run.

Lemma breakpoint_hit_first s pc : breakpoint_hit true s pc = false.
Proof. reflexivity. Qed.

(** The unrolled comparison is a scan of the breakpoints in force. *)
Lemma breakpoint_hit_scan s pc :
  0 <= num_breakpoints s <= 10 -> length (breakpoints s) = 10%nat ->
  breakpoint_hit false s pc = existsb (Z.eqb pc) (active s).
Proof.
  intros Hn Hl. destruct s as [n b]. simpl in *.
  do 10 (destruct b as [|? b]; [discriminate Hl|]). destruct b; [|discriminate Hl].
  assert (Hin : n ∈ seqZ 0 11) by (apply elem_of_seqZ; lia).
  let l := eval vm_compute in (seqZ 0 11) in change (seqZ 0 11) with l in Hin.
  unfold breakpoint_hit, active, cell.
  repeat (apply elem_of_cons in Hin as [-> | Hin]; [reflexivity|]).
  apply elem_of_nil in Hin. contradiction.
Qed.





Lemma nop_sample_quiet : quiet no_breakpoints nop_sample.
Proof. split; [reflexivity|]. split; [reflexivity|]. discriminate. Qed.










End Execution.

(** ** The disassembler *)

Section Disassembler.
Import Target Asm.

Lemma byte_ind (P : Z -> Prop) :
  Forall P (seqZ 0 256) -> forall v, is_byte v -> P v.
Proof.
  intros H v Hv. rewrite Forall_forall in H. apply H.
  apply elem_of_seqZ. unfold is_byte in Hv. lia.
Qed.

Lemma append_assoc (x y z : string) : ((x ++ y) ++ z = x ++ (y ++ z))%string.
Proof.
  induction x as [|c x IH]; [reflexivity|].
  change (String c ((x ++ y) ++ z) = String c (x ++ (y ++ z)))%string.
  rewrite IH. reflexivity.
Qed.

Lemma append_nil_r (x : string) : (x ++ EmptyString = x)%string.
Proof.
  induction x as [|c x IH]; [reflexivity|].
  change (String c (x ++ EmptyString) = String c x)%string.
  rewrite IH. reflexivity.
Qed.

Lemma dec2hex_nibble v : 0 <= v < 16 -> dec2hex v = two_digits v.
Proof.
  intros Hv. unfold dec2hex, two_digits, text. cbn [map string_of_list_ascii].
  rewrite to_byte_id by (unfold is_byte; lia).
  rewrite Z.div_small, Z.mod_small by lia. reflexivity.
Qed.

Lemma cell_singleton x : cell [x] 0 = x.
Proof. reflexivity. Qed.

Lemma cell_singleton_head x (l : list Z) : cell (x :: l) 0 = x.
Proof. reflexivity. Qed.

Lemma land_15_range b : 0 <= Z.land b 15 < 16.
Proof. rewrite land_15. apply Z.mod_pos_bound. lia. Qed.

(** The instruction text: the mnemonic and, when the descriptor takes an
    argument, the low nibble as two hexadecimal digits. *)
Lemma instr_text_spec b :
  instr_text b
  = (mnemonic (opcode_at (Z.shiftr b 4))
     ++ (if has_arg (opcode_at (Z.shiftr b 4)) then two_digits (Z.land b 0x0f)
         else EmptyString))%string.
Proof.
  unfold instr_text. destruct (has_arg _); [|reflexivity].
  rewrite dec2hex_nibble by apply land_15_range. reflexivity.
Qed.

(** C8 (amended).  For the byte [b] in the RAM cell addressed,
    [disassemble] prints the address, the byte, the mnemonic selected by the
    high nibble and, when the descriptor has the has-argument flag, the low
    nibble as a two-digit hexadecimal number with a leading zero; the text
    for 0x55 is "LDI  05" and for 0xE0 it is "OUT  ". *)
Theorem disassemble_renders_argument (t : Target.target) (a b : Z) :
  target_ok t -> cell (Target.ram t) (a mod 16) = b ->
  (Asm.disassemble_step t a).2
  = (dec2hex a ++ ": " ++ dec2hex b ++ "   "
     ++ mnemonic (opcode_at (Z.shiftr b 4))
     ++ (if has_arg (opcode_at (Z.shiftr b 4)) then two_digits (Z.land b 0x0f)
         else EmptyString)
     ++ CRLF)%string
  /\ Asm.instr_text 0x55 = "LDI  05"%string
  /\ Asm.instr_text 0xE0 = "OUT  "%string.
Proof.
  intros (Hlen & Hby & Hri) Hb. split; [|split; reflexivity].
  unfold disassemble_step. cbn [snd].
  destruct (read_ram_spec t a 1 Hri) as (Hr & _).
  { intros k Hk. assert (k = 0) by lia. subst k. rewrite Z.add_0_r.
    rewrite Forall_forall in Hby. unfold cell.
    destruct (ram t !! Z.to_nat (a mod 16)) as [x|] eqn:E;
      [apply Hby; eapply list_elem_of_lookup_2, E | simpl; unfold is_byte; lia]. }
  cbv zeta in Hr. change (Z.of_nat 1) with 1 in Hr. rewrite Hr.
  change (seqZ 0 1) with [0]. cbn [map]. rewrite !cell_singleton.
  rewrite Z.add_0_r, Hb, instr_text_spec.
  destruct (has_arg _); rewrite ?append_assoc; reflexivity.
Qed.

Lemma disassemble_renders_argument_witness :
  cell (ram (write_ram blank_target [0x55; 0xE0] 0)) (0 mod 16) = 0x55
  /\ (disassemble_step (write_ram blank_target [0x55; 0xE0] 0) 0).2
     = ("00: 55   LDI  05" ++ CRLF)%string.
Proof.
  split; [vm_compute; reflexivity|].
  apply (disassemble_renders_argument (write_ram blank_target [0x55; 0xE0] 0) 0 0x55).
  - split; [vm_compute; reflexivity|]. split; [|vm_compute; reflexivity].
    assert (ram (write_ram blank_target [0x55; 0xE0] 0)
            = [0x55; 0xE0; 0; 0; 0; 0; 0; 0; 0; 0; 0; 0; 0; 0; 0; 0]) as ->
      by (vm_compute; reflexivity).
    repeat constructor; unfold is_byte; lia.
  - vm_compute. reflexivity.
Defined.

(** C8 as stated fails: the argument of 0x55 is printed with two digits. *)
Lemma disassemble_prints_two_digits :
  instr_text 0x55 = "LDI  05"%string
  /\ instr_text 0x55 <> "LDI  5"%string
  /\ (disassemble_step (write_ram blank_target [0x55; 0xE0] 0) 0).2
     = ("00: 55   LDI  05" ++ CRLF)%string.
Proof.
  split; [reflexivity|]. split; [vm_compute; discriminate|]. vm_compute. reflexivity.
Qed.

(** ** Disassembling and assembling again *)

Lemma write_byte_cell b st :
  is_byte b -> target_ok (hw st) -> 0 <= asm_a st ->
  cell (ram (hw (write_byte b st))) (asm_a st mod 16) = b
  /\ asm_a (write_byte b st) = asm_a st + 1.
Proof.
  intros Hb (Hlen & _ & Hri) Ha. split; [|reflexivity].
  unfold write_byte. cbn [hw set_a set_hw].
  destruct (write_ram_one (hw st) b (asm_a st) Hri) as [H _]. cbv zeta in H.
  rewrite H, cell_insert_eq; [apply to_byte_id, Hb|].
  pose proof (Z.mod_pos_bound (asm_a st) 16). lia.
Qed.

Lemma reassemble_all :
  Forall (fun b => reassembles b = true ->
                   forall st, assemble_line (reassemble_buffer b) st = write_byte b st)
         (seqZ 0 256).
Proof.
  let l := eval vm_compute in (seqZ 0 256) in change (seqZ 0 256) with l.
  repeat (apply Forall_cons; split;
          [intros H st; first [ discriminate H | cbv -[write_byte]; reflexivity ] |]).
  apply Forall_nil. exact I.
Qed.

(** C7 (amended).  For a byte whose descriptor takes an argument and whose
    low nibble is at most 9, and for a byte whose descriptor takes none and
    whose low nibble is 0, assembling the line made of a blank label field
    and the text the disassembler prints for the byte writes that same byte
    at the current address and advances the address by one. *)
Theorem reassemble_roundtrip (b : Z) (st : Asm.asm_state) :
  is_byte b -> reassembles b = true ->
  target_ok (Asm.hw st) -> 0 <= Asm.asm_a st ->
  Asm.assemble_line (reassemble_buffer b) st = Asm.write_byte b st
  /\ cell (Target.ram (Asm.hw (Asm.assemble_line (reassemble_buffer b) st)))
          (Asm.asm_a st mod 16) = b
  /\ Asm.asm_a (Asm.assemble_line (reassemble_buffer b) st) = Asm.asm_a st + 1.
Proof.
  intros Hb Hre Hok Ha.
  pose proof (byte_ind _ reassemble_all b Hb Hre st) as E.
  split; [exact E|]. rewrite E. apply write_byte_cell; assumption.
Qed.

Lemma blank_target_ok : target_ok blank_target.
Proof.
  split; [reflexivity|]. split; [|reflexivity].
  apply Forall_replicate. unfold is_byte. lia.
Qed.

Lemma reassemble_roundtrip_witness :
  reassembles 0x55 = true
  /\ cell (ram (hw (assemble_line (reassemble_buffer 0x55) asm_blank))) (0 mod 16) = 0x55.
Proof.
  split; [reflexivity|].
  apply (reassemble_roundtrip 0x55 asm_blank).
  - unfold is_byte. lia.
  - reflexivity.
  - exact blank_target_ok.
  - simpl. lia.
Defined.

(** C7 as stated fails: 0x5A is printed as "LDI  0a", which the assembler
    reads as the decimal number 0 followed by extra text, and the byte
    assembled is 0x50. *)
Lemma reassemble_hex_digit_lost :
  instr_text 0x5A = "LDI  0a"%string
  /\ has_arg (opcode_at (Z.shiftr 0x5A 4)) = true
  /\ cell (ram (hw (assemble_line (reassemble_buffer 0x5A) asm_blank))) 0 = 0x50
  /\ out (assemble_line (reassemble_buffer 0x5A) asm_blank)
     = ("Extra ignored: a " ++ CRLF)%string.
Proof. vm_compute. repeat split. Qed.

(** Without the blank label field the mnemonic is taken for a label and
    nothing is assembled. *)
Lemma reassemble_needs_blank_label_field :
  ram (hw (assemble_line (codes (instr_text 0x55) ++ [32]) asm_blank)) = ram blank_target
  /\ out (assemble_line (codes (instr_text 0x55) ++ [32]) asm_blank)
     = ("Invalid mnemonic: 05" ++ CRLF)%string.
Proof. vm_compute. repeat split. Qed.

End Disassembler.

(** ** Label lookup *)

Section Labels.
Import Target Asm.

Lemma cell_app_r (pre l : list Z) j :
  0 <= j -> cell (pre ++ l) (Z.of_nat (length pre) + j) = cell l j.
Proof.
  intros Hj. unfold cell. rewrite lookup_app_r by lia.
  replace (Z.to_nat (Z.of_nat (length pre) + j) - length pre)%nat with (Z.to_nat j) by lia.
  reflexivity.
Qed.

Lemma cell_drop (l : list Z) n j :
  0 <= n -> 0 <= j -> cell (drop (Z.to_nat n) l) j = cell l (n + j).
Proof.
  intros Hn Hj. unfold cell. rewrite lookup_drop.
  replace (Z.to_nat n + Z.to_nat j)%nat with (Z.to_nat (n + j)) by lia. reflexivity.
Qed.

Lemma pad3_take (d : list Z) n :
  1 <= n <= Z.of_nat (length d) ->
  pad3 (take (Z.to_nat n) d)
  = [cell d 0; if n >? 1 then cell d 1 else 32; if n >? 2 then cell d 2 else 32].
Proof.
  intros Hn. unfold pad3, cell.
  destruct (Z.to_nat n) as [|[|[|m]]] eqn:E; [lia| | |].
  - assert (n = 1) as -> by lia. destruct d as [|d0 d]; simpl in *; [lia|reflexivity].
  - assert (n = 2) as -> by lia.
    destruct d as [|d0 [|d1 d]]; simpl in *; try lia; reflexivity.
  - destruct (Z.gtb_spec n 1); [|lia]. destruct (Z.gtb_spec n 2); [|lia].
    destruct d as [|d0 [|d1 [|d2 d]]]; simpl in *; try lia; reflexivity.
Qed.

(** The key that [find_label] compares is the identifier cut or padded to
    three characters. *)
Lemma lbuf_pad3 buffer lbl llen :
  0 <= lbl -> 1 <= llen -> lbl + llen <= Z.of_nat (length buffer) ->
  lbuf buffer lbl llen = pad3 (slice buffer lbl (lbl + llen)).
Proof.
  intros Hl Hn Hb. unfold slice.
  replace (lbl + llen - lbl) with llen by lia.
  rewrite pad3_take by (rewrite length_drop; lia).
  rewrite !cell_drop by lia. unfold lbuf. rewrite Z.add_0_r. reflexivity.
Qed.

Lemma find_label_key buffer1 lbl1 llen1 buffer2 lbl2 llen2 st :
  lbuf buffer1 lbl1 llen1 = lbuf buffer2 lbl2 llen2 ->
  find_label buffer1 lbl1 llen1 st = find_label buffer2 lbl2 llen2 st.
Proof. intros E. unfold find_label. rewrite E. reflexivity. Qed.

(** A scan over characters that all satisfy [p] stops right after them. *)
Lemma scan_run p (x pre rest : list Z) n :
  Forall (fun c => p c = true) x ->
  (forall c rest', rest = c :: rest' -> p c = false) ->
  (length x <= n)%nat ->
  scan p (pre ++ x ++ rest) (Z.of_nat (length (pre ++ x ++ rest))) n (Z.of_nat (length pre))
  = Z.of_nat (length pre) + Z.of_nat (length x).
Proof.
  revert pre n. induction x as [|c x IH]; intros pre n Hx Hrest Hn.
  - simpl length. rewrite Z.add_0_r. destruct n as [|n]; [reflexivity|]. simpl scan.
    destruct rest as [|r rest].
    + rewrite !app_nil_r. rewrite Z.ltb_irrefl. reflexivity.
    + rewrite <- (Z.add_0_r (Z.of_nat (length pre))) at 2.
      rewrite (cell_app_r pre) by lia. simpl app. rewrite cell_singleton_head.
      rewrite (Hrest r rest eq_refl), andb_false_r. reflexivity.
  - destruct n as [|n]; [simpl in Hn; lia|]. simpl scan.
    apply Forall_cons in Hx as [Hc Hx].
    rewrite <- (Z.add_0_r (Z.of_nat (length pre))) at 2.
    rewrite (cell_app_r pre) by lia. simpl app. rewrite cell_singleton_head, Hc.
    destruct (Z.ltb_spec (Z.of_nat (length pre))
                (Z.of_nat (length (pre ++ c :: x ++ rest)))) as [_|Hge];
      [|rewrite length_app in Hge; simpl in Hge; lia].
    simpl andb. cbv iota.
    replace (pre ++ c :: x ++ rest) with ((pre ++ [c]) ++ x ++ rest)
      by (rewrite <- app_assoc; reflexivity).
    replace (Z.of_nat (length pre) + 1) with (Z.of_nat (length (pre ++ [c])))
      by (rewrite length_app; simpl; lia).
    rewrite IH; [|exact Hx|exact Hrest|simpl in Hn; lia].
    rewrite length_app. simpl. lia.
Qed.

Lemma skip_run p (x pre rest : list Z) :
  Forall (fun c => p c = true) x ->
  (forall c rest', rest = c :: rest' -> p c = false) ->
  skip p (pre ++ x ++ rest) (Z.of_nat (length (pre ++ x ++ rest))) (Z.of_nat (length pre))
  = Z.of_nat (length pre) + Z.of_nat (length x).
Proof.
  intros Hx Hrest. unfold skip. apply scan_run; [exact Hx|exact Hrest|].
  rewrite !length_app. lia.
Qed.

Lemma identifier_length x : identifier x -> (1 <= length x)%nat.
Proof. intros [(c & x' & -> & _) _]. simpl. lia. Qed.

Lemma slice_middle (pre x rest : list Z) :
  slice (pre ++ x ++ rest) (Z.of_nat (length pre))
        (Z.of_nat (length pre) + Z.of_nat (length x)) = x.
Proof.
  unfold slice. rewrite Nat2Z.id, drop_app_length.
  replace (Z.to_nat (Z.of_nat (length pre) + Z.of_nat (length x) - Z.of_nat (length pre)))
    with (length x) by lia.
  apply take_app_length.
Qed.

(** The lookup of an identifier in a line depends on its first three
    characters only. *)
Lemma find_label_ident (pre x rest : list Z) st :
  identifier x ->
  find_label (pre ++ x ++ rest) (Z.of_nat (length pre)) (Z.of_nat (length x)) st
  = find_label (pad3 x) 0 3 st.
Proof.
  intros Hx. pose proof (identifier_length x Hx).
  apply find_label_key. rewrite lbuf_pad3, slice_middle;
    [| lia | lia | rewrite !length_app; lia].
  unfold pad3. destruct x as [|x0 [|x1 [|x2 x]]]; simpl in *; [lia|reflexivity..].
Qed.

Lemma check_label_ident (x rest : list Z) st :
  identifier x -> ends_identifier rest ->
  check_label (x ++ rest) (Z.of_nat (length (x ++ rest))) st
  = match find_label (pad3 x) 0 3 st with
    | (None, st) => (println "Too many labels." st, Z.of_nat (length x), false)
    | (Some k, st) =>
        if loc (label_at (labels st) k) >=? 0 then
          (println "Duplicate label definition." st, Z.of_nat (length x), false)
        else (define_label k st, Z.of_nat (length x), true)
    end.
Proof.
  intros Hx Hrest. pose proof Hx as [(c & x' & -> & Hc) Hall].
  unfold check_label. simpl app at 1. rewrite cell_singleton_head, Hc.
  pose proof (skip_run isAlphaNumeric (c :: x') [] rest Hall Hrest) as Hs.
  simpl app in Hs. simpl length in Hs at 2. rewrite Z.add_0_l in Hs.
  change (Z.of_nat 0) with 0 in Hs. simpl app. rewrite Hs.
  pose proof (find_label_ident [] (c :: x') rest st Hx) as Hf.
  simpl app in Hf. change (Z.of_nat (length [])) with 0 in Hf. rewrite Hf.
  reflexivity.
Qed.

Lemma label_argument_ident (pre x rest : list Z) arg st :
  identifier x -> ends_identifier rest -> no_offset rest ->
  label_argument (pre ++ x ++ rest) (Z.of_nat (length (pre ++ x ++ rest)))
                 (Z.of_nat (length pre)) arg st
  = let r := label_reference (pad3 x) 0 3 arg st in
    (r.1.1, Z.of_nat (length pre) + Z.of_nat (length x), r.1.2, r.2).
Proof.
  intros Hx Hrest Hno. pose proof Hx as [_ Hall].
  unfold label_argument. rewrite (skip_run isAlphaNumeric x pre rest Hall Hrest).
  replace (Z.of_nat (length pre) + Z.of_nat (length x) - Z.of_nat (length pre))
    with (Z.of_nat (length x)) by lia.
  unfold label_reference. rewrite (find_label_ident pre x rest st Hx).
  assert (Hc : (cell (pre ++ x ++ rest) (Z.of_nat (length pre) + Z.of_nat (length x)) =? 43)
               || (cell (pre ++ x ++ rest) (Z.of_nat (length pre) + Z.of_nat (length x)) =? 45)
               = false).
  { rewrite cell_app_r by lia.
    replace (Z.of_nat (length x)) with (Z.of_nat (length x) + 0) by lia.
    rewrite cell_app_r by lia. destruct rest as [|r rest]; [reflexivity|].
    rewrite cell_singleton_head. destruct (Hno r rest eq_refl) as [H1 H2].
    apply orb_false_iff. split; apply Z.eqb_neq; assumption. }
  rewrite Hc. cbv zeta.
  destruct (find_label (pad3 x) 0 3 st) as [[k|] st']; [|reflexivity].
  destruct (loc (label_at (labels st') k) <? 0); [|reflexivity].
  destruct (forward_count (label_at (labels st') k) <? ASM_MAX_LABEL_FORWARD_REF);
    reflexivity.
Qed.

(** C10.  Two label identifiers that agree on their first three characters
    (shorter ones padded with spaces) are the same label to the assembler:
    [find_label] returns the same table entry and the same table for both,
    wherever they stand in their lines; a line that defines the one and a
    line that defines the other leave the same state, and so do a reference
    to the one and a reference to the other. *)
Theorem label_lookup_first_three (x1 x2 : list Z) (st : Asm.asm_state) :
  identifier x1 -> identifier x2 -> pad3 x1 = pad3 x2 ->
  (forall pre1 rest1 pre2 rest2,
      Asm.find_label (pre1 ++ x1 ++ rest1) (Z.of_nat (length pre1)) (Z.of_nat (length x1)) st
      = Asm.find_label (pre2 ++ x2 ++ rest2) (Z.of_nat (length pre2)) (Z.of_nat (length x2)) st)
  /\ (forall rest1 rest2, ends_identifier rest1 -> ends_identifier rest2 ->
        let r1 := Asm.check_label (x1 ++ rest1) (Z.of_nat (length (x1 ++ rest1))) st in
        let r2 := Asm.check_label (x2 ++ rest2) (Z.of_nat (length (x2 ++ rest2))) st in
        r1.1.1 = r2.1.1 /\ r1.2 = r2.2
        /\ r1.1.2 = Z.of_nat (length x1) /\ r2.1.2 = Z.of_nat (length x2))
  /\ (forall pre1 rest1 pre2 rest2 arg,
        ends_identifier rest1 -> no_offset rest1 ->
        ends_identifier rest2 -> no_offset rest2 ->
        let r1 := Asm.label_argument (pre1 ++ x1 ++ rest1)
                    (Z.of_nat (length (pre1 ++ x1 ++ rest1))) (Z.of_nat (length pre1)) arg st in
        let r2 := Asm.label_argument (pre2 ++ x2 ++ rest2)
                    (Z.of_nat (length (pre2 ++ x2 ++ rest2))) (Z.of_nat (length pre2)) arg st in
        r1.1.1.1 = r2.1.1.1 /\ r1.1.2 = r2.1.2 /\ r1.2 = r2.2).
Proof.
  intros H1 H2 E. split; [|split].
  - intros pre1 rest1 pre2 rest2. rewrite !find_label_ident by assumption.
    rewrite E. reflexivity.
  - intros rest1 rest2 Hr1 Hr2. cbv zeta.
    rewrite !check_label_ident by assumption. rewrite E.
    destruct (find_label (pad3 x2) 0 3 st) as [[k|] st'].
    + destruct (loc (label_at (labels st') k) >=? 0); repeat split.
    + repeat split.
  - intros pre1 rest1 pre2 rest2 arg Hr1 Hn1 Hr2 Hn2. cbv zeta.
    rewrite !label_argument_ident by assumption. rewrite E. repeat split.
Qed.

Lemma label_lookup_first_three_witness :
  pad3 (codes "LOOP1") = pad3 (codes "LOOP2")
  /\ find_label (codes " JMP " ++ codes "LOOP1" ++ [32]) 5 5 asm_blank
     = find_label (codes "LOOP2" ++ codes " NOP ") 0 5 asm_blank.
Proof.
  split; [reflexivity|].
  assert (Hid : forall s, s = codes "LOOP1" \/ s = codes "LOOP2" -> identifier s).
  { intros s [-> | ->]; (split; [eexists _, _; split; reflexivity|]);
      repeat constructor. }
  destruct (label_lookup_first_three (codes "LOOP1") (codes "LOOP2") asm_blank)
    as (H & _ & _); [apply Hid; left; reflexivity | apply Hid; right; reflexivity
                     | reflexivity |].
  exact (H (codes " JMP ") [32] [] (codes " NOP ")).
Defined.

(** A label defined as LOOP1 and referred to as LOOP2 is resolved: the jump
    goes to address 0 and no label is reported undefined. *)
Example long_labels_share_an_entry :
  (fun st => (ram (hw st), num_labels st, out st))
    <$> assemble 0 (codes ("LOOP1 LDI 1" ++ String (chr 13) (" JMP LOOP2"
                              ++ String (chr 13) (String (chr 27) EmptyString)))) blank_labels blank_target
  = Some ([0x51; 0x60; 0; 0; 0; 0; 0; 0; 0; 0; 0; 0; 0; 0; 0; 0], 1,
          ("00: LOOP1 LDI 1" ++ CRLF ++ "01:  JMP LOOP2" ++ CRLF ++ "02: " ++ CRLF ++ CRLF)%string).
Proof. vm_compute. reflexivity. Qed.

End Labels.

(** ** Forward references *)

Section ForwardReferences.
Import Target Asm.

Lemma patch_byte_mod a b : patch_byte a b = patch_byte (a mod 16) b.
Proof.
  unfold patch_byte. simpl. f_equal. f_equal.
  rewrite !land_15. apply eq_sym, Z.add_mod_idemp_l. lia.
Qed.

Lemma patch_byte_nibbles_all :
  forallb (fun a => forallb (fun b =>
     (Z.land (patch_byte a b) 0xF0 =? Z.land b 0xF0)
     && (Z.land (patch_byte a b) 0x0F =? (a + Z.land b 0x0F) mod 16)
     && (0 <=? patch_byte a b) && (patch_byte a b <? 256)) (seqZ 0 256)) (seqZ 0 16) = true.
Proof. vm_compute. reflexivity. Qed.

(** The merge keeps the high nibble and adds the address to the low one. *)
Lemma patch_byte_nibbles a b :
  is_byte b ->
  Z.land (patch_byte a b) 0xF0 = Z.land b 0xF0
  /\ Z.land (patch_byte a b) 0x0F = (a + Z.land b 0x0F) mod 16
  /\ is_byte (patch_byte a b).
Proof.
  intros Hb. rewrite patch_byte_mod.
  pose proof patch_byte_nibbles_all as H. rewrite forallb_forall in H.
  specialize (H (a mod 16)). rewrite forallb_forall in H.
  assert (Ha : In (a mod 16) (seqZ 0 16)).
  { apply list_elem_of_In, elem_of_seqZ. pose proof (Z.mod_pos_bound a 16). lia. }
  assert (Hb' : In b (seqZ 0 256)).
  { apply list_elem_of_In, elem_of_seqZ. unfold is_byte in Hb. lia. }
  specialize (H Ha b Hb').
  apply andb_prop in H as [H H4]. apply andb_prop in H as [H H3].
  apply andb_prop in H as [H1 H2].
  apply Z.eqb_eq in H1, H2. apply Z.leb_le in H3. apply Z.ltb_lt in H4.
  split; [exact H1|]. split; [|unfold is_byte; lia].
  rewrite H2. rewrite Z.add_mod_idemp_l by lia. reflexivity.
Qed.

Lemma target_ok_cell t p : target_ok t -> is_byte (cell (ram t) p).
Proof.
  intros (_ & Hby & _). unfold cell.
  destruct (ram t !! Z.to_nat p) as [x|] eqn:E; [|simpl; unfold is_byte; lia].
  rewrite Forall_forall in Hby. apply Hby. eapply list_elem_of_lookup_2, E.
Qed.

(** One pass of the patch loop. *)
Lemma patch_step t a s :
  target_ok t ->
  let r := read_ram t s 1 in
  let t' := write_ram r.1 [patch_byte a (cell r.2 0)] s in
  ram t' = <[Z.to_nat (s mod 16) := patch_byte a (cell (ram t) (s mod 16))]> (ram t)
  /\ target_ok t'.
Proof.
  intros Hok. pose proof Hok as (Hlen & Hby & Hri). cbv zeta.
  destruct (read_ram_spec t s 1 Hri) as (Hr & Hram & Hri').
  { intros k _. apply target_ok_cell, Hok. }
  cbv zeta in Hr, Hram, Hri'. change (Z.of_nat 1) with 1 in *.
  rewrite Hr. change (seqZ 0 1) with [0]. cbn [map]. rewrite cell_singleton, Z.add_0_r.
  destruct (write_ram_one (read_ram t s 1).1
              (patch_byte a (cell (ram t) (s mod 16))) s Hri') as [Hw Hwri].
  cbv zeta in Hw, Hwri.
  destruct (patch_byte_nibbles a (cell (ram t) (s mod 16)) (target_ok_cell t _ Hok))
    as (_ & _ & Hpb).
  unfold target_ok. rewrite Hw, Hram, to_byte_id by exact Hpb.
  split; [reflexivity|]. split; [rewrite length_insert; exact Hlen|].
  split; [|exact Hwri].
  apply Forall_insert; assumption.
Qed.

Lemma patch_forward_spec n j fwd a t :
  target_ok t ->
  ram (patch_forward n j fwd a t)
  = patch_ram a (map (cell fwd) (seqZ j (Z.of_nat n))) (ram t)
  /\ target_ok (patch_forward n j fwd a t).
Proof.
  revert j t. induction n as [|n IH]; intros j t Hok.
  { split; [reflexivity|exact Hok]. }
  destruct (patch_step t a (cell fwd j) Hok) as [Hram Hok']. cbv zeta in Hram, Hok'.
  cbn [patch_forward].
  destruct (IH (j + 1) _ Hok') as [H1 H2]. split; [|exact H2].
  rewrite H1, Hram.
  replace (Z.of_nat (S n)) with (Z.succ (Z.of_nat n)) by lia.
  rewrite (seqZ_cons j) by lia. rewrite Z.pred_succ. reflexivity.
Qed.

(** With distinct cells, each recorded cell is merged once and the others
    are left alone. *)
Lemma patch_ram_cell a sites r p :
  NoDup (map (fun s => s mod 16) sites) -> length r = 16%nat -> 0 <= p < 16 ->
  cell (patch_ram a sites r) p
  = if decide (p ∈ map (fun s => s mod 16) sites)
    then patch_byte a (cell r p) else cell r p.
Proof.
  revert r. induction sites as [|s sites IH]; intros r Hnd Hlen Hp.
  { unfold patch_ram. cbn [map foldl].
    case_decide as H; [apply elem_of_nil in H; contradiction|reflexivity]. }
  cbn [map] in *. apply NoDup_cons in Hnd as [Hs Hnd].
  change (patch_ram a (s :: sites) r)
    with (patch_ram a sites
            (<[Z.to_nat (s mod 16) := patch_byte a (cell r (s mod 16))]> r)).
  rewrite IH; [|exact Hnd|rewrite length_insert; exact Hlen|exact Hp].
  pose proof (Z.mod_pos_bound s 16 ltac:(lia)) as Hm.
  destruct (decide (p = s mod 16)) as [->|Hne].
  - rewrite cell_insert_eq by lia.
    rewrite (decide_False (P := _ ∈ map _ sites)) by exact Hs.
    rewrite decide_True by (apply elem_of_cons; left; reflexivity).
    reflexivity.
  - rewrite cell_insert_ne by lia.
    destruct (decide (p ∈ map (fun s0 => s0 mod 16) sites)) as [Hin|Hin].
    + rewrite decide_True by (apply elem_of_cons; right; exact Hin). reflexivity.
    + rewrite decide_False; [reflexivity|].
      intros [?|?]%elem_of_cons; contradiction.
Qed.

Lemma map_cell_take (l : list Z) n :
  0 <= n <= Z.of_nat (length l) ->
  map (cell l) (seqZ 0 n) = take (Z.to_nat n) l.
Proof.
  intros Hn. apply list_eq. intros i.
  change (map ?f ?x) with (f <$> x). rewrite list_lookup_fmap, lookup_take.
  case_decide.
  - rewrite lookup_seqZ_lt by lia. simpl. rewrite Z.add_0_l.
    rewrite <- (Nat2Z.id i) at 2. symmetry. apply cell_lookup. lia.
  - rewrite lookup_seqZ_ge by lia. reflexivity.
Qed.

Lemma concat_snoc sep (names : list string) x :
  names <> [] ->
  String.concat sep (names ++ [x]) = (String.concat sep names ++ sep ++ x)%string.
Proof.
  induction names as [|h names IH]; intros Hne; [contradiction|].
  destruct names as [|h2 names]; [reflexivity|].
  change (String.concat sep ((h :: h2 :: names) ++ [x]))
    with (h ++ sep ++ String.concat sep ((h2 :: names) ++ [x]))%string.
  rewrite IH by discriminate.
  change (String.concat sep (h :: h2 :: names))
    with (h ++ sep ++ String.concat sep (h2 :: names))%string.
  rewrite !append_assoc. reflexivity.
Qed.

Lemma undefined_names_succ (n : nat) ls :
  undefined_names (Z.of_nat (S n)) ls
  = undefined_names (Z.of_nat n) ls
    ++ (if loc (label_at ls (Z.of_nat n)) <? 0
        then [text (label_name 3 (label (label_at ls (Z.of_nat n))))] else []).
Proof.
  unfold undefined_names. rewrite seqZ_S, map_app, List.filter_app, map_app.
  cbn [map List.filter]. rewrite Z.add_0_l.
  destruct (loc (label_at ls (Z.of_nat n)) <? 0); reflexivity.
Qed.

(** The loop that prints the summary lists exactly the labels without an
    address, in table order, separated by commas after one header. *)
Lemma undefined_labels_spec n ls :
  undefined_labels n ls
  = (summary_text (undefined_names n ls),
     match undefined_names n ls with [] => true | _ => false end).
Proof.
  destruct (Z.le_gt_cases n 0) as [Hn|Hn].
  { unfold undefined_labels, undefined_names. rewrite seqZ_nil by lia. reflexivity. }
  rewrite <- (Z2Nat.id n) by lia. generalize (Z.to_nat n) as m. clear n Hn.
  induction m as [|m IH]; [reflexivity|].
  rewrite undefined_names_succ.
  unfold undefined_labels in *. rewrite seqZ_S, foldl_app. cbn [foldl].
  rewrite IH, Z.add_0_l. cbn [fst snd].
  destruct (loc (label_at ls (Z.of_nat m)) <? 0); [|rewrite app_nil_r; reflexivity].
  destruct (undefined_names (Z.of_nat m) ls) as [|h names] eqn:E.
  - reflexivity.
  - f_equal.
    change (summary_text ((h :: names) ++ [?x]))
      with (String (chr 10) "UNDEFINED LABELS: "
            ++ String.concat "," ((h :: names) ++ [x]))%string.
    rewrite concat_snoc by discriminate.
    unfold summary_text. rewrite !append_assoc. reflexivity.
Qed.

Lemma label_at_insert ls k l :
  0 <= k < Z.of_nat (length ls) -> label_at (<[Z.to_nat k := l]> ls) k = l.
Proof.
  intros Hk. unfold label_at. rewrite list_lookup_insert_eq by lia. reflexivity.
Qed.

(** C2 (amended).  Defining a label whose recorded forward references name
    distinct RAM cells merges the address of the definition into each of
    those cells once, at that moment: the high nibble of the cell is kept and
    its low nibble becomes the sum, modulo 16, of the address and the nibble
    that was there; no other cell changes; the label gets the address and its
    list of forward references is emptied.  The end of assembly writes no
    RAM and touches no label, so the sites of a label that was never defined
    stay unpatched; the summary, printed only when the write address is above
    the origin, lists exactly the names of the labels without an address. *)
Theorem forward_references_patched (st : Asm.asm_state) (k : Z) :
  target_ok (Asm.hw st) ->
  0 <= k < Z.of_nat (length (Asm.labels st)) ->
  0 <= Asm.forward_count (Asm.label_at (Asm.labels st) k) <= 16 ->
  length (Asm.forward (Asm.label_at (Asm.labels st) k)) = 16%nat ->
  NoDup (site_cells (Asm.label_at (Asm.labels st) k)) ->
  (forall p, 0 <= p < 16 ->
     cell (Target.ram (Asm.hw (Asm.define_label k st))) p
     = if decide (p ∈ site_cells (Asm.label_at (Asm.labels st) k))
       then Asm.patch_byte (Asm.asm_a st) (cell (Target.ram (Asm.hw st)) p)
       else cell (Target.ram (Asm.hw st)) p)
  /\ (forall b, is_byte b ->
        Z.land (Asm.patch_byte (Asm.asm_a st) b) 0xF0 = Z.land b 0xF0
        /\ Z.land (Asm.patch_byte (Asm.asm_a st) b) 0x0F
           = (Asm.asm_a st + Z.land b 0x0F) mod 16)
  /\ Asm.loc (Asm.label_at (Asm.labels (Asm.define_label k st)) k) = Asm.asm_a st
  /\ Asm.forward_count (Asm.label_at (Asm.labels (Asm.define_label k st)) k) = 0
  /\ Asm.hw (Asm.assemble_finish st) = Asm.hw st
  /\ Asm.labels (Asm.assemble_finish st) = Asm.labels st
  /\ Asm.out (Asm.assemble_finish st)
     = (Asm.out st
        ++ (if Asm.asm_a st >? Asm.asm_addr st
            then summary_text (undefined_names (Asm.num_labels st) (Asm.labels st)) ++ CRLF
            else EmptyString))%string.
Proof.
  intros Hok Hk Hn Hlen Hnd. pose proof Hok as (Hl & _ & _).
  split; [|split; [|split; [|split; [|split; [|split]]]]].
  - intros p Hp. unfold define_label. cbn [hw set_labels set_hw].
    destruct (patch_forward_spec
                (Z.to_nat (forward_count (label_at (labels st) k))) 0
                (forward (label_at (labels st) k)) (asm_a st) (hw st) Hok) as [Hr _].
    rewrite Hr, Z2Nat.id, map_cell_take by lia.
    apply patch_ram_cell; assumption.
  - intros b Hb. destruct (patch_byte_nibbles (asm_a st) b Hb) as (H1 & H2 & _).
    split; assumption.
  - unfold define_label. cbn [labels set_labels set_hw].
    rewrite label_at_insert by exact Hk. reflexivity.
  - unfold define_label. cbn [labels set_labels set_hw].
    rewrite label_at_insert by exact Hk. reflexivity.
  - unfold assemble_finish. destruct (asm_a st >? asm_addr st); reflexivity.
  - unfold assemble_finish. destruct (asm_a st >? asm_addr st); reflexivity.
  - unfold assemble_finish. destruct (asm_a st >? asm_addr st).
    + rewrite undefined_labels_spec. unfold println, print. cbn [out set_out fst].
      rewrite !append_assoc. reflexivity.
    + rewrite append_nil_r. reflexivity.
Qed.

Lemma forward_references_patched_witness :
  site_cells (label_at (labels two_forward_refs) 0) = [0; 1]
  /\ cell (ram (hw two_forward_refs)) 1 = 0x70
  /\ asm_a two_forward_refs = 2
  /\ cell (ram (hw (define_label 0 two_forward_refs))) 1 = 0x72.
Proof.
  split; [vm_compute; reflexivity|]. split; [vm_compute; reflexivity|].
  split; [vm_compute; reflexivity|].
  destruct (forward_references_patched two_forward_refs 0) as (H & _).
  - split; [vm_compute; reflexivity|]. split; [|vm_compute; reflexivity].
    assert (ram (hw two_forward_refs)
            = [0x60; 0x70; 0; 0; 0; 0; 0; 0; 0; 0; 0; 0; 0; 0; 0; 0]) as ->
      by (vm_compute; reflexivity).
    repeat constructor; unfold is_byte; lia.
  - vm_compute. split; [discriminate|reflexivity].
  - vm_compute. split; discriminate.
  - vm_compute. reflexivity.
  - assert (site_cells (label_at (labels two_forward_refs) 0) = [0; 1]) as ->
      by (vm_compute; reflexivity).
    apply NoDup_ListNoDup.
    constructor; [simpl; intros [E|[]]; discriminate|].
    constructor; [simpl; tauto | constructor].
  - rewrite (H 1) by lia. vm_compute. reflexivity.
Defined.

(** C2 as stated fails: after a reference to the undefined label FOO at
    address 0 and a change of origin to 5, assembly ends with FOO still
    undefined and its site unpatched, and prints no summary of undefined
    labels. *)
Lemma undefined_label_not_reported :
  (fun st => (asm_a st, asm_addr st, num_labels st,
              label (label_at (labels st) 0), loc (label_at (labels st) 0),
              recorded_sites (label_at (labels st) 0), cell (ram (hw st)) 0, out st))
    <$> assemble 0 (codes (" JMP FOO" ++ String (chr 13) (" .OR 5"
                             ++ String (chr 13) (String (chr 27) EmptyString))))
                 blank_labels blank_target
  = Some (5, 5, 1, codes "FOO", -1, [0], 0x60,
          ("00:  JMP FOO" ++ CRLF ++ "01:  .OR 5" ++ CRLF ++ "05: " ++ CRLF)%string).
Proof. vm_compute. reflexivity. Qed.

(** The summary when the origin was not moved. *)
Example undefined_label_reported :
  out <$> assemble 0 (codes (" JMP FOO" ++ String (chr 13) (String (chr 27) EmptyString)))
                   blank_labels blank_target
  = Some ("00:  JMP FOO" ++ CRLF ++ "01: " ++ CRLF
          ++ String (chr 10) "UNDEFINED LABELS: FOO" ++ CRLF)%string.
Proof. vm_compute. reflexivity. Qed.

(** A reference on a line that is then rejected is recorded all the same;
    the next line records the same site again, and the definition merges the
    address into that cell twice: the jump goes to 2, the label is at 1. *)
Example forward_reference_recorded_twice :
  (fun st => (cell (ram (hw st)) 0, loc (label_at (labels st) 0)))
    <$> assemble 0 (codes (" JMP FOO+" ++ String (chr 13) (" JMP FOO"
                             ++ String (chr 13) ("FOO HLT"
                             ++ String (chr 13) (String (chr 27) EmptyString)))))
                 blank_labels blank_target
  = Some (0x62, 1).
Proof. vm_compute. reflexivity. Qed.

End ForwardReferences.

(** ** The input loop of the assembler *)

Section InputLoop.
Import Asm.

(** The line editor gives back less input than it got. *)
Lemma read_line_consumes input c buf commentLen echo c' buf' echo' input' :
  read_line input c buf commentLen echo = Some (c', buf', echo', input') ->
  (length input' <= length input)%nat
  /\ (Z.of_nat (length buf) < BUFFER_SIZE -> (length input' < length input)%nat).
Proof.
  revert c buf commentLen echo.
  induction input as [|x input IH]; intros c buf commentLen echo; simpl read_line;
    destruct (Z.ltb_spec (Z.of_nat (length buf)) BUFFER_SIZE) as [Hlt|Hge];
    try discriminate;
    try (intros E; inversion E; subst; split; [reflexivity | intros; lia]).
  destruct ((x =? 26) || (x =? 27) || (x =? 13)).
  { intros E. inversion E. subst. simpl. split; [lia | intros; lia]. }
  assert (Hrec : forall c0 buf0 cl0 echo0,
             read_line input c0 buf0 cl0 echo0 = Some (c', buf', echo', input') ->
             (length input' <= length (x :: input))%nat
             /\ (Z.of_nat (length buf) < BUFFER_SIZE ->
                 (length input' < length (x :: input))%nat)).
  { intros c0 buf0 cl0 echo0 E. destruct (IH _ _ _ _ E) as [H _]. simpl. split; lia. }
  destruct ((x =? 8) || (x =? 127)).
  { destruct (commentLen >? 0); [apply Hrec|].
    destruct (Z.of_nat (length buf) >? 0); apply Hrec. }
  destruct ((commentLen =? 0) && (x =? 59)); [apply Hrec|].
  destruct (commentLen >? 0); apply Hrec.
Qed.

(** Fuel above the length of the input is never used up: more of it
    changes nothing, and [None] means that the assembler waits for input. *)
Lemma assemble_loop_fuel fuel input st :
  (length input < fuel)%nat ->
  assemble_loop (S fuel) input st = assemble_loop fuel input st.
Proof.
  revert input st. induction fuel as [|fuel IH]; intros input st Hf; [lia|].
  change (assemble_loop (S (S fuel)) input st)
    with (let st := print (dec2hex (asm_a st) ++ ": ") st in
          match read_line input 0 [] 0 [] with
          | None => None
          | Some (c, buf, echo, input') =>
              let st := println (text echo) st in
              if (c =? 26) || (c =? 27) then Some (assemble_finish st)
              else assemble_loop (S fuel) input' (assemble_line (buf ++ [32]) st)
          end).
  change (assemble_loop (S fuel) input st)
    with (let st := print (dec2hex (asm_a st) ++ ": ") st in
          match read_line input 0 [] 0 [] with
          | None => None
          | Some (c, buf, echo, input') =>
              let st := println (text echo) st in
              if (c =? 26) || (c =? 27) then Some (assemble_finish st)
              else assemble_loop fuel input' (assemble_line (buf ++ [32]) st)
          end).
  cbv zeta. destruct (read_line input 0 [] 0 []) as [[[[c buf] echo] input']|] eqn:E;
    [|reflexivity].
  destruct ((c =? 26) || (c =? 27)); [reflexivity|].
  apply IH. destruct (read_line_consumes _ _ _ _ _ _ _ _ _ E) as [_ H].
  specialize (H ltac:(simpl; unfold BUFFER_SIZE; lia)). lia.
Qed.

End InputLoop.

(** * Further properties of the monitor *)

(** ** Parsing numbers *)

Section Numbers.

Lemma code_chr c : is_byte c -> code (chr c) = c.
Proof.
  intros Hc. unfold code, chr, is_byte in *.
  rewrite nat_ascii_embedding by lia. lia.
Qed.

Lemma codes_text l : Forall is_byte l -> codes (text l) = l.
Proof.
  intros Hl. unfold codes, text. rewrite list_ascii_of_string_of_list_ascii.
  induction Hl as [|c l Hc Hl IH]; [reflexivity|].
  cbn [map]. rewrite code_chr by exact Hc. f_equal. exact IH.
Qed.

Lemma hex_digit_range d :
  0 <= d < 16 ->
  (48 <= hex_digit d <= 57 \/ 97 <= hex_digit d <= 102) /\ hex_char_to_byte (hex_digit d) = d.
Proof.
  intros Hd. unfold hex_digit, hex_char_to_byte, in_range.
  destruct (Z.ltb_spec d 10);
    repeat match goal with
           | |- context [Z.leb ?a ?b] => destruct (Z.leb_spec a b)
           end; cbn [andb]; cbv iota; lia.
Qed.

Lemma codes_dec2hex v :
  is_byte v -> codes (dec2hex v) = [hex_digit (v / 16); hex_digit (v mod 16)].
Proof.
  intros Hv. unfold dec2hex. rewrite to_byte_id by exact Hv.
  unfold is_byte in Hv.
  assert (H1 : 0 <= v / 16 < 16) by (split; [apply Z.div_pos; lia | apply Z.div_lt_upper_bound; lia]).
  pose proof (Z.mod_pos_bound v 16 ltac:(lia)) as H2.
  apply codes_text.
  constructor; [|constructor; [|constructor]].
  - destruct (hex_digit_range _ H1) as [[?|?] _]; unfold is_byte; lia.
  - destruct (hex_digit_range _ H2) as [[?|?] _]; unfold is_byte; lia.
Qed.

Lemma cell_middle (pre l rest : list Z) j :
  0 <= j < Z.of_nat (length l) ->
  cell (pre ++ l ++ rest) (Z.of_nat (length pre) + j) = cell l j.
Proof.
  intros Hj. rewrite cell_app_r by lia. unfold cell.
  rewrite lookup_app_l by lia. reflexivity.
Qed.

Lemma parse_hex_two pre h l rest value0 force_hex :
  h <> 36 -> 0 <= hex_char_to_byte h < 16 -> 0 <= hex_char_to_byte l < 16 ->
  force_hex = true ->
  parse_arg (pre ++ [h; l] ++ rest) (Z.of_nat (length (pre ++ [h; l] ++ rest)))
            (Z.of_nat (length pre)) value0 force_hex
  = (true, Z.of_nat (length pre) + 2, hex_char_to_byte h * 16 + hex_char_to_byte l).
Proof.
  intros Hh H1 H2 ->. unfold parse_arg.
  assert (Hlen : Z.of_nat (length (pre ++ [h; l] ++ rest))
                 = Z.of_nat (length pre) + 2 + Z.of_nat (length rest)).
  { rewrite !length_app. simpl. lia. }
  rewrite Hlen.
  pose proof (cell_middle pre [h; l] rest 0 ltac:(simpl; lia)) as C0.
  pose proof (cell_middle pre [h; l] rest 1 ltac:(simpl; lia)) as C1.
  rewrite Z.add_0_r in C0. change (cell [h; l] 0) with h in C0.
  change (cell [h; l] 1) with l in C1.
  rewrite orb_true_r, C0.
  destruct (Z.eqb_spec h 36); [contradiction|].
  rewrite C0.
  destruct (Z.ltb_spec (Z.of_nat (length pre))
              (Z.of_nat (length pre) + 2 + Z.of_nat (length rest))); [|lia].
  destruct (Z.leb_spec 0 (hex_char_to_byte h)); [|lia]. cbn [andb]. cbv iota.
  rewrite C1.
  destruct (Z.ltb_spec (Z.of_nat (length pre) + 1)
              (Z.of_nat (length pre) + 2 + Z.of_nat (length rest))); [|lia].
  destruct (Z.leb_spec 0 (hex_char_to_byte l)); [|lia]. cbn [andb]. cbv iota.
  f_equal; [f_equal; lia|].
  rewrite (to_byte_id (hex_char_to_byte h)) by (unfold is_byte; lia).
  rewrite Z.shiftl_mul_pow2 by lia. change (2 ^ 4) with 16.
  apply to_byte_id. unfold is_byte. lia.
Qed.

Lemma parse_arg_dollar buffer len i value0 force_hex :
  i < len -> cell buffer i = 36 -> cell buffer (i + 1) <> 36 ->
  parse_arg buffer len i value0 force_hex = parse_arg buffer len (i + 1) value0 true.
Proof.
  intros Hi C0 C1. unfold parse_arg. rewrite C0, orb_true_r.
  destruct (Z.ltb_spec i len); [|lia]. change (36 =? 36) with true. cbn [andb orb].
  destruct (Z.eqb_spec (cell buffer (i + 1)) 36); [contradiction|]. reflexivity.
Qed.

(** X1.  A byte printed by [dec2hex] is read back by [parse_arg] in
    hexadecimal mode, wherever it stands in the line and whatever follows:
    the two digits are consumed and the value is the byte.  With a [$] in
    front the same holds in either mode, and three characters are consumed. *)
Theorem parse_hex_roundtrip (v : Z) (pre rest : list Z) (value0 : Z) :
  is_byte v ->
  parse_arg (pre ++ codes (dec2hex v) ++ rest)
            (Z.of_nat (length (pre ++ codes (dec2hex v) ++ rest)))
            (Z.of_nat (length pre)) value0 true
  = (true, Z.of_nat (length pre) + 2, v)
  /\ forall force_hex,
       parse_arg (pre ++ 36 :: codes (dec2hex v) ++ rest)
                 (Z.of_nat (length (pre ++ 36 :: codes (dec2hex v) ++ rest)))
                 (Z.of_nat (length pre)) value0 force_hex
       = (true, Z.of_nat (length pre) + 3, v).
Proof.
  intros Hv. rewrite codes_dec2hex by exact Hv. pose proof Hv as Hv'. unfold is_byte in Hv'.
  assert (H1 : 0 <= v / 16 < 16) by (split; [apply Z.div_pos; lia | apply Z.div_lt_upper_bound; lia]).
  pose proof (Z.mod_pos_bound v 16 ltac:(lia)) as H2.
  destruct (hex_digit_range _ H1) as [R1 E1]. destruct (hex_digit_range _ H2) as [R2 E2].
  assert (Hval : hex_char_to_byte (hex_digit (v / 16)) * 16
                 + hex_char_to_byte (hex_digit (v mod 16)) = v).
  { rewrite E1, E2. pose proof (Z.div_mod v 16 ltac:(lia)). lia. }
  split.
  - rewrite parse_hex_two; [rewrite Hval; reflexivity | lia | lia | lia | reflexivity].
  - intros force_hex.
    rewrite parse_arg_dollar.
    + replace (pre ++ 36 :: [hex_digit (v / 16); hex_digit (v mod 16)] ++ rest)
        with ((pre ++ [36]) ++ [hex_digit (v / 16); hex_digit (v mod 16)] ++ rest)
        by (rewrite <- app_assoc; reflexivity).
      replace (Z.of_nat (length pre) + 1) with (Z.of_nat (length (pre ++ [36])))
        by (rewrite length_app; simpl; lia).
      rewrite parse_hex_two; [|lia|lia|lia|reflexivity].
      rewrite Hval, length_app. simpl length. f_equal. f_equal. lia.
    + rewrite length_app. simpl. lia.
    + rewrite <- (Z.add_0_r (Z.of_nat (length pre))).
      rewrite cell_app_r by lia. reflexivity.
    + rewrite cell_app_r by lia. change (cell _ 1) with (hex_digit (v / 16)). lia.
Qed.

Lemma parse_hex_roundtrip_witness :
  parse_arg (codes "b " ++ codes (dec2hex 0x3e) ++ []) 4 2 1 true = (true, 4, 0x3e).
Proof.
  destruct (parse_hex_roundtrip 0x3e (codes "b ") [] 1) as [H _].
  - unfold is_byte. lia.
  - exact H.
Defined.

Lemma cell_after (pre l rest : list Z) :
  cell (pre ++ l ++ rest) (Z.of_nat (length pre) + Z.of_nat (length l)) = cell rest 0.
Proof.
  rewrite cell_app_r by lia.
  replace (Z.of_nat (length l)) with (Z.of_nat (length l) + 0) by lia.
  apply cell_app_r. lia.
Qed.

Lemma digit_char d :
  0 <= d <= 9 -> isDigit (48 + d) = true /\ (48 + d =? 36) = false /\ 48 + d - 48 = d.
Proof.
  intros Hd. unfold isDigit, in_range.
  destruct (Z.leb_spec 48 (48 + d)); [|lia]. destruct (Z.leb_spec (48 + d) 57); [|lia].
  destruct (Z.eqb_spec (48 + d) 36); [lia|]. repeat split. lia.
Qed.

(** X2.  One to three decimal digits, not followed by a further digit
    unless there are three already, are read by [parse_arg] as their decimal
    value reduced modulo 256; exactly these digits are consumed. *)
Theorem parse_decimal_value (ds pre rest : list Z) (value0 : Z) :
  Forall (fun d => 0 <= d <= 9) ds ->
  (1 <= length ds <= 3)%nat ->
  ((length ds < 3)%nat -> isDigit (cell rest 0) = false) ->
  parse_arg (pre ++ map (Z.add 48) ds ++ rest)
            (Z.of_nat (length (pre ++ map (Z.add 48) ds ++ rest)))
            (Z.of_nat (length pre)) value0 false
  = (true, Z.of_nat (length pre) + Z.of_nat (length ds), to_byte (decimal_value ds)).
Proof.
  intros Hds Hlen Hrest.
  set (buffer := pre ++ map (Z.add 48) ds ++ rest).
  assert (Hcell : forall j, 0 <= j < Z.of_nat (length ds) ->
            cell buffer (Z.of_nat (length pre) + j) = 48 + cell ds j).
  { intros j Hj. subst buffer. rewrite cell_middle by (rewrite length_map; lia).
    unfold cell. change (map ?f ?l) with (f <$> l). rewrite list_lookup_fmap.
    destruct (lookup_lt_is_Some_2 ds (Z.to_nat j)) as [d E]; [lia|]. rewrite E. reflexivity. }
  assert (Hafter : cell buffer (Z.of_nat (length pre) + Z.of_nat (length ds)) = cell rest 0).
  { subst buffer. rewrite <- (length_map (Z.add 48) ds). apply cell_after. }
  assert (Hl : Z.of_nat (length buffer)
               = Z.of_nat (length pre) + Z.of_nat (length ds) + Z.of_nat (length rest)).
  { subst buffer. rewrite !length_app, length_map. lia. }
  assert (Hend : forall k, k = Z.of_nat (length pre) + Z.of_nat (length ds) ->
            (length ds < 3)%nat ->
            (k <? Z.of_nat (length buffer)) && isDigit (cell buffer k) = false).
  { intros k -> H3. rewrite Hafter, (Hrest H3). apply andb_false_r. }
  unfold parse_arg. rewrite Hl. fold buffer in Hend.
  destruct ds as [|d1 [|d2 [|d3 [|]]]]; simpl length in *; try lia;
    change (Z.of_nat 1) with 1 in *; change (Z.of_nat 2) with 2 in *;
    change (Z.of_nat 3) with 3 in *.
  - apply Forall_cons in Hds as [D1 _]. destruct (digit_char d1 D1) as (I1 & N1 & S1).
    pose proof (Hcell 0 ltac:(lia)) as C0. rewrite Z.add_0_r in C0.
    replace (cell _ 0) with d1 in C0 by reflexivity.
    rewrite C0, N1, I1, andb_false_r. cbn [orb].
    destruct (Z.ltb_spec (Z.of_nat (length pre))
                (Z.of_nat (length pre) + 1 + Z.of_nat (length rest))); [|lia].
    cbn [andb]. cbv iota. rewrite <- Hl, (Hend _ eq_refl) by lia.
    rewrite S1. reflexivity.
  - apply Forall_cons in Hds as [D1 Hds]. apply Forall_cons in Hds as [D2 _].
    destruct (digit_char d1 D1) as (I1 & N1 & S1). destruct (digit_char d2 D2) as (I2 & _ & S2).
    pose proof (Hcell 0 ltac:(lia)) as C0. rewrite Z.add_0_r in C0.
    replace (cell _ 0) with d1 in C0 by reflexivity.
    pose proof (Hcell 1 ltac:(lia)) as C1.
    replace (cell _ 1) with d2 in C1 by reflexivity.
    rewrite C0, N1, I1, andb_false_r. cbn [orb].
    destruct (Z.ltb_spec (Z.of_nat (length pre))
                (Z.of_nat (length pre) + 2 + Z.of_nat (length rest))); [|lia].
    cbn [andb]. cbv iota. rewrite C1, I2.
    destruct (Z.ltb_spec (Z.of_nat (length pre) + 1)
                (Z.of_nat (length pre) + 2 + Z.of_nat (length rest))); [|lia].
    cbn [andb]. cbv iota. rewrite <- Hl.
    rewrite (Hend (Z.of_nat (length pre) + 1 + 1)) by lia.
    rewrite S1, S2. f_equal; [f_equal; lia|].
    unfold decimal_value. cbn [foldl]. rewrite (to_byte_id d1) by (unfold is_byte; lia).
    f_equal; lia.
  - apply Forall_cons in Hds as [D1 Hds]. apply Forall_cons in Hds as [D2 Hds].
    apply Forall_cons in Hds as [D3 _].
    destruct (digit_char d1 D1) as (I1 & N1 & S1). destruct (digit_char d2 D2) as (I2 & _ & S2).
    destruct (digit_char d3 D3) as (I3 & _ & S3).
    pose proof (Hcell 0 ltac:(lia)) as C0. rewrite Z.add_0_r in C0.
    replace (cell _ 0) with d1 in C0 by reflexivity.
    pose proof (Hcell 1 ltac:(lia)) as C1.
    replace (cell _ 1) with d2 in C1 by reflexivity.
    pose proof (Hcell 2 ltac:(lia)) as C2.
    replace (cell _ 2) with d3 in C2 by reflexivity.
    rewrite C0, N1, I1, andb_false_r. cbn [orb].
    destruct (Z.ltb_spec (Z.of_nat (length pre))
                (Z.of_nat (length pre) + 3 + Z.of_nat (length rest))); [|lia].
    cbn [andb]. cbv iota. rewrite C1, I2.
    destruct (Z.ltb_spec (Z.of_nat (length pre) + 1)
                (Z.of_nat (length pre) + 3 + Z.of_nat (length rest))); [|lia].
    cbn [andb]. cbv iota.
    replace (Z.of_nat (length pre) + 1 + 1) with (Z.of_nat (length pre) + 2) by lia.
    rewrite C2, I3.
    destruct (Z.ltb_spec (Z.of_nat (length pre) + 2)
                (Z.of_nat (length pre) + 3 + Z.of_nat (length rest))); [|lia].
    cbn [andb]. cbv iota.
    rewrite S1, S2, S3. f_equal; [f_equal; lia|].
    unfold decimal_value. cbn [foldl]. rewrite (to_byte_id d1) by (unfold is_byte; lia).
    rewrite (to_byte_id (d1 * 10 + d2)) by (unfold is_byte; lia).
    f_equal; lia.
Qed.

Lemma parse_decimal_value_witness :
  parse_arg (codes "r " ++ map (Z.add 48) [2; 5; 6] ++ []) 5 2 0 false = (true, 5, 0).
Proof.
  apply (parse_decimal_value [2; 5; 6] (codes "r ") [] 0).
  - repeat (constructor; [lia|]). constructor.
  - simpl. lia.
  - simpl. lia.
Defined.

(** X3.  [parse_arg] consumes at most three characters.  When it succeeds
    it has consumed at least one, it stays within the first [len]
    characters and the value is a byte; when it fails the value is left as
    it was. *)
Theorem parse_arg_bounds (buffer : list Z) (len i value : Z) (force_hex : bool) :
  i <= (parse_arg buffer len i value force_hex).1.2 <= i + 3
  /\ ((parse_arg buffer len i value force_hex).1.1 = true ->
      i < (parse_arg buffer len i value force_hex).1.2 <= len
      /\ is_byte (parse_arg buffer len i value force_hex).2)
  /\ ((parse_arg buffer len i value force_hex).1.1 = false ->
      (parse_arg buffer len i value force_hex).2 = value).
Proof.
  unfold parse_arg.
  destruct force_hex; destruct (cell buffer i =? 36);
  repeat (cbn [andb orb]; cbv iota;
          match goal with
          | |- context [Z.ltb ?a ?b] => destruct (Z.ltb_spec a b)
          | |- context [if ?b then _ else _] => destruct b
          end);
    cbn [fst snd andb orb]; cbv iota; cbn [fst snd];
    (split; [lia|]); (split; [intros ?; try discriminate; (split; [lia|apply to_byte_is_byte])
                             | intros ?; try discriminate; reflexivity]).
Qed.

End Numbers.

(** ** More on breakpoints *)

Section BreakpointCommands.
Import Breakpoints Eeprom BreakpointCheck.

(** X4.  [check_breakpoint], used by the single-step command, and the
    unrolled comparison inside [run] decide alike: both report a hit exactly
    when the program counter is one of the breakpoints in force, and the
    message names that address. *)
Theorem check_breakpoint_agrees (pc : Z) (s : Breakpoints.bp_state) :
  0 <= Breakpoints.num_breakpoints s <= 10 ->
  length (Breakpoints.breakpoints s) = 10%nat ->
  (BreakpointCheck.check_breakpoint pc s).1 = Run.breakpoint_hit false s pc
  /\ ((BreakpointCheck.check_breakpoint pc s).1 = true <-> pc ∈ Breakpoints.active s)
  /\ ((BreakpointCheck.check_breakpoint pc s).1 = true ->
      (BreakpointCheck.check_breakpoint pc s).2
      = ("Stopped at breakpoint: " ++ dec2hex pc ++ CRLF)%string).
Proof.
  intros Hn Hl.
  assert (Hb : 0 <= num_breakpoints s <= Z.of_nat (length (breakpoints s))) by lia.
  destruct (bp_find_spec pc s Hb) as (Hj & Hlt & Heq). cbv zeta in Hj, Hlt, Heq.
  assert (Hiff : (check_breakpoint pc s).1 = true <-> pc ∈ active s).
  { unfold check_breakpoint.
    destruct (Z.ltb_spec (bp_find pc s) (num_breakpoints s)) as [H|H]; cbn [fst].
    - split; [intros _; apply Hlt, H | reflexivity].
    - split; [discriminate|]. intros Hin. exfalso. apply Heq; [lia|exact Hin]. }
  split; [|split; [exact Hiff|]].
  - rewrite breakpoint_hit_scan by assumption.
    destruct (existsb (Z.eqb pc) (active s)) eqn:E.
    + apply Hiff. apply existsb_exists in E as (x & Hx & Hxe).
      apply Z.eqb_eq in Hxe. subst x. apply list_elem_of_In, Hx.
    + apply not_true_is_false. intros C.
      apply Hiff in C. apply not_true_iff_false in E. apply E, existsb_exists.
      exists pc. split; [apply list_elem_of_In, C | apply Z.eqb_refl].
  - unfold check_breakpoint.
    destruct (Z.ltb_spec (bp_find pc s) (num_breakpoints s)) as [H|H]; cbn [fst snd];
      [|discriminate].
    intros _. destruct (Hlt H) as [-> _]. reflexivity.
Qed.

Lemma check_breakpoint_agrees_witness :
  (check_breakpoint 7 (bps two_breakpoints)).1 = Run.breakpoint_hit false (bps two_breakpoints) 7
  /\ (check_breakpoint 7 (bps two_breakpoints)).2
     = ("Stopped at breakpoint: 07" ++ CRLF)%string.
Proof.
  destruct (check_breakpoint_agrees 7 (bps two_breakpoints)) as (H1 & _ & H3).
  - simpl. lia.
  - reflexivity.
  - split; [exact H1|]. apply H3. reflexivity.
Defined.

(** X5.  After the command that adds address [a], the breakpoints in force
    are those that were, and [a] as well if ten were not yet set. *)
Theorem add_breakpoint_members (a : Z) (m : Breakpoints.monitor_state) :
  bp_ok (Breakpoints.bps m) ->
  forall b,
    b ∈ Breakpoints.active (Breakpoints.bps (Breakpoints.add_breakpoint a m).1)
    <-> b ∈ Breakpoints.active (Breakpoints.bps m)
        \/ (b = a /\ Breakpoints.num_breakpoints (Breakpoints.bps m) < 10).
Proof.
  intros Hok b. pose proof Hok as (Hb & _). unfold MAX_BREAKPOINTS in Hb.
  destruct (decide (a ∈ active (bps m))) as [Hin|Hin].
  { rewrite add_breakpoint_exists by assumption. cbn [fst].
    split; [intros H; left; exact H | intros [H|[-> _]]; assumption]. }
  destruct (decide (num_breakpoints (bps m) = 10)) as [Hn|Hn].
  { rewrite add_breakpoint_full by assumption. cbn [fst].
    split; [intros H; left; exact H | intros [H|[_ H]]; [exact H | lia]]. }
  destruct (add_breakpoint_new a m Hok Hin) as [_ Ha]; [lia|].
  rewrite Ha, elem_of_app, list_elem_of_singleton.
  split; (intros [H|H]; [left; exact H | right]); [split; [exact H | lia] | apply H].
Qed.

Lemma add_breakpoint_members_witness :
  9 ∈ active (bps (add_breakpoint 9 two_breakpoints).1).
Proof.
  apply (add_breakpoint_members 9 two_breakpoints two_breakpoints_ok 9).
  right. split; [reflexivity | simpl; lia].
Defined.

(** X6.  After the command that removes address [a], the breakpoints in
    force are those that were, except [a]. *)
Theorem remove_breakpoint_members (a : Z) (m : Breakpoints.monitor_state) :
  bp_ok (Breakpoints.bps m) ->
  forall b,
    b ∈ Breakpoints.active (Breakpoints.bps (Breakpoints.remove_breakpoint a m).1)
    <-> b ∈ Breakpoints.active (Breakpoints.bps m) /\ b <> a.
Proof.
  intros Hok b. pose proof Hok as (Hb & Hl & Hnd). unfold MAX_BREAKPOINTS in Hb.
  destruct (decide (a ∈ active (bps m))) as [Hin|Hin].
  2:{ rewrite remove_breakpoint_missing by assumption. cbn [fst].
      split; [intros H; split; [exact H | intros ->; contradiction] | intros [H _]; exact H]. }
  destruct (remove_breakpoint_found a m Hok Hin) as [Hj Hs].
  destruct (bp_find_spec a (bps m) (bp_ok_bounds _ Hok)) as (_ & Hat & _). cbv zeta in Hat.
  destruct (Hat ltac:(lia)) as [Hja _].
  set (j := bp_find a (bps m)) in *. set (n := num_breakpoints (bps m)) in *.
  assert (Hold : forall i i', 0 <= i < n -> 0 <= i' < n ->
            cell (breakpoints (bps m)) i = cell (breakpoints (bps m)) i' -> i = i').
  { intros i i' Hi Hi' E.
    assert (Z.to_nat i = Z.to_nat i'); [|lia].
    apply (NoDup_lookup (active (bps m)) _ _ (cell (breakpoints (bps m)) i) Hnd);
      unfold active; rewrite lookup_take_lt by lia; [|rewrite E]; apply cell_lookup; lia. }
  rewrite Hs. rewrite !active_elem; cbn [num_breakpoints breakpoints];
    [|fold n; lia | rewrite length_insert; lia].
  fold n. split.
  - intros (k & Hk & Hc). destruct (decide (k = j)) as [->|Hne].
    + rewrite cell_insert_eq in Hc by lia. split; [exists (n - 1); split; [lia|exact Hc]|].
      intros ->. rewrite <- Hja in Hc. apply Hold in Hc; lia.
    + rewrite cell_insert_ne in Hc by lia. split; [exists k; split; [lia|exact Hc]|].
      intros ->. rewrite <- Hja in Hc. apply Hold in Hc; lia.
  - intros [(k & Hk & Hc) Hne].
    assert (k <> j) by (intros ->; congruence).
    destruct (decide (k = n - 1)) as [->|Hk'].
    + exists j. split; [lia|]. rewrite cell_insert_eq by lia. exact Hc.
    + exists k. split; [lia|]. rewrite cell_insert_ne by lia. exact Hc.
Qed.

Lemma remove_breakpoint_members_witness :
  7 ∈ active (bps (remove_breakpoint 5 two_breakpoints).1)
  /\ 5 ∉ active (bps (remove_breakpoint 5 two_breakpoints).1).
Proof.
  pose proof (remove_breakpoint_members 5 two_breakpoints two_breakpoints_ok) as H.
  split.
  - apply H. split; [|discriminate].
    assert (active (bps two_breakpoints) = [5; 7]) as -> by (vm_compute; reflexivity).
    apply elem_of_cons. right. apply elem_of_cons. left. reflexivity.
  - intros Hin. apply H in Hin as [_ Hne]. apply Hne. reflexivity.
Defined.

(** X7.  [load_breakpoints] never leaves more than ten breakpoints in
    force: a stored count above ten, as in an erased EEPROM, leaves the set
    as it was. *)
Theorem load_breakpoints_bounded (s : Breakpoints.bp_state) (e : gmap Z Z) :
  0 <= Breakpoints.num_breakpoints s <= 10 ->
  0 <= Eeprom.EEPROM_read e 1022 ->
  0 <= Breakpoints.num_breakpoints (Breakpoints.load_breakpoints s e) <= 10
  /\ (10 < Eeprom.EEPROM_read e 1022 -> Breakpoints.load_breakpoints s e = s)
  /\ Breakpoints.load_breakpoints s ∅ = s.
Proof.
  intros Hn He. unfold load_breakpoints, MAX_BREAKPOINTS.
  split; [|split].
  - destruct (Z.leb_spec (EEPROM_read e 1022) 10); cbn [num_breakpoints]; lia.
  - intros H. destruct (Z.leb_spec (EEPROM_read e 1022) 10); [lia|reflexivity].
  - reflexivity.
Qed.

Lemma load_breakpoints_bounded_witness :
  num_breakpoints (load_breakpoints no_breakpoints (eeprom two_breakpoints)) = 2.
Proof.
  destruct (load_breakpoints_bounded no_breakpoints (eeprom two_breakpoints)) as (H & _ & _).
  - simpl. lia.
  - vm_compute. discriminate.
  - vm_compute. reflexivity.
Defined.

End BreakpointCommands.

(** ** More on running the target *)

Section RunCounts.
Import Breakpoints Run.

Lemma instruction_limit_nonneg n : 0 <= n -> instruction_limit n = n.
Proof. intros H. unfold instruction_limit. destruct (Z.ltb_spec n 0); [lia|reflexivity]. Qed.

Lemma quiet_hit s first f : quiet s f -> breakpoint_hit first s (f_pc f) = false.
Proof. intros (H & _). destruct first; [apply breakpoint_hit_first | exact H]. Qed.

(** One pass of the loop over a sample that gives no reason to stop. *)
Lemma run_loop_pass table s limit f samples i first opcode done cycles :
  to_byte (i + 1) <= limit ->
  breakpoint_hit first s (f_pc f) = false -> f_rx f = true ->
  to_byte (f_opcode f) <> hlt ->
  run_loop table s limit (f :: samples) i first opcode done cycles
  = run_loop table s limit samples (to_byte (i + 1)) false (to_byte (f_opcode f))
             (done + 1) (cycles + cell table (Z.land (to_byte (f_opcode f)) 0xF0)).
Proof.
  intros Hi Hb Hrx Hop. simpl run_loop.
  destruct (Z.leb_spec (to_byte (i + 1)) limit); [|lia].
  rewrite Hb, Hrx. simpl negb. cbv iota.
  destruct (Z.eqb_spec (to_byte (f_opcode f)) hlt); [contradiction|reflexivity].
Qed.

Lemma run_loop_at_limit table s limit samples i first opcode done cycles :
  limit < to_byte (i + 1) ->
  run_loop table s limit samples i first opcode done cycles
  = LoopEnd (Some AtLimit) opcode done cycles.
Proof.
  intros Hi. destruct samples; simpl run_loop;
    (destruct (Z.leb_spec (to_byte (i + 1)) limit); [lia|reflexivity]).
Qed.

Lemma run_loop_counts table s n k :
  forall samples i first opcode done cycles,
    0 <= i -> i + Z.of_nat k = n -> n <= 254 ->
    (k <= length samples)%nat -> Forall (quiet s) (take k samples) ->
    let e := run_loop table s n samples i first opcode done cycles in
    l_exit e = Some AtLimit /\ l_done e = done + Z.of_nat k.
Proof.
  induction k as [|k IH]; intros samples i first opcode done cycles Hi Hk Hn Hl Hq; cbv zeta.
  - rewrite run_loop_at_limit; [simpl; split; [reflexivity|lia]|].
    unfold to_byte. rewrite Z.mod_small; lia.
  - destruct samples as [|f samples]; [simpl in Hl; lia|].
    rewrite firstn_cons in Hq. apply Forall_cons in Hq as [Hf Hq].
    assert (Hb : to_byte (i + 1) = i + 1) by (unfold to_byte; rewrite Z.mod_small; lia).
    rewrite run_loop_pass;
      [|lia | apply quiet_hit, Hf | apply Hf | apply Hf].
    rewrite Hb.
    destruct (IH samples (i + 1) false (to_byte (f_opcode f)) (done + 1)
                (cycles + cell table (Z.land (to_byte (f_opcode f)) 240)))
      as [H1 H2]; [lia | lia | lia | simpl in Hl; lia | exact Hq |].
    split; [exact H1|]. rewrite H2. lia.
Qed.

(** X8.  [run(n)] with [n] from 0 to 254 executes exactly [n] instructions
    and then stops for the limit, when none of them gives another reason to
    stop. *)
Theorem run_limit_reached (buffer : list Z) (s : Breakpoints.bp_state)
    (n opcode0 : Z) (samples : list Run.fetch) :
  0 <= n <= 254 ->
  (Z.to_nat n <= length samples)%nat ->
  Forall (quiet s) (take (Z.to_nat n) samples) ->
  Run.l_exit (Run.run_until buffer s n opcode0 samples) = Some Run.AtLimit
  /\ Run.l_done (Run.run_until buffer s n opcode0 samples) = n.
Proof.
  intros Hn Hl Hq. unfold run_until. rewrite instruction_limit_nonneg by lia.
  destruct (run_loop_counts (cycles_table buffer) s n (Z.to_nat n) samples 0 true opcode0 0 0)
    as [H1 H2]; try assumption; try lia.
  split; [exact H1|]. rewrite H2. lia.
Qed.

Lemma run_limit_reached_witness :
  l_exit (run_until (replicate 256 0) no_breakpoints 200 0 (replicate 300 nop_sample))
  = Some AtLimit
  /\ l_done (run_until (replicate 256 0) no_breakpoints 200 0 (replicate 300 nop_sample)) = 200.
Proof.
  apply (run_limit_reached (replicate 256 0) no_breakpoints 200 0 (replicate 300 nop_sample)).
  - lia.
  - rewrite length_replicate. lia.
  - apply Forall_take, Forall_replicate, nop_sample_quiet.
Defined.

Lemma run_loop_wraps table s limit samples :
  255 <= limit ->
  forall i first opcode done cycles,
    let e := run_loop table s limit samples i first opcode done cycles in
    l_exit e <> Some AtLimit
    /\ (Forall (quiet s) samples ->
        l_exit e = None /\ l_done e = done + Z.of_nat (length samples)).
Proof.
  intros Hlim.
  induction samples as [|f samples IH]; intros i first opcode done cycles; cbv zeta;
    pose proof (to_byte_is_byte (i + 1)) as Hb; unfold is_byte in Hb.
  - simpl run_loop. destruct (Z.leb_spec (to_byte (i + 1)) limit); [|lia].
    simpl. split; [discriminate|]. intros _. split; [reflexivity|lia].
  - split.
    + simpl run_loop. destruct (Z.leb_spec (to_byte (i + 1)) limit); [|lia].
      destruct (breakpoint_hit first s (f_pc f)); [discriminate|].
      destruct (f_rx f); simpl negb; cbv iota; [|discriminate].
      destruct (to_byte (f_opcode f) =? hlt); [discriminate|]. apply IH.
    + intros Hq. apply Forall_cons in Hq as [Hf Hq].
      rewrite run_loop_pass; [|lia | apply quiet_hit, Hf | apply Hf | apply Hf].
      destruct (IH (to_byte (i + 1)) false (to_byte (f_opcode f)) (done + 1)
                   (cycles + cell table (Z.land (to_byte (f_opcode f)) 240))) as [_ H].
      destruct (H Hq) as [H1 H2]. split; [exact H1|]. rewrite H2. simpl length. lia.
Qed.

(** X9.  The counter of the loop is a byte: with a limit of 255 or more,
    as the run command gives for the argument [$FF], the limit never ends the
    run, and the run goes on as long as nothing else stops it. *)
Theorem run_byte_counter_wraps (buffer : list Z) (s : Breakpoints.bp_state)
    (n opcode0 : Z) (samples : list Run.fetch) :
  255 <= n ->
  Run.l_exit (Run.run_until buffer s n opcode0 samples) <> Some Run.AtLimit
  /\ (Forall (quiet s) samples ->
      Run.l_exit (Run.run_until buffer s n opcode0 samples) = None
      /\ Run.l_done (Run.run_until buffer s n opcode0 samples) = Z.of_nat (length samples)).
Proof.
  intros Hn. unfold run_until. rewrite instruction_limit_nonneg by lia.
  destruct (run_loop_wraps (cycles_table buffer) s n samples Hn 0 true opcode0 0 0) as [H1 H2].
  split; [exact H1|]. intros Hq. destruct (H2 Hq) as [H3 H4].
  split; [exact H3|]. rewrite H4. lia.
Qed.

Lemma run_byte_counter_wraps_witness :
  l_exit (run_until (replicate 256 0) no_breakpoints 255 0 (replicate 300 nop_sample)) = None
  /\ l_done (run_until (replicate 256 0) no_breakpoints 255 0 (replicate 300 nop_sample))
     = Z.of_nat (length (replicate 300 nop_sample)).
Proof.
  apply (run_byte_counter_wraps (replicate 256 0) no_breakpoints 255 0
           (replicate 300 nop_sample)); [lia|].
  apply Forall_replicate, nop_sample_quiet.
Defined.

(** One pass with the limit at 1. *)
Lemma run_until_one buffer s opcode0 f rest :
  f_rx f = true -> to_byte (f_opcode f) <> hlt ->
  run_until buffer s 1 opcode0 (f :: rest)
  = LoopEnd (Some AtLimit) (to_byte (f_opcode f)) 1
      (cell (cycles_table buffer) (Z.land (to_byte (f_opcode f)) 0xF0)).
Proof.
  intros Hrx Hop. unfold run_until.
  change (instruction_limit 1) with 1.
  rewrite run_loop_pass; [| change (to_byte (0 + 1)) with 1; lia
                          | apply breakpoint_hit_first | exact Hrx | exact Hop].
  rewrite run_loop_at_limit by (change (to_byte (to_byte (0 + 1) + 1)) with 2; lia).
  reflexivity.
Qed.

(** X10.  A single step, [run(1)], executes the instruction at the program
    counter and stops for the limit even when a breakpoint is set at that
    very address: breakpoints are not looked at on the first instruction.
    The next instruction is not sampled. *)
Theorem run_single_step (buffer : list Z) (s : Breakpoints.bp_state)
    (opcode0 : Z) (f : Run.fetch) (rest rest' : list Run.fetch) :
  Run.f_rx f = true -> to_byte (Run.f_opcode f) <> Run.hlt ->
  Run.l_exit (Run.run_until buffer s 1 opcode0 (f :: rest)) = Some Run.AtLimit
  /\ Run.l_done (Run.run_until buffer s 1 opcode0 (f :: rest)) = 1
  /\ Run.l_opcode (Run.run_until buffer s 1 opcode0 (f :: rest)) = to_byte (Run.f_opcode f)
  /\ Run.run_until buffer s 1 opcode0 (f :: rest)
     = Run.run_until buffer s 1 opcode0 (f :: rest').
Proof.
  intros Hrx Hop. rewrite !run_until_one by assumption.
  repeat split; reflexivity.
Qed.

Lemma run_single_step_witness :
  l_done (run_until (replicate 256 0) (bps two_breakpoints) 1 0 [Fetch 5 true 0x10]) = 1
  /\ Run.breakpoint_hit false (bps two_breakpoints) 5 = true.
Proof.
  split; [|reflexivity].
  apply (run_single_step (replicate 256 0) (bps two_breakpoints) 0 (Fetch 5 true 0x10) [] []).
  - reflexivity.
  - vm_compute. discriminate.
Defined.

(** The table of cycle counts built by [run]: every instruction but those
    with the high nibble [F] takes three cycles after the fetch; the entry
    for the high nibble [F] is left at 0 by the pseudo opcodes that come last
    in the opcode table. *)
Lemma cycles_table_cell buffer op :
  length buffer = 256%nat -> is_byte op ->
  cell (cycles_table buffer) (Z.land op 0xF0)
  = if Z.land op 0xF0 =? 0xF0 then 0 else 3.
Proof.
  intros Hl Hop.
  assert (Hh : Z.land op 0xF0 = 16 * (op / 16)).
  { apply Z.eqb_eq. revert op Hop.
    apply (byte_cases (fun op => Z.land op 0xF0 =? 16 * (op / 16))).
    vm_compute. reflexivity. }
  assert (Hq : op / 16 ∈ seqZ 0 16).
  { apply elem_of_seqZ. unfold is_byte in Hop. split; [apply Z.div_pos; lia|].
    apply Z.div_lt_upper_bound; lia. }
  rewrite Hh. clear Hh. revert Hq. generalize (op / 16). intros q Hq.
  let l := eval vm_compute in (seqZ 0 16) in change (seqZ 0 16) with l in Hq.
  unfold cycles_table, opcodes_4bit. cbn [foldl opcode num_cycles].
  repeat match goal with
         | |- context [Z.land ?a ?b] =>
             let v := eval vm_compute in (Z.land a b) in change (Z.land a b) with v
         end.
  repeat (apply elem_of_cons in Hq as [-> | Hq];
          [ change (16 * _) with ltac:(let v := eval vm_compute in (16 * 0) in exact v) || idtac;
            repeat first [ rewrite cell_insert_eq by (rewrite ?length_insert; lia)
                         | rewrite cell_insert_ne by lia ]; reflexivity |]).
  apply elem_of_nil in Hq. contradiction.
Qed.

Lemma run_loop_cycles table s limit samples :
  (forall op, is_byte op -> Z.land op 0xF0 <> 0xF0 -> cell table (Z.land op 0xF0) = 3) ->
  Forall (fun f => Z.land (to_byte (f_opcode f)) 0xF0 <> 0xF0) samples ->
  forall i first opcode done cycles,
    let e := run_loop table s limit samples i first opcode done cycles in
    l_cycles e - cycles = 3 * (l_done e - done).
Proof.
  intros Ht Hs. induction Hs as [|f samples Hf Hs IH]; intros i first opcode done cycles;
    cbv zeta; simpl run_loop; destruct (to_byte (i + 1) <=? limit);
    cbn [l_cycles l_done]; try lia.
  destruct (breakpoint_hit first s (f_pc f)); cbn [l_cycles l_done]; [lia|].
  destruct (f_rx f); simpl negb; cbv iota; cbn [l_cycles l_done]; [|lia].
  destruct (to_byte (f_opcode f) =? hlt); cbn [l_cycles l_done]; [lia|].
  specialize (IH (to_byte (i + 1)) false (to_byte (f_opcode f)) (done + 1)
                 (cycles + cell table (Z.land (to_byte (f_opcode f)) 0xF0))).
  cbv zeta in IH. rewrite (Ht _ (to_byte_is_byte _) Hf) in *. lia.
Qed.

(** X11.  [run] lets three clock cycles pass after the two fetch cycles of
    every instruction it executes whose high nibble is not [F], whatever the
    buffer held before.  An opcode from [$F1] to [$FF] is not taken for HLT,
    and no cycle is skipped after it. *)
Theorem run_cycles_per_instruction (buffer : list Z) (s : Breakpoints.bp_state)
    (n opcode0 : Z) (samples : list Run.fetch) :
  length buffer = 256%nat ->
  (Forall (fun f => Z.land (to_byte (Run.f_opcode f)) 0xF0 <> 0xF0) samples ->
   Run.l_cycles (Run.run_until buffer s n opcode0 samples)
   = 3 * Run.l_done (Run.run_until buffer s n opcode0 samples))
  /\ (forall f rest,
        Run.f_rx f = true -> to_byte (Run.f_opcode f) <> Run.hlt ->
        Z.land (to_byte (Run.f_opcode f)) 0xF0 = 0xF0 ->
        Run.l_done (Run.run_until buffer s 1 opcode0 (f :: rest)) = 1
        /\ Run.l_cycles (Run.run_until buffer s 1 opcode0 (f :: rest)) = 0).
Proof.
  intros Hl. split.
  - intros Hs. unfold run_until.
    pose proof (run_loop_cycles (cycles_table buffer) s (instruction_limit n) samples) as H.
    cbv zeta in H. rewrite <- (Z.sub_0_r (l_cycles _)), <- (Z.sub_0_r (l_done _)).
    apply H; [|exact Hs].
    intros op Hop Hne. rewrite cycles_table_cell by assumption.
    destruct (Z.eqb_spec (Z.land op 0xF0) 0xF0); [contradiction|reflexivity].
  - intros f rest Hrx Hop Hn. rewrite run_until_one by assumption. cbn [l_done l_cycles].
    split; [reflexivity|].
    rewrite cycles_table_cell by (auto using to_byte_is_byte). rewrite Hn. reflexivity.
Qed.

Lemma run_cycles_per_instruction_witness :
  l_cycles (run_until (replicate 256 9) no_breakpoints 2 0 (replicate 5 nop_sample)) = 6.
Proof.
  destruct (run_cycles_per_instruction (replicate 256 9) no_breakpoints 2 0
              (replicate 5 nop_sample)) as [H _].
  - reflexivity.
  - rewrite H.
    + reflexivity.
    + apply Forall_replicate. vm_compute. discriminate.
Defined.

End RunCounts.

(** ** Memory commands and RAM images *)

Section MemoryCommands.
Import Target Eeprom Memory.

Lemma wait_clock_high_ram t : pin_ri t = false -> ram (wait_clock_high t) = ram t.
Proof.
  destruct t as [r m c mi ri ro bo bp]. simpl. intros ->.
  destruct c; target_simpl; reflexivity.
Qed.

Lemma store_bytes_bytes data p r :
  Forall is_byte r -> Forall is_byte (store_bytes data p r).
Proof.
  revert p r. induction data as [|d data IH]; intros p r Hr; simpl; [exact Hr|].
  apply IH, Forall_insert; [exact Hr | apply to_byte_is_byte].
Qed.

Lemma write_ram_ok t data start :
  target_ok t ->
  ram (write_ram t data start) = store_bytes data (to_byte start) (ram t)
  /\ target_ok (write_ram t data start).
Proof.
  intros (Hl & Hb & Hri).
  destruct (write_ram_spec t data start) as [H1 H2]. cbv zeta in H1, H2.
  rewrite wait_clock_high_ram in H1 by exact Hri.
  split; [exact H1|]. unfold target_ok. rewrite H1, store_bytes_length.
  split; [exact Hl|]. split; [apply store_bytes_bytes, Hb | exact H2].
Qed.

Lemma read_ram_ok t start n :
  target_ok t -> 0 <= n ->
  (read_ram t start n).2 = map (fun k => cell (ram t) ((start + k) mod 16)) (seqZ 0 n)
  /\ ram (read_ram t start n).1 = ram t
  /\ target_ok (read_ram t start n).1.
Proof.
  intros Hok Hn. pose proof Hok as (Hl & Hb & Hri).
  destruct (read_ram_spec t start (Z.to_nat n) Hri) as (H1 & H2 & H3).
  { intros k _. apply target_ok_cell, Hok. }
  rewrite Z2Nat.id in H1, H2, H3 by lia.
  split; [exact H1|]. split; [exact H2|]. unfold target_ok. rewrite H2.
  split; [exact Hl|]. split; [exact Hb | exact H3].
Qed.

Lemma cells_eq (a b : list Z) :
  length a = length b ->
  (forall q, 0 <= q < Z.of_nat (length a) -> cell a q = cell b q) -> a = b.
Proof.
  intros Hl Hc. apply (list_eq_same_length a b (length a)); [symmetry; exact Hl|reflexivity|].
  intros i x y Hi Hx Hy. specialize (Hc (Z.of_nat i) ltac:(lia)).
  unfold cell in Hc. rewrite Nat2Z.id, Hx, Hy in Hc. exact Hc.
Qed.

(** Reading the whole RAM gives its cells in order. *)
Lemma ram_cells (r : list Z) :
  length r = 16%nat -> map (fun k => cell r ((0 + k) mod 16)) (seqZ 0 16) = r.
Proof.
  intros Hl. do 16 (destruct r as [|? r]; [discriminate Hl|]).
  destruct r; [reflexivity|discriminate Hl].
Qed.

(** Writing sixteen bytes from address 0 replaces the whole RAM. *)
Lemma store_bytes_full data r :
  length data = 16%nat -> length r = 16%nat -> store_bytes data 0 r = map to_byte data.
Proof.
  intros Hd Hr. apply cells_eq.
  - rewrite store_bytes_length, length_map. congruence.
  - rewrite store_bytes_length, Hr. intros q Hq.
    replace q with ((0 + q) mod 16) at 1 by (rewrite Z.mod_small; lia).
    rewrite store_bytes_cell by lia. unfold cell.
    rewrite list_lookup_fmap. destruct (data !! Z.to_nat q) eqn:E; [reflexivity|].
    apply lookup_ge_None in E. lia.
Qed.

Lemma fill_length (v : Z) (l : list Z) b :
  length (foldl (fun b i => <[Z.to_nat i := v]> b) b l) = length b.
Proof.
  revert b. induction l as [|i l IH]; intros b; simpl; [reflexivity|].
  rewrite IH. apply length_insert.
Qed.

Lemma fill_take (v : Z) (n : nat) b :
  (n <= length b)%nat ->
  take n (foldl (fun b i => <[Z.to_nat i := v]> b) b (seqZ 0 (Z.of_nat n))) = replicate n v.
Proof.
  intros Hn. induction n as [|n IH]; [reflexivity|].
  rewrite seqZ_S, foldl_app. cbn [foldl]. rewrite Z.add_0_l, Nat2Z.id.
  rewrite (take_S_r _ _ v).
  - rewrite take_insert_ge by lia. rewrite IH by lia.
    clear. induction n as [|n IH]; [reflexivity|]. simpl. rewrite IH. reflexivity.
  - apply list_lookup_insert_eq. rewrite fill_length. lia.
Qed.

(** A cell that holds the fill value keeps it. *)
Lemma store_fill_keeps (v : Z) n p r q :
  0 <= q -> cell r q = to_byte v -> cell (store_bytes (replicate n v) p r) q = to_byte v.
Proof.
  revert p r. induction n as [|n IH]; intros p r Hq Hc; simpl; [exact Hc|].
  apply IH; [exact Hq|]. destruct (decide (p mod 16 = q)) as [<-|Hne].
  - unfold cell in *. destruct (decide (Z.to_nat (p mod 16) < length r)%nat).
    + rewrite list_lookup_insert_eq by lia. reflexivity.
    + rewrite list_insert_ge by lia. exact Hc.
  - rewrite cell_insert_ne; [exact Hc | apply Z.mod_pos_bound; lia | exact Hq | exact Hne].
Qed.

Lemma store_fill_cell (v : Z) n p r q k :
  length r = 16%nat -> 0 <= k < Z.of_nat n -> (p + k) mod 16 = q ->
  cell (store_bytes (replicate n v) p r) q = to_byte v.
Proof.
  revert p r k. induction n as [|n IH]; intros p r k Hr Hk Hq; [simpl in Hk; lia|].
  simpl. pose proof (Z.mod_pos_bound (p + k) 16 ltac:(lia)).
  destruct (decide (k = 0)) as [->|Hne].
  - apply store_fill_keeps; [lia|]. rewrite Z.add_0_r in Hq. rewrite <- Hq.
    apply cell_insert_eq. rewrite Z.add_0_r in *. lia.
  - apply (IH _ _ (k - 1)); [rewrite length_insert; exact Hr | lia |].
    replace (p + 1 + (k - 1)) with (p + k) by lia. exact Hq.
Qed.

(** X12.  [memory_clear(s, e, v)] sets every RAM cell that an address from
    [s] to [e] selects to [v] and leaves the other cells as they were; with
    [e] below [s] it changes nothing. *)
Theorem memory_clear_cells (s e v : Z) (m : Memory.machine) :
  target_ok (Memory.hw m) -> length (Memory.buffer m) = 256%nat ->
  is_byte s -> is_byte e -> is_byte v ->
  forall q, 0 <= q < 16 ->
    ((exists a, s <= a <= e /\ a mod 16 = q) ->
     cell (Target.ram (Memory.hw (Memory.memory_clear s e v m))) q = v)
    /\ ((forall a, s <= a <= e -> a mod 16 <> q) ->
        cell (Target.ram (Memory.hw (Memory.memory_clear s e v m))) q
        = cell (Target.ram (Memory.hw m)) q).
Proof.
  intros Hok Hlen Hs He Hv q Hq. unfold is_byte in Hs, He.
  unfold memory_clear. cbn [hw print println]. unfold write_from_buffer.
  cbn [hw buffer set_buffer set_hw].
  destruct (write_ram_ok (hw m)
              (take (Z.to_nat (e - s + 1))
                 (foldl (fun b i => <[Z.to_nat i := v]> b) (buffer m) (seqZ 0 (e - s + 1))))
              s Hok) as [Hram _].
  rewrite Hram. clear Hram. rewrite (to_byte_id s) by exact Hs.
  destruct (Z.le_gt_cases (e - s + 1) 0) as [Hn|Hn].
  { replace (Z.to_nat (e - s + 1)) with 0%nat by lia. simpl. split; [|reflexivity].
    intros (a & Ha & _). lia. }
  rewrite <- (Z2Nat.id (e - s + 1)) at 2 by lia.
  rewrite <- (Z2Nat.id (e - s + 1)) at 4 by lia.
  rewrite !fill_take by lia.
  split.
  - intros (a & Ha & Haq). rewrite <- (to_byte_id v Hv) at 2.
    apply (store_fill_cell v _ s _ q (a - s)); [apply Hok | lia |].
    replace (s + (a - s)) with a by lia. exact Haq.
  - intros Hno. apply store_bytes_other; [exact Hq|].
    intros k Hk. rewrite length_replicate in Hk. apply Hno. lia.
Qed.

Lemma memory_clear_cells_witness :
  cell (ram (hw (memory_clear 3 5 0xAA (Machine (replicate 256 0) ∅ blank_target EmptyString)))) 4
  = 0xAA.
Proof.
  apply (memory_clear_cells 3 5 0xAA (Machine (replicate 256 0) ∅ blank_target EmptyString));
    try (unfold is_byte; lia).
  - exact blank_target_ok.
  - reflexivity.
  - exists 4. split; [lia | reflexivity].
Defined.





Lemma hw_print s m : hw (print s m) = hw m.
Proof. reflexivity. Qed.
Lemma hw_println s m : hw (println s m) = hw m.
Proof. reflexivity. Qed.
Lemma hw_set_store e m : hw (set_store e m) = hw m.
Proof. reflexivity. Qed.
Lemma hw_set_buffer b m : hw (set_buffer b m) = hw m.
Proof. reflexivity. Qed.
Lemma hw_set_hw t m : hw (set_hw t m) = t.
Proof. reflexivity. Qed.
Lemma store_print s m : store (print s m) = store m.
Proof. reflexivity. Qed.
Lemma store_println s m : store (println s m) = store m.
Proof. reflexivity. Qed.
Lemma store_set_store e m : store (set_store e m) = e.
Proof. reflexivity. Qed.
Lemma buffer_print s m : buffer (print s m) = buffer m.
Proof. reflexivity. Qed.
Lemma buffer_println s m : buffer (println s m) = buffer m.
Proof. reflexivity. Qed.
Lemma out_print s m : out (print s m) = (out m ++ s)%string.
Proof. reflexivity. Qed.
Lemma out_println s m : out (println s m) = (out m ++ s ++ CRLF)%string.
Proof. reflexivity. Qed.

Lemma store_read_to_buffer start len m : store (read_to_buffer start len m) = store m.
Proof. reflexivity. Qed.

Create Rewrite HintDb machine.

Hint Rewrite hw_print hw_println hw_set_store hw_set_buffer hw_set_hw store_print
  store_println store_set_store buffer_print buffer_println out_print out_println store_read_to_buffer : machine.

(** The store after [write_eeprom] has copied [n] bytes to [start]. *)
Lemma eeprom_block_read e (buffer : list Z) start (n : nat) idx :
  0 <= start -> start + Z.of_nat n <= 65536 ->
  EEPROM_read (foldl (fun e i => EEPROM_write e (to_uint (start + i)) (cell buffer i))
                     e (seqZ 0 (Z.of_nat n))) idx
  = if decide (start <= idx < start + Z.of_nat n) then to_byte (cell buffer (idx - start))
    else EEPROM_read e idx.
Proof.
  intros Hs. induction n as [|n IH]; intros Hn.
  { simpl. case_decide; [lia|reflexivity]. }
  rewrite seqZ_S, foldl_app. cbn [foldl]. rewrite EEPROM_read_write, IH by lia.
  rewrite Z.add_0_l. unfold to_uint. rewrite Z.mod_small by lia.
  repeat case_decide; try lia; try reflexivity.
  subst idx. f_equal. f_equal. lia.
Qed.

Lemma read_to_buffer_ok start len m :
  target_ok (hw m) -> 0 <= len ->
  buffer (read_to_buffer start len m)
  = map (fun k => cell (ram (hw m)) ((start + k) mod 16)) (seqZ 0 len)
    ++ drop (Z.to_nat len) (buffer m)
  /\ ram (hw (read_to_buffer start len m)) = ram (hw m)
  /\ target_ok (hw (read_to_buffer start len m))
  /\ store (read_to_buffer start len m) = store m.
Proof.
  intros Hok Hlen. destruct (read_ram_ok (hw m) start len Hok Hlen) as (H1 & H2 & H3).
  unfold read_to_buffer. cbn [buffer hw store set_buffer set_hw].
  rewrite H1 at 1. rewrite H1, length_map, length_seqZ.
  split; [reflexivity|]. split; [exact H2|]. split; [exact H3 | reflexivity].
Qed.

Lemma slot_guard num : 0 <= num <= 61 -> (to_uint (num * 16 + 16) <? 1024 - 16) = true.
Proof. intros H. unfold to_uint. rewrite Z.mod_small by lia. apply Z.ltb_lt. lia. Qed.

Lemma slot_guard_refused num :
  62 <= num <= 255 -> (to_uint (num * 16 + 16) <? 1024 - 16) = false.
Proof. intros H. unfold to_uint. rewrite Z.mod_small by lia. apply Z.ltb_ge. lia. Qed.

(** What [save_ram_image] leaves in the EEPROM and in the RAM. *)
Lemma save_ram_image_store p num m :
  target_ok (hw m) -> 0 <= num <= 61 ->
  (forall idx,
     EEPROM_read (store (save_ram_image p num true m)) idx
     = if decide (num * 16 <= idx < num * 16 + 16)
       then cell (ram (hw m)) (idx - num * 16) else EEPROM_read (store m) idx)
  /\ ram (hw (save_ram_image p num true m)) = ram (hw m)
  /\ target_ok (hw (save_ram_image p num true m)).
Proof.
  intros Hok Hnum.
  assert (Hgen : forall m0, target_ok (hw m0) ->
    let m1 := read_to_buffer 0 16 m0 in
    let w := write_eeprom (store m1) (buffer m1) true (num * 16) 16 in
    w.2 = true
    /\ (forall idx, EEPROM_read w.1 idx
          = if decide (num * 16 <= idx < num * 16 + 16)
            then cell (ram (hw m0)) (idx - num * 16) else EEPROM_read (store m0) idx)
    /\ ram (hw m1) = ram (hw m0) /\ target_ok (hw m1)).
  { intros m0 Hok0. cbv zeta.
    destruct (read_to_buffer_ok 0 16 m0 Hok0 ltac:(lia)) as (Hb & Hr & Hok1 & Hst).
    unfold write_eeprom. rewrite slot_guard by exact Hnum. cbn [andb fst snd].
    split; [reflexivity|]. split; [|split; assumption].
    intros idx. rewrite (eeprom_block_read _ _ (num * 16) 16 idx) by lia.
    change (Z.of_nat 16) with 16.
    rewrite Hst. case_decide as Hin; [|reflexivity].
    rewrite Hb, ram_cells by apply Hok0.
    unfold cell at 1. rewrite lookup_app_l by (destruct Hok0 as (-> & _); lia).
    fold (cell (ram (hw m0)) (idx - num * 16)).
    apply to_byte_id, target_ok_cell, Hok0. }
  unfold save_ram_image, save_data, image_banner.
  destruct p.
  - change (16 >? BUFFER_SIZE) with false. cbv iota zeta.
    match goal with |- context [read_to_buffer 0 16 ?x] => set (m0 := x) end.
    assert (Hok0 : target_ok (hw m0)).
    { unfold m0. autorewrite with machine. exact Hok. }
    assert (Hs0 : store m0 = store m /\ ram (hw m0) = ram (hw m)).
    { unfold m0. autorewrite with machine. split; reflexivity. }
    destruct Hs0 as [Hs0 Hr0].
    destruct (Hgen m0 Hok0) as (Hw & Hidx & Hr & Hok1). cbv zeta in Hw, Hidx, Hr, Hok1.
    rewrite Hw. autorewrite with machine.
    rewrite Hs0, Hr0 in *. split; [exact Hidx|]. split; [exact Hr | exact Hok1].
  - cbv iota zeta.
    destruct (Hgen m Hok) as (Hw & Hidx & Hr & Hok1). cbv zeta in Hw, Hidx, Hr, Hok1.
    autorewrite with machine. split; [exact Hidx|]. split; [exact Hr | exact Hok1].
Qed.

(** What [load_ram_image] writes to the RAM. *)
Lemma load_ram_image_ram p num m :
  target_ok (hw m) -> (16 <= length (buffer m))%nat -> 0 <= num <= 61 ->
  ram (hw (load_ram_image p num true m))
  = map (fun i => to_byte (EEPROM_read (store m) (num * 16 + i))) (seqZ 0 16).
Proof.
  intros Hok Hlen Hnum.
  assert (Hgen : forall m0, target_ok (hw m0) -> (16 <= length (buffer m0))%nat ->
    let r := read_eeprom_to_buffer true (num * 16) 16 m0 in
    r.2 = true /\ hw r.1 = hw m0 /\ out r.1 = out m0
    /\ ram (hw (write_from_buffer 0 16 r.1))
       = map (fun i => to_byte (EEPROM_read (store m0) (num * 16 + i))) (seqZ 0 16)).
  { intros m0 Hok0 Hlen0. cbv zeta. unfold read_eeprom_to_buffer, read_eeprom.
    rewrite slot_guard by exact Hnum. cbn [andb fst snd hw out set_buffer].
    split; [reflexivity|]. split; [reflexivity|]. split; [reflexivity|].
    unfold write_from_buffer. cbn [hw buffer set_hw set_buffer].
    destruct (write_ram_ok (hw m0)
      (take (Z.to_nat 16)
         (map (fun i => EEPROM_read (store m0) (to_uint (num * 16 + i))) (seqZ 0 16)
          ++ drop (length (map (fun i => EEPROM_read (store m0) (to_uint (num * 16 + i)))
                     (seqZ 0 16))) (buffer m0))) 0 Hok0) as [Hr _].
    rewrite Hr. clear Hr. rewrite take_app_le by (rewrite length_map, length_seqZ; lia).
    rewrite take_ge by (rewrite length_map, length_seqZ; lia).
    change (to_byte 0) with 0.
    rewrite store_bytes_full; [| rewrite length_map, length_seqZ; reflexivity | apply Hok0].
    rewrite map_map. apply map_ext_in. intros i Hi.
    apply list_elem_of_In, elem_of_seqZ in Hi.
    unfold to_uint. rewrite Z.mod_small by lia. reflexivity. }
  unfold load_ram_image, load_data, image_banner. destruct p.
  - change (16 >? BUFFER_SIZE) with false. cbv iota.
    set (m0 := println _ (print _ m)).
    destruct (Hgen m0 Hok Hlen) as (H1 & H2 & H3 & H4). cbv zeta in H1, H2, H3, H4.
    rewrite H1. cbn [hw print println]. exact H4.
  - destruct (Hgen m Hok Hlen) as (_ & _ & _ & H4). exact H4.
Qed.

(** X14.  A RAM image saved in one of the slots 0 to 61 and loaded again
    from an EEPROM that holds what the save left there puts back the RAM
    content that was saved, whatever the RAM and the buffer hold by then. *)
Theorem ram_image_roundtrip (p p' : bool) (num : Z) (m m' : Memory.machine) :
  target_ok (Memory.hw m) -> target_ok (Memory.hw m') ->
  (16 <= length (Memory.buffer m'))%nat ->
  0 <= num <= 61 ->
  Memory.store m' = Memory.store (Memory.save_ram_image p num true m) ->
  Target.ram (Memory.hw (Memory.load_ram_image p' num true m')) = Target.ram (Memory.hw m).
Proof.
  intros Hok Hok' Hlen Hnum Hst.
  rewrite load_ram_image_ram by assumption. rewrite Hst.
  destruct (save_ram_image_store p num m Hok Hnum) as (Hidx & _ & _).
  etransitivity; [|apply ram_cells, Hok].
  apply map_ext_in. intros i Hi. apply list_elem_of_In, elem_of_seqZ in Hi.
  rewrite Hidx. rewrite decide_True by lia.
  replace (num * 16 + i - num * 16) with i by lia.
  rewrite Z.add_0_l, Z.mod_small by lia.
  apply to_byte_id, target_ok_cell, Hok.
Qed.

Lemma ram_image_roundtrip_witness :
  let m := Machine (replicate 256 0) ∅ (write_ram blank_target [0x1E; 0x2F; 0xE0; 0xF0] 0)
                   EmptyString in
  let m' := Machine (replicate 256 7) (store (save_ram_image true 5 true m)) blank_target
                    EmptyString in
  ram (hw (load_ram_image false 5 true m')) = ram (hw m).
Proof.
  cbv zeta. apply ram_image_roundtrip with (p := true).
  - apply write_ram_ok, blank_target_ok.
  - exact blank_target_ok.
  - cbn [buffer]. rewrite length_replicate. lia.
  - lia.
  - reflexivity.
Defined.

(** X15.  [save_ram_image] never changes an EEPROM cell outside the
    sixteen cells of its slot; a slot number above 61 changes none. *)
Theorem save_ram_image_elsewhere (p : bool) (num : Z) (m : Memory.machine) :
  target_ok (Memory.hw m) -> is_byte num ->
  (forall idx, ~ (num * 16 <= idx < num * 16 + 16) ->
     Eeprom.EEPROM_read (Memory.store (Memory.save_ram_image p num true m)) idx
     = Eeprom.EEPROM_read (Memory.store m) idx)
  /\ (62 <= num -> Memory.store (Memory.save_ram_image p num true m) = Memory.store m).
Proof.
  intros Hok Hnum. unfold is_byte in Hnum.
  assert (Hbig : 62 <= num -> store (save_ram_image p num true m) = store m).
  { intros Hn. unfold save_ram_image, save_data, image_banner, write_eeprom.
    rewrite slot_guard_refused by lia. cbn [andb fst snd].
    destruct p.
    - change (16 >? BUFFER_SIZE) with false. cbv iota zeta.
      autorewrite with machine. reflexivity.
    - cbv iota zeta. autorewrite with machine. reflexivity. }
  split; [|exact Hbig].
  intros idx Hout. destruct (Z.le_gt_cases 62 num) as [Hn|Hn].
  - rewrite Hbig by exact Hn. reflexivity.
  - destruct (save_ram_image_store p num m Hok ltac:(lia)) as (Hidx & _).
    rewrite Hidx. rewrite decide_False by exact Hout. reflexivity.
Qed.

Lemma save_ram_image_elsewhere_witness :
  EEPROM_read (store (save_ram_image true 5 true
                 (Machine (replicate 256 0) (Breakpoints.eeprom two_breakpoints) blank_target EmptyString)))
              1022
  = 2.
Proof.
  destruct (save_ram_image_elsewhere true 5
              (Machine (replicate 256 0) (Breakpoints.eeprom two_breakpoints) blank_target EmptyString))
    as [H _].
  - exact blank_target_ok.
  - unfold is_byte. lia.
  - rewrite H by lia. reflexivity.
Defined.

(** X16.  Loading from a slot above 61 is refused.  With serial output on
    the target is left alone and the error is reported; with serial output
    off the first sixteen bytes of the buffer, which the refused read has
    not filled, are written to the RAM all the same. *)
Theorem load_ram_image_refused (num : Z) (m : Memory.machine) :
  target_ok (Memory.hw m) -> (16 <= length (Memory.buffer m))%nat ->
  62 <= num <= 255 ->
  Memory.hw (Memory.load_ram_image true num true m) = Memory.hw m
  /\ Memory.out (Memory.load_ram_image true num true m)
     = (Memory.out m ++ "Invalid RAM image number: " ++ (print_dec num ++ CRLF)
          ++ "[Error: exceeded EEPROM address space" ++ CRLF)%string
  /\ Target.ram (Memory.hw (Memory.load_ram_image false num true m))
     = map to_byte (take 16 (Memory.buffer m)).
Proof.
  intros Hok Hlen Hnum.
  unfold load_ram_image, load_data, image_banner, read_eeprom_to_buffer, read_eeprom.
  rewrite slot_guard_refused by exact Hnum.
  destruct (Z.ltb_spec num 16) as [Hlt|_]; [lia|].
  change (16 >? BUFFER_SIZE) with false. cbn [andb fst snd]. cbv iota.
  cbn [hw out print println]. split; [reflexivity|]. split.
  - rewrite !append_assoc. reflexivity.
  - unfold write_from_buffer. cbn [hw set_hw].
    destruct (write_ram_ok (hw m) (take (Z.to_nat 16) (buffer m)) 0 Hok) as [Hr _].
    rewrite Hr. change (to_byte 0) with 0. change (Z.to_nat 16) with 16%nat.
    apply store_bytes_full; [rewrite length_take; lia | apply Hok].
Qed.

Lemma load_ram_image_refused_witness :
  ram (hw (load_ram_image false 62 true (Machine (replicate 256 7) ∅ blank_target EmptyString)))
  = replicate 16 7.
Proof.
  destruct (load_ram_image_refused 62 (Machine (replicate 256 7) ∅ blank_target EmptyString))
    as (_ & _ & H).
  - exact blank_target_ok.
  - cbn [buffer]. rewrite length_replicate. lia.
  - lia.
  - rewrite H. reflexivity.
Defined.

End MemoryCommands.

(** ** Console input *)

Section ConsoleInput.
Import Console.

Lemma read_hex_char_skip first junk input :
  Forall (fun c => skipped first c = true) junk ->
  read_hex_char first (junk ++ input) = read_hex_char first input.
Proof.
  intros Hj. induction Hj as [|c junk Hc Hj IH]; [reflexivity|].
  cbn [app read_hex_char]. unfold skipped in Hc.
  apply andb_true_iff in Hc as [Hc H3]. apply andb_true_iff in Hc as [H1 H2].
  apply Z.ltb_lt in H1. apply negb_true_iff in H2.
  destruct (Z.geb_spec (hex_char_to_byte c) 0); [lia|].
  rewrite H2. destruct first; cbn [negb andb orb] in *; [exact IH|].
  apply negb_true_iff in H3. rewrite H3. exact IH.
Qed.

Lemma read_hex_char_digit first c input :
  0 <= hex_char_to_byte c ->
  read_hex_char first (c :: input) = Some (hex_char_to_byte c, text [c], input).
Proof.
  intros Hc. cbn [read_hex_char].
  destruct (Z.geb_spec (hex_char_to_byte c) 0); [reflexivity|lia].
Qed.

Lemma hex_char_to_byte_range c : -1 <= hex_char_to_byte c < 16.
Proof.
  unfold hex_char_to_byte, in_range.
  repeat match goal with
         | |- context [Z.leb ?a ?b] => destruct (Z.leb_spec a b)
         end; cbn [andb]; cbv iota; lia.
Qed.

(** What [read_hex_char] can return, and that it takes its characters
    from the front of the input. *)
Lemma read_hex_char_result first input cv o rest :
  read_hex_char first input = Some (cv, o, rest) ->
  (0 <= cv < 16 \/ cv = -2 \/ (cv = -1 /\ first = false))
  /\ exists used, used <> [] /\ input = used ++ rest.
Proof.
  revert cv o rest. induction input as [|c input IH]; intros cv o rest; [discriminate|].
  cbn [read_hex_char]. pose proof (hex_char_to_byte_range c) as Hr.
  destruct (Z.geb_spec (hex_char_to_byte c) 0).
  { intros [= <- <- <-]. split; [left; lia|]. exists [c]. split; [discriminate|reflexivity]. }
  destruct (negb first && ((c =? 32) || (c =? 13))) eqn:E.
  { intros [= <- <- <-]. split.
    - right. right. split; [reflexivity|]. destruct first; [discriminate|reflexivity].
    - exists [c]. split; [discriminate|reflexivity]. }
  destruct (c =? 27).
  { intros [= <- <- <-]. split; [right; left; reflexivity|].
    exists [c]. split; [discriminate|reflexivity]. }
  intros Hrec. destruct (IH _ _ _ Hrec) as [H1 (used & Hu & ->)].
  split; [exact H1|]. exists (c :: used). split; [discriminate|reflexivity].
Qed.

(** Two hexadecimal digits, with characters that are passed over. *)
Lemma serial_read_byte_hex c1 c2 junk1 junk2 rest :
  0 <= hex_char_to_byte c1 -> 0 <= hex_char_to_byte c2 ->
  Forall (fun c => skipped true c = true) junk1 ->
  Forall (fun c => skipped false c = true) junk2 ->
  serial_read_byte (junk1 ++ c1 :: junk2 ++ c2 :: rest)
  = Some (hex_char_to_byte c1 * 16 + hex_char_to_byte c2, text [c1; c2], rest).
Proof.
  intros Hc1 Hc2 H1 H2. unfold serial_read_byte.
  rewrite read_hex_char_skip, read_hex_char_digit by assumption.
  destruct (Z.eqb_spec (hex_char_to_byte c1) (-2)); [lia|].
  destruct (Z.ltb_spec (hex_char_to_byte c1) 0); [lia|].
  rewrite read_hex_char_skip, read_hex_char_digit by assumption.
  destruct (Z.eqb_spec (hex_char_to_byte c2) (-2)); [lia|].
  destruct (Z.ltb_spec (hex_char_to_byte c2) 0); [lia|].
  reflexivity.
Qed.

Lemma serial_read_byte_dec2hex v rest :
  is_byte v -> serial_read_byte (codes (dec2hex v) ++ rest) = Some (v, dec2hex v, rest).
Proof.
  intros Hv. rewrite codes_dec2hex by exact Hv. unfold is_byte in Hv.
  assert (Hh : 0 <= v / 16 < 16)
    by (split; [apply Z.div_pos; lia | apply Z.div_lt_upper_bound; lia]).
  pose proof (Z.mod_pos_bound v 16 ltac:(lia)) as Hl.
  destruct (hex_digit_range _ Hh) as [_ E1]. destruct (hex_digit_range _ Hl) as [_ E2].
  pose proof (serial_read_byte_hex (hex_digit (v / 16)) (hex_digit (v mod 16)) [] [] rest) as R.
  cbn [app] in R |- *. rewrite R by (rewrite ?E1, ?E2; auto; lia). clear R.
  rewrite E1, E2.
  assert (Ev : v / 16 * 16 + v mod 16 = v) by (pose proof (Z.div_mod v 16 ltac:(lia)); lia).
  rewrite Ev. unfold dec2hex. rewrite to_byte_id by exact Hv. reflexivity.
Qed.

(** X17.  [serial_read_byte] reads back a byte typed as the two digits
    that [dec2hex] prints for it, and echoes them; characters that are no
    hexadecimal digits are passed over, before and between the digits. *)
Theorem serial_read_byte_roundtrip (v : Z) (junk1 junk2 rest : list Z) :
  is_byte v ->
  Forall (fun c => skipped true c = true) junk1 ->
  Forall (fun c => skipped false c = true) junk2 ->
  Console.serial_read_byte
    (junk1 ++ hex_digit (v / 16) :: junk2 ++ hex_digit (v mod 16) :: rest)
  = Some (v, dec2hex v, rest).
Proof.
  intros Hv H1 H2. unfold is_byte in Hv.
  assert (Hh : 0 <= v / 16 < 16)
    by (split; [apply Z.div_pos; lia | apply Z.div_lt_upper_bound; lia]).
  pose proof (Z.mod_pos_bound v 16 ltac:(lia)) as Hl.
  destruct (hex_digit_range _ Hh) as [_ E1]. destruct (hex_digit_range _ Hl) as [_ E2].
  rewrite serial_read_byte_hex by (rewrite ?E1, ?E2; auto; lia).
  rewrite E1, E2.
  assert (Ev : v / 16 * 16 + v mod 16 = v) by (pose proof (Z.div_mod v 16 ltac:(lia)); lia).
  rewrite Ev. unfold dec2hex. rewrite to_byte_id by exact Hv. reflexivity.
Qed.

Lemma serial_read_byte_roundtrip_witness :
  serial_read_byte (codes "x a-5 rest") = Some (0xA5, "a5"%string, codes " rest").
Proof.
  apply (serial_read_byte_roundtrip 0xA5 (codes "x ") (codes "-") (codes " rest")).
  - unfold is_byte. lia.
  - vm_compute. repeat constructor.
  - vm_compute. repeat constructor.
Defined.

(** X18.  [serial_read_byte] returns -1 or a byte, and what it leaves of
    the input is what followed the characters it took.  The first character
    it accepts is a digit or ESC, so the branch that prints [00] for an empty
    entry is never taken. *)
Theorem serial_read_byte_result (input : list Z) (d : Z) (o : string) (rest : list Z) :
  Console.serial_read_byte input = Some (d, o, rest) ->
  (d = -1 \/ is_byte d)
  /\ (exists used, used <> [] /\ input = used ++ rest)
  /\ (forall cv o' r, Console.read_hex_char true input = Some (cv, o', r) -> cv <> -1).
Proof.
  intros H.
  assert (H3 : forall cv o' r, read_hex_char true input = Some (cv, o', r) -> cv <> -1).
  { intros cv o' r Hr. apply read_hex_char_result in Hr as [[?|[?|[_ ?]]] _];
      [lia | lia | discriminate]. }
  cut ((d = -1 \/ is_byte d) /\ exists used, used <> [] /\ input = used ++ rest).
  { intros [A B]. split; [exact A | split; [exact B | exact H3]]. }
  clear H3. revert H. unfold serial_read_byte.
  destruct (read_hex_char true input) as [[[cv1 o1] in1]|] eqn:E1; [|discriminate].
  apply read_hex_char_result in E1 as [R1 (u1 & Hu1 & ->)].
  destruct (Z.eqb_spec cv1 (-2)).
  { intros [= <- <- <-]. split; [left; reflexivity|].
    exists u1. split; [assumption|reflexivity]. }
  destruct (Z.ltb_spec cv1 0); [destruct R1 as [?|[?|[_ ?]]]; [lia | lia | discriminate]|].
  destruct (read_hex_char false in1) as [[[cv2 o2] in2]|] eqn:E2; [|discriminate].
  apply read_hex_char_result in E2 as [R2 (u2 & Hu2 & ->)].
  assert (Hused : u1 ++ u2 <> []) by (destruct u1; [contradiction|discriminate]).
  assert (Hsplit : exists used, used <> [] /\ u1 ++ u2 ++ in2 = used ++ in2).
  { exists (u1 ++ u2). split; [assumption|apply app_assoc]. }
  destruct (Z.eqb_spec cv2 (-2)).
  { intros [= <- <- <-]. split; [left; reflexivity | exact Hsplit]. }
  destruct (Z.ltb_spec cv2 0); intros [= <- <- <-];
    (split; [right; unfold is_byte; lia | exact Hsplit]).
Qed.

Lemma serial_read_byte_result_witness :
  exists used, used <> [] /\ codes "7 12" = used ++ codes "12".
Proof.
  apply (serial_read_byte_result (codes "7 12") 7
           (text [55] ++ EmptyString ++ text [127] ++ dec2hex 7)%string (codes "12")).
  reflexivity.
Defined.

End ConsoleInput.

(** ** Typing bytes into the RAM *)

Section MemoryUpdate.
Import Target Memory Console.

Lemma memory_update_loop_S fuel a i e input m :
  memory_update_loop (S fuel) a i e input m
  = if a + i <=? e then
      let m := if i mod 16 =? 0 then
                 print ": " (print (dec2hex (a + i))
                                   (if i >? 0 then println EmptyString m else m))
               else if i mod 16 =? 8 then print " " m
               else m in
      match serial_read_byte input with
      | None => None
      | Some (d, echo, input') =>
          let m := print echo m in
          if d <? 0 then Some (m, input')
          else
            let m := print " " m in
            let b := to_byte d in
            let m := set_hw (write_ram (hw m) [b] (a + i)) m in
            memory_update_loop fuel a (i + 1) e input' m
      end
    else Some (m, input).
Proof. reflexivity. Qed.

Lemma prompt_hw (c1 c2 c3 : bool) s1 s2 s3 s4 m :
  hw (if c1 then print s1 (print s2 (if c2 then println s3 m else m))
      else if c3 then print s4 m else m) = hw m.
Proof. destruct c1, c2, c3; reflexivity. Qed.

Lemma serial_read_byte_esc rest :
  serial_read_byte (27 :: rest) = Some (-1, EmptyString, rest).
Proof. reflexivity. Qed.

Lemma memory_update_loop_spec a rest bytes :
  0 <= a -> Forall is_byte bytes ->
  forall fuel i m,
    target_ok (hw m) -> 0 <= i -> a + i + Z.of_nat (length bytes) <= 16 ->
    (length bytes < fuel)%nat ->
    exists m',
      memory_update_loop fuel a i 15
        (typed bytes ++ (if a + i + Z.of_nat (length bytes) =? 16 then rest else 27 :: rest)) m
      = Some (m', rest)
      /\ ram (hw m') = store_bytes bytes (a + i) (ram (hw m))
      /\ target_ok (hw m').
Proof.
  intros Ha Hb. induction Hb as [|b bytes Hb Hbs IH]; intros fuel i m Hok Hi Hfit Hfuel;
    (destruct fuel as [|fuel]; [simpl in Hfuel; lia|]); rewrite memory_update_loop_S.
  - cbn [length typed flat_map app] in *. rewrite Z.add_0_r in *.
    destruct (Z.eqb_spec (a + i) 16) as [E|E].
    + destruct (Z.leb_spec (a + i) 15); [lia|].
      exists m. split; [reflexivity|]. split; [reflexivity|exact Hok].
    + destruct (Z.leb_spec (a + i) 15); [|lia]. cbv zeta.
      rewrite serial_read_byte_esc. change (-1 <? 0) with true. cbv iota.
      eexists. split; [reflexivity|]. rewrite hw_print, prompt_hw.
      split; [reflexivity|exact Hok].
  - cbn [length] in Hfit, Hfuel. cbn [typed flat_map]. fold (typed bytes).
    rewrite <- app_assoc.
    destruct (Z.leb_spec (a + i) 15); [|lia]. cbv zeta.
    rewrite serial_read_byte_dec2hex by exact Hb.
    destruct (Z.ltb_spec b 0); [unfold is_byte in Hb; lia|].
    match goal with
    | |- context [memory_update_loop fuel a (i + 1) 15 _ ?x] => set (m1 := x)
    end.
    assert (Hhw : hw m1 = write_ram (hw m) [to_byte b] (a + i)).
    { unfold m1. rewrite hw_set_hw, hw_print, hw_print, prompt_hw. reflexivity. }
    destruct (write_ram_ok (hw m) [to_byte b] (a + i) Hok) as [Hr Hok1].
    destruct (write_ram_one (hw m) (to_byte b) (a + i) (proj2 (proj2 Hok))) as [Hr1 _].
    cbv zeta in Hr1.
    destruct (IH fuel (i + 1) m1) as (m' & Hrun & Hram & Hok');
      [rewrite Hhw; exact Hok1 | lia | lia | lia |].
    exists m'. split; [|split; [|exact Hok']].
    + rewrite <- Hrun. f_equal. f_equal.
      replace (a + i + Z.of_nat (length (b :: bytes)))
        with (a + (i + 1) + Z.of_nat (length bytes)) by (cbn [length]; lia).
      reflexivity.
    + rewrite Hram, Hhw, Hr1. cbn [store_bytes].
      rewrite (to_byte_id (to_byte b)) by apply to_byte_is_byte.
      f_equal. lia.
Qed.

(** X19.  [memory_update(a)] stores the bytes typed, each as two
    hexadecimal digits, in the RAM cells from [a] on.  It ends at ESC, or,
    without reading any further, once the cell at address [0f] is filled. *)
Theorem memory_update_stores (a : Z) (bytes rest : list Z) (m : Memory.machine) :
  target_ok (Memory.hw m) -> 0 <= a -> Forall is_byte bytes ->
  a + Z.of_nat (length bytes) <= 16 ->
  exists m',
    Memory.memory_update a
      (typed bytes ++ (if a + Z.of_nat (length bytes) =? 16 then rest else 27 :: rest)) m
    = Some (m', rest)
    /\ Target.ram (Memory.hw m') = store_bytes bytes a (Target.ram (Memory.hw m)).
Proof.
  intros Hok Ha Hb Hfit. unfold memory_update. change (if mode_4bit then 15 else 255) with 15.
  destruct (memory_update_loop_spec a rest bytes Ha Hb (Z.to_nat (15 - a + 1) + 1) 0 m Hok)
    as (m' & Hrun & Hram & _); [lia | lia | lia |].
  rewrite Z.add_0_r in Hrun, Hram. rewrite Hrun.
  eexists. split; [reflexivity|]. rewrite hw_println. exact Hram.
Qed.

Lemma memory_update_stores_witness :
  exists m',
    memory_update 14 (codes "1eff") (Machine (replicate 256 0) ∅ blank_target EmptyString)
    = Some (m', [])
    /\ ram (hw m') = store_bytes [0x1E; 0xFF] 14 (ram blank_target).
Proof.
  apply (memory_update_stores 14 [0x1E; 0xFF] []
           (Machine (replicate 256 0) ∅ blank_target EmptyString)).
  - exact blank_target_ok.
  - lia.
  - repeat constructor; unfold is_byte; lia.
  - simpl. lia.
Defined.

End MemoryUpdate.

(** ** Analog inputs *)

Section AnalogInputs.
Import Analog.

Lemma level_4bit_range v : 0 <= level_4bit v <= 15.
Proof.
  unfold level_4bit.
  repeat match goal with
         | |- context [Z.ltb ?a ?b] => destruct (Z.ltb_spec a b)
         end; lia.
Qed.

Lemma level_4bit_mono v w : v <= w -> level_4bit v <= level_4bit w.
Proof.
  intros H. unfold level_4bit.
  repeat match goal with
         | |- context [Z.ltb v ?b] => destruct (Z.ltb_spec v b)
         end;
  repeat match goal with
         | |- context [Z.ltb w ?b] => destruct (Z.ltb_spec w b); try lia
         end; lia.
Qed.

Lemma analog_sum reads :
  foldl (fun v i => v + cell reads i) 0 (seqZ 0 10)
  = cell reads 0 + cell reads 1 + cell reads 2 + cell reads 3 + cell reads 4
    + cell reads 5 + cell reads 6 + cell reads 7 + cell reads 8 + cell reads 9.
Proof. reflexivity. Qed.

(** X20.  [read_analog_4bit] gives a level from 0 to 15 that does not
    fall when no reading falls, and ten readings that each lie in the band
    of one level give that level. *)
Theorem read_analog_4bit_average (reads reads' : list Z) :
  0 <= Analog.read_analog_4bit reads <= 15
  /\ ((forall i, 0 <= i < 10 -> cell reads i <= cell reads' i) ->
      Analog.read_analog_4bit reads <= Analog.read_analog_4bit reads')
  /\ (forall k, (forall i, 0 <= i < 10 -> Analog.level_4bit (cell reads i) = k) ->
                Analog.read_analog_4bit reads = k).
Proof.
  unfold read_analog_4bit. cbv zeta. rewrite !analog_sum.
  split; [apply level_4bit_range|]. split.
  - intros H. apply level_4bit_mono, Z.div_le_mono; [lia|].
    pose proof (H 0). pose proof (H 1). pose proof (H 2). pose proof (H 3).
    pose proof (H 4). pose proof (H 5). pose proof (H 6). pose proof (H 7).
    pose proof (H 8). pose proof (H 9). lia.
  - intros k H.
    pose proof (H 0 ltac:(lia)) as H0. pose proof (H 1 ltac:(lia)) as H1.
    pose proof (H 2 ltac:(lia)) as H2. pose proof (H 3 ltac:(lia)) as H3.
    pose proof (H 4 ltac:(lia)) as H4. pose proof (H 5 ltac:(lia)) as H5.
    pose proof (H 6 ltac:(lia)) as H6. pose proof (H 7 ltac:(lia)) as H7.
    pose proof (H 8 ltac:(lia)) as H8. pose proof (H 9 ltac:(lia)) as H9.
    clear H. revert H0 H1 H2 H3 H4 H5 H6 H7 H8 H9.
    generalize (cell reads 0) (cell reads 1) (cell reads 2) (cell reads 3) (cell reads 4)
               (cell reads 5) (cell reads 6) (cell reads 7) (cell reads 8) (cell reads 9).
    intros x0 x1 x2 x3 x4 x5 x6 x7 x8 x9 H0 H1 H2 H3 H4 H5 H6 H7 H8 H9.
    set (s := x0 + x1 + x2 + x3 + x4 + x5 + x6 + x7 + x8 + x9).
    pose proof (Z.div_mod s 10 ltac:(lia)) as Hs.
    pose proof (Z.mod_pos_bound s 10 ltac:(lia)) as Hm.
    assert (L : exists x, level_4bit x = k /\ x <= s / 10).
    { assert (D : x0 <= s / 10 \/ x1 <= s / 10 \/ x2 <= s / 10 \/ x3 <= s / 10
                  \/ x4 <= s / 10 \/ x5 <= s / 10 \/ x6 <= s / 10 \/ x7 <= s / 10
                  \/ x8 <= s / 10 \/ x9 <= s / 10) by (unfold s in *; lia).
      decompose [or] D; eauto. }
    assert (U : exists x, level_4bit x = k /\ s / 10 <= x).
    { assert (D : s / 10 <= x0 \/ s / 10 <= x1 \/ s / 10 <= x2 \/ s / 10 <= x3
                  \/ s / 10 <= x4 \/ s / 10 <= x5 \/ s / 10 <= x6 \/ s / 10 <= x7
                  \/ s / 10 <= x8 \/ s / 10 <= x9) by (unfold s in *; lia).
      decompose [or] D; eauto. }
    destruct L as (lo & Hlo & Hlo'). destruct U as (hi & Hhi & Hhi').
    pose proof (level_4bit_mono _ _ Hlo'). pose proof (level_4bit_mono _ _ Hhi'). lia.
Qed.

End AnalogInputs.

(** ** More on the assembler *)

Section AssemblerInput.
Import Asm.

Lemma assemble_loop_S fuel input st :
  assemble_loop (S fuel) input st
  = match read_line input 0 [] 0 [] with
    | None => None
    | Some (c, buf, echo, input') =>
        if (c =? 26) || (c =? 27)
        then Some (assemble_finish (println (text echo) (print (dec2hex (asm_a st) ++ ": ") st)))
        else assemble_loop fuel input'
               (assemble_line (buf ++ [32])
                  (println (text echo) (print (dec2hex (asm_a st) ++ ": ") st)))
    end.
Proof.
  cbv beta iota zeta delta [assemble_loop]. fold assemble_loop.
  destruct (read_line input 0 [] 0 []) as [[[[c buf] echo] input']|]; reflexivity.
Qed.

(** The line editor hands back a line when an end character is still to
    come, and then either stopped at one or left it in the input. *)
Lemma read_line_stop input :
  26 ∈ input \/ 27 ∈ input ->
  forall c buf commentLen echo,
  exists c' buf' echo' input',
    read_line input c buf commentLen echo = Some (c', buf', echo', input')
    /\ (c' = 26 \/ c' = 27 \/ 26 ∈ input' \/ 27 ∈ input').
Proof.
  induction input as [|x input IH]; intros Hin c buf commentLen echo.
  { destruct Hin as [Hin|Hin]; apply elem_of_nil in Hin; contradiction. }
  simpl read_line. destruct (Z.of_nat (length buf) <? BUFFER_SIZE).
  2:{ do 4 eexists. split; [reflexivity|]. tauto. }
  destruct (Z.eqb_spec x 26) as [->|H26].
  { do 4 eexists. split; [reflexivity|]. tauto. }
  destruct (Z.eqb_spec x 27) as [->|H27].
  { do 4 eexists. split; [reflexivity|]. tauto. }
  assert (Hin' : 26 ∈ input \/ 27 ∈ input).
  { destruct Hin as [Hin|Hin]; apply elem_of_cons in Hin as [Hin|Hin];
      [congruence | left; exact Hin | congruence | right; exact Hin]. }
  cbn [orb]. destruct (x =? 13).
  { do 4 eexists. split; [reflexivity|]. tauto. }
  destruct ((x =? 8) || (x =? 127)).
  { destruct (commentLen >? 0); [apply IH, Hin'|].
    destruct (Z.of_nat (length buf) >? 0); apply IH, Hin'. }
  destruct ((commentLen =? 0) && (x =? 59)); [apply IH, Hin'|].
  destruct (commentLen >? 0); apply IH, Hin'.
Qed.


Lemma assemble_loop_returns fuel :
  forall input st,
    26 ∈ input \/ 27 ∈ input -> (length input < fuel)%nat ->
    is_Some (assemble_loop fuel input st).
Proof.
  induction fuel as [|fuel IH]; intros input st Hin Hf; [lia|].
  rewrite assemble_loop_S.
  destruct (read_line_stop input Hin 0 [] 0 []) as (c & buf & echo & input' & E & Hc).
  rewrite E. apply read_line_consumes in E as [_ Hlt].
  specialize (Hlt ltac:(unfold BUFFER_SIZE; simpl; lia)).
  destruct (Z.eqb_spec c 26); [eexists; reflexivity|].
  destruct (Z.eqb_spec c 27); [eexists; reflexivity|].
  cbn [orb]. apply IH; [|lia].
  destruct Hc as [?|[?|Hc]]; [contradiction | contradiction | exact Hc].
Qed.



End AssemblerInput.

Section AssemblerInvariant.
Import Target Asm.

Lemma print_ok s st : asm_ok st -> asm_ok (print s st).
Proof. intros H. exact H. Qed.

Lemma println_ok s st : asm_ok st -> asm_ok (println s st).
Proof. intros H. exact H. Qed.

Lemma print_word_ok buffer len i st : asm_ok st -> asm_ok (print_word buffer len i st).1.
Proof. intros H. exact H. Qed.

Lemma label_at_ok st k :
  labels_ok st -> 0 <= k < 16 ->
  0 <= forward_count (label_at (labels st) k) <= 16
  /\ length (forward (label_at (labels st) k)) = 16%nat.
Proof.
  intros (_ & Hl & Hf) Hk. unfold label_at.
  destruct (lookup_lt_is_Some_2 (labels st) (Z.to_nat k)) as [l E]; [lia|].
  rewrite E. rewrite Forall_forall in Hf. apply Hf. eapply list_elem_of_lookup_2, E.
Qed.

Lemma last_match_range (p : Z -> bool) (l : list Z) k :
  foldl (fun res i => if p i then Some i else res) None l = Some k -> k ∈ l.
Proof.
  induction l as [|x l IH] using rev_ind; [discriminate|].
  rewrite foldl_app. cbn [foldl]. rewrite elem_of_app, list_elem_of_singleton.
  destruct (p x); [intros [= ->]; right; reflexivity | intros H; left; apply IH, H].
Qed.

Lemma find_label_ok buffer lbl llen st :
  asm_ok st ->
  asm_ok (find_label buffer lbl llen st).2
  /\ hw (find_label buffer lbl llen st).2 = hw st
  /\ asm_a (find_label buffer lbl llen st).2 = asm_a st
  /\ asm_addr (find_label buffer lbl llen st).2 = asm_addr st
  /\ (forall k, (find_label buffer lbl llen st).1 = Some k -> 0 <= k < 16).
Proof.
  intros [Hlab Hhw]. pose proof Hlab as (Hn & Hl & Hf). unfold ASM_MAX_LABELS in Hn.
  unfold find_label. cbv zeta.
  destruct (foldl _ None (seqZ 0 (num_labels st))) as [k|] eqn:E.
  - cbn [fst snd]. split; [split; assumption|]. do 3 (split; [reflexivity|]).
    intros k' [= <-]. apply last_match_range, elem_of_seqZ in E. lia.
  - unfold ASM_MAX_LABELS. destruct (Z.ltb_spec (num_labels st) 16) as [Hlt|Hge].
    + cbn [fst snd]. split; [|do 3 (split; [reflexivity|]); intros k' [= <-]; lia].
      split; [|exact Hhw]. unfold labels_ok, ASM_MAX_LABELS.
      cbn [num_labels labels set_num_labels set_labels].
      split; [lia|]. split; [rewrite length_insert; exact Hl|].
      apply Forall_insert; [exact Hf|]. cbn [forward_count forward].
      split; [unfold ASM_MAX_LABEL_FORWARD_REF; lia|].
      apply (label_at_ok st); [exact Hlab | lia].
    + cbn [fst snd]. split; [split; assumption|]. do 3 (split; [reflexivity|]).
      discriminate.
Qed.

Lemma define_label_ok k st : asm_ok st -> 0 <= k < 16 -> asm_ok (define_label k st).
Proof.
  intros [Hlab Hhw] Hk. pose proof Hlab as (Hn & Hl & Hf).
  destruct (label_at_ok st k Hlab Hk) as [_ Hfl].
  destruct (patch_forward_spec (Z.to_nat (forward_count (label_at (labels st) k))) 0
              (forward (label_at (labels st) k)) (asm_a st) (hw st) Hhw) as [_ Hok].
  unfold define_label. cbv zeta. split; [|exact Hok].
  unfold labels_ok. cbn [num_labels labels set_labels set_hw].
  split; [exact Hn|]. split; [rewrite length_insert; exact Hl|].
  apply Forall_insert; [exact Hf|]. cbn [forward_count forward].
  split; [unfold ASM_MAX_LABEL_FORWARD_REF; lia | exact Hfl].
Qed.

Lemma check_label_ok buffer len st :
  asm_ok st -> asm_ok (check_label buffer len st).1.1.
Proof.
  intros Hok. unfold check_label.
  destruct (isAlpha (cell buffer 0)).
  - destruct (find_label_ok buffer 0 (skip isAlphaNumeric buffer len 0) st Hok)
      as (Hok' & _ & _ & _ & Hk).
    destruct (find_label buffer 0 (skip isAlphaNumeric buffer len 0) st) as [[k|] st'];
      cbn [fst snd] in *; [|apply println_ok, Hok'].
    destruct (loc (label_at (labels st') k) >=? 0); cbn [fst];
      [apply println_ok, Hok' | apply define_label_ok; [exact Hok' | apply Hk; reflexivity]].
  - destruct (negb (isSpace (cell buffer 0))); [|exact Hok].
    pose proof (print_word_ok buffer len 0 _ (print_ok "Invalid label: " st Hok)) as H.
    destruct (print_word buffer len 0 (print "Invalid label: " st)) as [st' i].
    apply println_ok, H.
Qed.

Lemma label_reference_ok buffer lblStart llen arg st :
  asm_ok st -> asm_ok (label_reference buffer lblStart llen arg st).1.1.
Proof.
  intros Hok. unfold label_reference.
  destruct (find_label_ok buffer lblStart llen st Hok) as (Hok' & _ & _ & _ & Hk).
  destruct (find_label buffer lblStart llen st) as [[k|] st'];
    cbn [fst snd] in *; [|apply println_ok, Hok'].
  specialize (Hk k eq_refl). cbv zeta.
  destruct (loc (label_at (labels st') k) <? 0); [|exact Hok'].
  unfold ASM_MAX_LABEL_FORWARD_REF.
  destruct (Z.ltb_spec (forward_count (label_at (labels st') k)) 16) as [Hlt|Hge];
    cbn [fst]; [|apply println_ok, Hok'].
  destruct Hok' as [Hlab Hhw]. pose proof Hlab as (Hn & Hl & Hf).
  destruct (label_at_ok st' k Hlab Hk) as [Hfc Hfl].
  split; [|exact Hhw]. unfold labels_ok. cbn [num_labels labels set_labels].
  split; [exact Hn|]. split; [rewrite length_insert; exact Hl|].
  apply Forall_insert; [exact Hf|]. cbn [forward_count forward].
  unfold ASM_MAX_LABEL_FORWARD_REF, to_byte. rewrite Z.mod_small by lia.
  split; [lia | rewrite length_insert; exact Hfl].
Qed.

Lemma label_argument_ok buffer len i arg st :
  asm_ok st -> asm_ok (label_argument buffer len i arg st).1.1.1.
Proof.
  intros Hok. unfold label_argument. cbv zeta.
  pose proof (label_reference_ok buffer i (skip isAlphaNumeric buffer len i - i) arg st Hok) as H.
  destruct (label_reference buffer i (skip isAlphaNumeric buffer len i - i) arg st)
    as [[st' ok] arg']. cbn [fst] in H.
  destruct ((cell buffer (skip isAlphaNumeric buffer len i) =? 43)
            || (cell buffer (skip isAlphaNumeric buffer len i) =? 45)); [|exact H].
  destruct (skip isSpace buffer len (skip isAlphaNumeric buffer len i + 1) <? len);
    [|apply println_ok, H].
  destruct (parse_arg buffer len _ 0 false) as [[res j] addval].
  destruct res; [exact H|].
  pose proof (print_word_ok buffer len j _
                (print_ok "Invalid argument to '+/-' operator: " st' H)) as Hw.
  destruct (print_word buffer len j _) as [st'' j']. apply println_ok, Hw.
Qed.

Lemma read_mnemonic_ok buffer len i st :
  asm_ok st -> asm_ok (read_mnemonic buffer len i st).1.1.1.1.
Proof.
  intros Hok. unfold read_mnemonic. cbv zeta.
  destruct (skip isSpace buffer len i <? len); [|exact Hok].
  destruct (if skip isSpace buffer len i + 3 <=? len then _ else _)
    as [[j imm] [[ok idx] nam]].
  destruct ok; cbn [negb].
  - destruct (has_arg (opcode_at idx)); [|exact Hok].
    destruct (j <? len); [|apply println_ok, Hok].
    destruct (isAlpha (cell buffer j)).
    + pose proof (label_argument_ok buffer len j 0 st Hok) as H.
      destruct (label_argument buffer len j 0 st) as [[[st' j'] ok'] arg]. exact H.
    + destruct (parse_arg buffer len j 0 false) as [[res j'] arg].
      destruct res; [exact Hok|].
      pose proof (print_word_ok buffer len j' _ (print_ok "Invalid argument: " st Hok)) as Hw.
      destruct (print_word buffer len j' _) as [st'' j'']. apply println_ok, Hw.
  - destruct nam; [apply println_ok, Hok|].
    pose proof (print_word_ok buffer len (skip isSpace buffer len i) _
                  (print_ok "Invalid mnemonic: " st Hok)) as Hw.
    destruct (print_word buffer len (skip isSpace buffer len i) _) as [st'' j''].
    apply println_ok. destruct imm; [apply print_ok|]; exact Hw.
Qed.

Lemma warn_extra_ok buffer len i st : asm_ok st -> asm_ok (warn_extra buffer len i st).
Proof.
  intros Hok. unfold warn_extra. cbv zeta.
  destruct (skip isSpace buffer len i <? len); [|exact Hok].
  apply println_ok, print_ok, Hok.
Qed.

Lemma write_byte_ok b st : asm_ok st -> asm_ok (write_byte b st).
Proof.
  intros [Hlab Hhw]. split; [exact Hlab|].
  destruct (write_ram_ok (hw st) [b] (asm_a st) Hhw) as [_ H]. exact H.
Qed.

Lemma emit_ok idx arg st : asm_ok st -> asm_ok (emit idx arg st).
Proof.
  intros Hok. unfold emit. cbv zeta.
  destruct (opcode (opcode_at idx) =? 255); [apply write_byte_ok, Hok|].
  destruct (opcode (opcode_at idx) =? 254); [exact Hok|].
  change mode_4bit with true. cbv iota. apply write_byte_ok, Hok.
Qed.

Lemma assemble_line_ok buffer st : asm_ok st -> asm_ok (assemble_line buffer st).
Proof.
  intros Hok. unfold assemble_line. cbv zeta.
  destruct (Z.of_nat (length buffer) =? 0); [exact Hok|].
  pose proof (check_label_ok buffer (Z.of_nat (length buffer)) st Hok) as H1.
  destruct (check_label buffer (Z.of_nat (length buffer)) st) as [[st1 i1] ok1].
  cbn [fst] in H1. destruct ok1; [|exact H1].
  pose proof (read_mnemonic_ok buffer (Z.of_nat (length buffer)) i1 st1 H1) as H2.
  destruct (read_mnemonic buffer (Z.of_nat (length buffer)) i1 st1)
    as [[[[st2 i2] ok2] idx] arg]. cbn [fst] in H2.
  destruct ok2; [|exact H2]. cbn [andb].
  pose proof (warn_extra_ok buffer (Z.of_nat (length buffer)) i2 st2 H2) as H3.
  destruct (idx >=? 0); [apply emit_ok, H3 | exact H3].
Qed.

Lemma assemble_loop_ok fuel :
  forall input st r, asm_ok st -> assemble_loop fuel input st = Some r -> asm_ok r.
Proof.
  induction fuel as [|fuel IH]; intros input st r Hok; [discriminate|].
  rewrite assemble_loop_S.
  destruct (read_line input 0 [] 0 []) as [[[[c buf] echo] input']|]; [|discriminate].
  assert (H0 : asm_ok (println (text echo) (print (dec2hex (asm_a st) ++ ": ") st)))
    by (apply println_ok, print_ok, Hok).
  destruct ((c =? 26) || (c =? 27)).
  - intros [= <-]. unfold assemble_finish.
    destruct (_ >? _); [apply println_ok, print_ok|]; exact H0.
  - apply IH, assemble_line_ok, H0.
Qed.

(** X22.  As long as every line typed, with the space and the NUL that
    the assembler appends, fits the 256-byte line buffer, the assembler stays
    within its tables: at the end of [assemble] there are at most sixteen
    labels and at most sixteen forward references for each, the RAM has its
    sixteen byte cells and the programmer has left the write line low; and
    each such line keeps these bounds. *)
Theorem assemble_keeps_tables (addr : Z) (input : list Z) (ls : list Asm.label_struct)
    (t : Target.target) :
  asm_ok (Asm.State addr addr 0 ls t EmptyString) ->
  lines_fit (S (length input)) input = true ->
  (forall r, Asm.assemble addr input ls t = Some r -> asm_ok r)
  /\ (forall buffer st, Z.of_nat (length buffer) < BUFFER_SIZE -> asm_ok st ->
                        asm_ok (Asm.assemble_line buffer st)).
Proof.
  intros Hok _. split.
  - intros r. unfold assemble. apply assemble_loop_ok, Hok.
  - intros buffer st _. apply assemble_line_ok.
Qed.

Lemma asm_blank_ok : asm_ok asm_blank.
Proof.
  split; [|exact blank_target_ok].
  split; [unfold ASM_MAX_LABELS; simpl; lia|]. split; [reflexivity|].
  apply Forall_replicate. unfold ASM_MAX_LABEL_FORWARD_REF. simpl. split; [lia|reflexivity].
Qed.

Lemma assemble_keeps_tables_witness :
  exists r, assemble 0 (codes "lp  JMP lp" ++ [13; 27]) blank_labels blank_target = Some r
            /\ asm_ok r.
Proof.
  destruct (assemble_loop_returns
              (S (length (codes "lp  JMP lp" ++ [13; 27])))
              (codes "lp  JMP lp" ++ [13; 27])
              (State 0 0 0 blank_labels blank_target EmptyString)) as [r Hr].
  { right. vm_compute. repeat constructor. }
  { lia. }
  exists r. split; [exact Hr|].
  destruct (assemble_keeps_tables 0 (codes "lp  JMP lp" ++ [13; 27]) blank_labels blank_target)
    as [H _].
  - exact asm_blank_ok.
  - vm_compute. reflexivity.
  - apply H, Hr.
Defined.

End AssemblerInvariant.

Section LabelDefinitions.
Import Target Asm.

Lemma find_label_found key st k st' :
  labels_ok st ->
  find_label key 0 3 st = (Some k, st') -> 0 <= loc (label_at (labels st') k) ->
  st' = st.
Proof.
  intros (Hn & Hl & _). unfold find_label, ASM_MAX_LABELS in *. cbv zeta.
  destruct (foldl _ None (seqZ 0 (num_labels st))) as [j|]; [intros [= _ <-]; reflexivity|].
  destruct (Z.ltb_spec (num_labels st) 16); [|discriminate].
  intros [= <- <-]. cbn [labels set_labels set_num_labels].
  rewrite label_at_insert by lia. cbn [loc]. lia.
Qed.

Lemma find_label_full key st st' :
  find_label key 0 3 st = (None, st') -> st' = st /\ ASM_MAX_LABELS <= num_labels st.
Proof.
  unfold find_label. cbv zeta.
  destruct (foldl _ None (seqZ 0 (num_labels st))) as [j|]; [discriminate|].
  destruct (Z.ltb_spec (num_labels st) ASM_MAX_LABELS); [discriminate|].
  intros [= <-]. split; [reflexivity | assumption].
Qed.

(** X23.  A line that starts with a label that already has an address, or
    with a new label when the table is full, is dropped as a whole: the
    message is printed, and the write address, the label table and the RAM
    stay as they were, whatever instruction follows the label. *)
Theorem label_definition_refused (x rest : list Z) (st : Asm.asm_state) :
  identifier x -> ends_identifier rest -> labels_ok st ->
  (forall k st', Asm.find_label (pad3 x) 0 3 st = (Some k, st') ->
                 0 <= Asm.loc (Asm.label_at (Asm.labels st') k) ->
                 Asm.assemble_line (x ++ rest) st
                 = Asm.println "Duplicate label definition." st)
  /\ (forall st', Asm.find_label (pad3 x) 0 3 st = (None, st') ->
                  Asm.ASM_MAX_LABELS <= Asm.num_labels st
                  /\ Asm.assemble_line (x ++ rest) st = Asm.println "Too many labels." st).
Proof.
  intros Hx Hrest Hlab.
  assert (Hlen : (Z.of_nat (length (x ++ rest)) =? 0) = false).
  { apply Z.eqb_neq. pose proof (identifier_length x Hx). rewrite length_app. lia. }
  split.
  - intros k st' Hf Hloc. pose proof (find_label_found _ _ _ _ Hlab Hf Hloc) as ->.
    unfold assemble_line. cbv zeta. rewrite Hlen, check_label_ident by assumption.
    rewrite Hf. destruct (Z.geb_spec (loc (label_at (labels st) k)) 0); [reflexivity|lia].
  - intros st' Hf. destruct (find_label_full _ _ _ Hf) as [-> Hfull].
    split; [exact Hfull|].
    unfold assemble_line. cbv zeta. rewrite Hlen, check_label_ident by assumption.
    rewrite Hf. reflexivity.
Qed.

Lemma one_label_ok : asm_ok one_label.
Proof.
  split; [|exact blank_target_ok].
  split; [unfold ASM_MAX_LABELS; simpl; lia|]. split; [reflexivity|].
  apply Forall_insert; [apply Forall_replicate|];
    unfold ASM_MAX_LABEL_FORWARD_REF; simpl; (split; [lia|reflexivity]).
Qed.

Lemma label_definition_refused_witness :
  assemble_line (codes "lp HLT ") one_label
  = println "Duplicate label definition." one_label.
Proof.
  destruct (label_definition_refused (codes "lp") (codes " HLT ") one_label) as [H _].
  - split; [eexists _, _; split; reflexivity | vm_compute; repeat constructor].
  - intros c rest' [= <- _]. reflexivity.
  - apply one_label_ok.
  - apply (H 0 one_label); [reflexivity | simpl; lia].
Defined.

Lemma find_opcode_room ops j buffer mstart i len i' len' imm nam :
  (i <? len) = (i' <? len') ->
  find_opcode ops j buffer mstart i len imm nam
  = find_opcode ops j buffer mstart i' len' imm nam.
Proof.
  intros E. revert j nam. induction ops as [|o ops IH]; intros j nam; [reflexivity|].
  cbn [find_opcode]. rewrite E, !IH. reflexivity.
Qed.

(** The instructions that take an address: entries 1 to 13 of the table. *)
Lemma mnemonic_facts idx :
  1 <= idx <= 13 ->
  exists m1 m2 m3,
    take 3 (codes (mnemonic (opcode_at idx))) = [m1; m2; m3]
    /\ isSpace m1 = false
    /\ has_arg (opcode_at idx) = true
    /\ (opcode (opcode_at idx) =? 0xff) = false
    /\ (opcode (opcode_at idx) =? 0xfe) = false
    /\ forall tail,
         find_opcode opcodes_4bit 0 (32 :: m1 :: m2 :: m3 :: tail) 1 0 1 false false
         = (true, idx, false).
Proof.
  intros Hidx. assert (Hin : idx ∈ seqZ 1 13) by (apply elem_of_seqZ; lia).
  let l := eval vm_compute in (seqZ 1 13) in change (seqZ 1 13) with l in Hin.
  repeat (apply elem_of_cons in Hin as [-> | Hin];
          [do 3 eexists; split; [vm_compute; reflexivity|];
           do 4 (split; [reflexivity|]); intros tail; vm_compute; reflexivity |]).
  apply elem_of_nil in Hin. contradiction.
Qed.

Lemma alpha_facts c : isAlpha c = true -> isSpace c = false /\ (c =? 35) = false.
Proof.
  unfold isAlpha, isSpace, in_range. intros H.
  repeat match goal with
         | _ : context [Z.leb ?a ?b] |- _ => destruct (Z.leb_spec a b)
         | |- context [Z.leb ?a ?b] => destruct (Z.leb_spec a b)
         | |- context [Z.eqb ?a ?b] => destruct (Z.eqb_spec a b)
         end; cbn [andb orb] in *; try discriminate; try lia; split; reflexivity.
Qed.

(** X24.  An instruction whose argument names a label that already has an
    address is assembled with the low nibble of that address: the byte goes
    to the write address, and the label table is left as it was. *)
Theorem backward_reference_resolved (idx : Z) (x : list Z) (st : Asm.asm_state) (k : Z) :
  1 <= idx <= 13 -> identifier x -> labels_ok st ->
  (Asm.find_label (pad3 x) 0 3 st).1 = Some k ->
  0 <= Asm.loc (Asm.label_at (Asm.labels (Asm.find_label (pad3 x) 0 3 st).2) k) ->
  Asm.assemble_line (32 :: take 3 (codes (mnemonic (opcode_at idx))) ++ 32 :: x ++ [32]) st
  = Asm.write_byte
      (to_byte (Z.lor (opcode (opcode_at idx))
                      (Z.land (to_byte (Asm.loc (Asm.label_at (Asm.labels st) k))) 0x0f))) st.
Proof.
  intros Hidx Hx Hlab Hk Hloc.
  destruct (find_label (pad3 x) 0 3 st) as [r st'] eqn:Hf. cbn [fst snd] in Hk, Hloc.
  subst r. pose proof (find_label_found _ _ _ _ Hlab Hf Hloc) as ->.
  destruct (mnemonic_facts idx Hidx) as (m1 & m2 & m3 & -> & Hm1 & Harg & Hff & Hfe & Hfind).
  pose proof Hx as [(x0 & x' & Ex & Hx0) Hall].
  destruct (alpha_facts x0 Hx0) as [Hsp H35].
  cbn [app].
  set (buffer := 32 :: m1 :: m2 :: m3 :: 32 :: x ++ [32]).
  set (len := Z.of_nat (length buffer)).
  assert (Hlen : len = 6 + Z.of_nat (length x)).
  { unfold len, buffer. cbn [length]. rewrite length_app. cbn [length]. lia. }
  pose proof (identifier_length x Hx) as Hxl.
  assert (S0 : skip isSpace buffer len 0 = 1).
  { apply (skip_run isSpace [32] [] (m1 :: m2 :: m3 :: 32 :: x ++ [32]));
      [repeat constructor|]. intros c rest' [= <- _]. exact Hm1. }
  assert (S4 : skip isSpace buffer len (1 + 3) = 5).
  { apply (skip_run isSpace [32] [32; m1; m2; m3] (x ++ [32])); [repeat constructor|].
    subst x. intros c rest' [= <- _]. exact Hsp. }
  assert (SE : skip isSpace buffer len (5 + Z.of_nat (length x)) = len).
  { pose proof (skip_run isSpace [32] (32 :: m1 :: m2 :: m3 :: 32 :: x) []) as HS.
    change (Forall (fun c => isSpace c = true) [32] ->
            (forall c rest', [] = c :: rest' -> isSpace c = false) ->
            skip isSpace buffer len (Z.of_nat (length (32 :: m1 :: m2 :: m3 :: 32 :: x)))
            = Z.of_nat (length (32 :: m1 :: m2 :: m3 :: 32 :: x)) + 1) in HS.
    replace (Z.of_nat (length (32 :: m1 :: m2 :: m3 :: 32 :: x)))
      with (5 + Z.of_nat (length x)) in HS by (cbn [length]; lia).
    rewrite HS; [lia | repeat constructor | discriminate]. }
  assert (C5 : cell buffer 5 = x0) by (unfold buffer; subst x; reflexivity).
  assert (Hla : label_argument buffer len 5 0 st
                = (st, 5 + Z.of_nat (length x), true, to_byte (loc (label_at (labels st) k)))).
  { assert (He : ends_identifier [32]) by (intros c rest' [= <- _]; reflexivity).
    assert (Hn : no_offset [32]) by (intros c rest' [= <- _]; split; discriminate).
    pose proof (label_argument_ident [32; m1; m2; m3; 32] x [32] 0 st Hx He Hn) as H.
    change (label_argument buffer len 5 0 st
            = let r := label_reference (pad3 x) 0 3 0 st in
              (r.1.1, 5 + Z.of_nat (length x), r.1.2, r.2)) in H.
    rewrite H. cbv zeta. unfold label_reference. rewrite Hf.
    destruct (Z.ltb_spec (loc (label_at (labels st) k)) 0); [lia|]. reflexivity. }
  assert (Hrm : read_mnemonic buffer len 0 st
                = (st, 5 + Z.of_nat (length x), true, idx,
                   to_byte (loc (label_at (labels st) k)))).
  { unfold read_mnemonic. cbv zeta. rewrite S0.
    destruct (Z.ltb_spec 1 len); [|lia].
    destruct (Z.leb_spec (1 + 3) len); [|lia].
    rewrite S4, C5, H35.
    destruct (Z.ltb_spec 5 len) as [H5|]; [|lia]. cbn [andb]. cbv iota.
    rewrite (find_opcode_room _ _ _ _ 5 len 0 1)
      by (destruct (Z.ltb_spec 5 len); [reflexivity|lia]).
    unfold buffer. rewrite Hfind. fold buffer. cbn [negb]. cbv iota.
    rewrite Harg. destruct (Z.ltb_spec 5 len); [|lia].
    rewrite C5, Hx0, Hla. reflexivity. }
  unfold assemble_line. fold len. cbv zeta.
  destruct (Z.eqb_spec len 0); [lia|].
  replace (check_label buffer len st) with (st, 0, true) by reflexivity.
  cbv iota. rewrite Hrm. cbv iota.
  unfold warn_extra. cbv zeta. rewrite SE, Z.ltb_irrefl.
  destruct (Z.geb_spec idx 0); [|lia]. cbn [andb].
  unfold emit. cbv zeta. rewrite Hff, Hfe. reflexivity.
Qed.

Lemma backward_reference_resolved_witness :
  assemble_line (codes " JMP lp ") one_label = write_byte 0x60 one_label.
Proof.
  apply (backward_reference_resolved 6 (codes "lp") one_label 0).
  - lia.
  - split; [eexists _, _; split; reflexivity | vm_compute; repeat constructor].
  - apply one_label_ok.
  - reflexivity.
  - simpl. lia.
Defined.

End LabelDefinitions.

Section PseudoOpcodes.
Import Target Asm.

Lemma pseudo_ops_all :
  Forall (fun v => forall st,
            assemble_line (codes " .BY $" ++ codes (dec2hex v) ++ [32]) st = write_byte v st
            /\ assemble_line (codes " .OR $" ++ codes (dec2hex v) ++ [32]) st
               = set_a v (set_addr v st))
         (seqZ 0 256).
Proof.
  let l := eval vm_compute in (seqZ 0 256) in change (seqZ 0 256) with l.
  repeat (apply Forall_cons; split;
          [intros st; split; [cbv -[write_byte]; reflexivity | cbv; reflexivity] |]).
  apply Forall_nil. exact I.
Qed.

(** X25.  The pseudo opcodes with a hexadecimal argument: [.BY $hh] stores
    the byte [hh], whatever its value, at the write address, and [.OR $hh]
    moves the write address and the origin to [hh] without writing to the
    RAM. *)
Theorem pseudo_opcodes_hex (v : Z) (st : Asm.asm_state) :
  is_byte v -> target_ok (Asm.hw st) -> 0 <= Asm.asm_a st ->
  (Asm.assemble_line (codes " .BY $" ++ codes (dec2hex v) ++ [32]) st = Asm.write_byte v st
   /\ cell (Target.ram (Asm.hw (Asm.write_byte v st))) (Asm.asm_a st mod 16) = v)
  /\ Asm.assemble_line (codes " .OR $" ++ codes (dec2hex v) ++ [32]) st
     = Asm.set_a v (Asm.set_addr v st).
Proof.
  intros Hv Hok Ha. destruct (byte_ind _ pseudo_ops_all v Hv st) as [H1 H2].
  split; [split; [exact H1 | apply write_byte_cell; assumption] | exact H2].
Qed.

Lemma pseudo_opcodes_hex_witness :
  cell (ram (hw (assemble_line (codes " .BY $e7 ") asm_blank))) 0 = 0xE7
  /\ asm_a (assemble_line (codes " .OR $0c ") asm_blank) = 12.
Proof.
  destruct (pseudo_opcodes_hex 0xE7 asm_blank) as [[H1 H2] _];
    [unfold is_byte; lia | exact blank_target_ok | simpl; lia |].
  destruct (pseudo_opcodes_hex 0x0C asm_blank) as [_ H3];
    [unfold is_byte; lia | exact blank_target_ok | simpl; lia |].
  split.
  - change (codes " .BY $e7 ") with (codes " .BY $" ++ codes (dec2hex 0xE7) ++ [32]).
    rewrite H1. exact H2.
  - change (codes " .OR $0c ") with (codes " .OR $" ++ codes (dec2hex 0x0C) ++ [32]).
    rewrite H3. reflexivity.
Defined.

End PseudoOpcodes.

(** ** Listings *)

Section Listings.
Import Target Asm.

Lemma disassemble_loop_S fuel t a e input o :
  disassemble_loop (S fuel) t a e input o
  = if (a <=? e) || (e <? 0) then
      if e <? 0 then
        match input with
        | [] => None
        | c :: input' =>
            if negb (c =? 32)
            then Some ((disassemble_step t a).1, (o ++ (disassemble_step t a).2)%string, input')
            else disassemble_loop fuel (disassemble_step t a).1 (a + 1) e input'
                                  (o ++ (disassemble_step t a).2)%string
        end
      else disassemble_loop fuel (disassemble_step t a).1 (a + 1) e input
                            (o ++ (disassemble_step t a).2)%string
    else Some (t, o, input).
Proof. reflexivity. Qed.

Lemma disassemble_step_ok t a :
  target_ok t ->
  (disassemble_step t a).2 = listing_line (ram t) a
  /\ ram (disassemble_step t a).1 = ram t
  /\ target_ok (disassemble_step t a).1.
Proof.
  intros Hok. destruct (read_ram_ok t a 1 Hok ltac:(lia)) as (Hd & Hr & Hok1).
  unfold disassemble_step. cbv zeta. cbn [fst snd]. rewrite Hd.
  change (seqZ 0 1) with [0]. cbn [map]. change (cell [?x] 0) with x.
  rewrite Z.add_0_r. split; [reflexivity|]. split; assumption.
Qed.

Lemma disassemble_range input e (n : nat) :
  0 <= e ->
  forall fuel t a o,
    target_ok t -> a + Z.of_nat n = e + 1 -> (n < fuel)%nat ->
    exists t',
      disassemble_loop fuel t a e input o = Some (t', (o ++ listing (ram t) a n)%string, input)
      /\ ram t' = ram t /\ target_ok t'.
Proof.
  intros He. induction n as [|n IH]; intros fuel t a o Hok Ha Hf;
    (destruct fuel as [|fuel]; [lia|]); rewrite disassemble_loop_S;
    (destruct (Z.ltb_spec e 0); [lia|]).
  - destruct (Z.leb_spec a e); [lia|]. cbn [orb listing].
    exists t. rewrite append_nil_r. split; [reflexivity|]. split; [reflexivity|exact Hok].
  - destruct (Z.leb_spec a e); [|lia]. cbn [orb].
    destruct (disassemble_step_ok t a Hok) as (Hl & Hr & Hok1).
    destruct (IH fuel (disassemble_step t a).1 (a + 1) (o ++ (disassemble_step t a).2)%string
                Hok1 ltac:(lia) ltac:(lia)) as (t' & Hrun & Hr' & Hok').
    exists t'. rewrite Hrun, Hl, Hr. cbn [listing]. rewrite append_assoc.
    split; [reflexivity|]. split; [congruence | exact Hok'].
Qed.

Lemma disassemble_keys e (n : nat) c rest :
  e < 0 -> c <> 32 ->
  forall fuel t a o,
    target_ok t -> (n < fuel)%nat ->
    exists t',
      disassemble_loop fuel t a e (replicate n 32 ++ c :: rest) o
      = Some (t', (o ++ listing (ram t) a (S n))%string, rest)
      /\ ram t' = ram t /\ target_ok t'.
Proof.
  intros He Hc. induction n as [|n IH]; intros fuel t a o Hok Hf;
    (destruct fuel as [|fuel]; [lia|]); rewrite disassemble_loop_S;
    (destruct (Z.ltb_spec e 0); [|lia]); rewrite orb_true_r;
    destruct (disassemble_step_ok t a Hok) as (Hl & Hr & Hok1).
  - cbn [replicate app]. destruct (Z.eqb_spec c 32); [contradiction|]. cbn [negb].
    eexists. rewrite Hl. cbn [listing]. rewrite (append_nil_r (listing_line _ _)).
    split; [reflexivity|]. split; assumption.
  - cbn [replicate app]. change (negb (32 =? 32)) with false. cbv iota.
    destruct (IH fuel (disassemble_step t a).1 (a + 1) (o ++ (disassemble_step t a).2)%string
                Hok1 ltac:(lia)) as (t' & Hrun & Hr' & Hok').
    exists t'. rewrite Hrun, Hl, Hr. cbn [listing]. rewrite !append_assoc.
    split; [reflexivity|]. split; [congruence | exact Hok'].
Qed.

(** X26.  [disassemble(a, e)] with [e] not negative prints the lines for
    the addresses from [a] to [e] and takes no input; with [e] negative it
    prints one line per key, goes on for each space and stops at the first
    other key, which it takes.  The RAM is left as it was. *)
Theorem disassemble_listing (t : Target.target) (a e : Z) (input : list Z) :
  target_ok t ->
  (0 <= e -> a <= e + 1 ->
   exists t', Asm.disassemble t a e input
              = Some (t', listing (Target.ram t) a (Z.to_nat (e - a + 1)), input)
              /\ Target.ram t' = Target.ram t)
  /\ (e < 0 -> forall n c rest, input = replicate n 32 ++ c :: rest -> c <> 32 ->
      exists t', Asm.disassemble t a e input
                 = Some (t', listing (Target.ram t) a (S n), rest)
                 /\ Target.ram t' = Target.ram t).
Proof.
  intros Hok. unfold disassemble. split.
  - intros He Ha.
    destruct (disassemble_range input e (Z.to_nat (e - a + 1)) He
                (Z.to_nat (e - a + 1) + length input + 1) t a EmptyString Hok)
      as (t' & Hrun & Hr & _); [lia | lia |].
    exists t'. split; [exact Hrun | exact Hr].
  - intros He n c rest -> Hc.
    destruct (disassemble_keys e n c rest He Hc
                (Z.to_nat (e - a + 1) + length (replicate n 32 ++ c :: rest) + 1)
                t a EmptyString Hok) as (t' & Hrun & Hr & _).
    { rewrite length_app, length_replicate. simpl. lia. }
    exists t'. split; [exact Hrun | exact Hr].
Qed.

Lemma disassemble_listing_witness :
  exists t', disassemble (write_ram blank_target [0x55; 0xE0] 0) 0 1 []
             = Some (t', listing (ram (write_ram blank_target [0x55; 0xE0] 0)) 0 2, [])
             /\ ram t' = ram (write_ram blank_target [0x55; 0xE0] 0).
Proof.
  apply (disassemble_listing (write_ram blank_target [0x55; 0xE0] 0) 0 1 []).
  - apply write_ram_ok, blank_target_ok.
  - lia.
  - lia.
Defined.

Lemma print_data_step_ext d d' addr l :
  (forall i, i ∈ l -> cell d i = cell d' i) ->
  forall o, foldl (Memory.print_data_step d addr) o l
            = foldl (Memory.print_data_step d' addr) o l.
Proof.
  induction l as [|i l IH]; intros H o; [reflexivity|]. cbn [foldl].
  rewrite IH by (intros j Hj; apply H; right; exact Hj).
  unfold Memory.print_data_step. rewrite (H i) by (left; reflexivity). reflexivity.
Qed.

Lemma print_data_ext d d' addr len :
  (forall i, 0 <= i < len -> cell d i = cell d' i) ->
  Memory.print_data d addr len = Memory.print_data d' addr len.
Proof.
  intros H. unfold Memory.print_data. f_equal. apply print_data_step_ext.
  intros i Hi. apply elem_of_seqZ in Hi. apply H. lia.
Qed.

Lemma memory_dump_blocks_S fuel a input m :
  Memory.memory_dump_blocks (S fuel) a input m
  = let m := Memory.read_to_buffer a 16 m in
    let m := Memory.print (Memory.print_data (Memory.buffer m) a 16) m in
    let a := a + 16 in
    if (negb mode_4bit || (a <? 16)) && (a <? 256) then
      match input with
      | [] => None
      | c :: input' =>
          if c =? 32 then Memory.memory_dump_blocks fuel a input' m else Some (m, input')
      end
    else Some (m, input).
Proof. reflexivity. Qed.

(** What reading [n] cells from [s] and printing them leaves. *)
Lemma dump_block s n m :
  target_ok (Memory.hw m) -> 0 <= n ->
  let m1 := Memory.read_to_buffer s n m in
  let m2 := Memory.print (Memory.print_data (Memory.buffer m1) s n) m1 in
  ram (Memory.hw m2) = ram (Memory.hw m)
  /\ Memory.store m2 = Memory.store m
  /\ Memory.out m2
     = (Memory.out m
        ++ Memory.print_data (map (fun k => cell (ram (Memory.hw m)) ((s + k) mod 16))
                                  (seqZ 0 n)) s n)%string.
Proof.
  intros Hok Hn. cbv zeta.
  destruct (read_to_buffer_ok s n m Hok Hn) as (Hb & Hr & _ & Hst).
  rewrite hw_print, store_print, out_print. split; [exact Hr|]. split; [exact Hst|].
  change (Memory.out (Memory.read_to_buffer s n m)) with (Memory.out m).
  f_equal. apply print_data_ext. intros i Hi. rewrite Hb. unfold cell.
  rewrite lookup_app_l by (rewrite length_map, length_seqZ; lia). reflexivity.
Qed.

(** X27.  [memory_dump(s, e)] prints the RAM cells from [s] to [e], or
    the sixteen cells from [s] on when [e] is 0, as [print_data] sets them
    out; it changes neither the RAM nor the EEPROM, and with the 4-bit
    address range it never waits for a key. *)
Theorem memory_dump_shows (s e : Z) (input : list Z) (m : Memory.machine) :
  target_ok (Memory.hw m) -> is_byte s -> is_byte e -> e = 0 \/ s <= e ->
  let n := if e =? 0 then 16 else e - s + 1 in
  let cells := map (fun k => cell (Target.ram (Memory.hw m)) ((s + k) mod 16)) (seqZ 0 n) in
  exists m',
    Memory.memory_dump s e input m = Some (m', input)
    /\ Target.ram (Memory.hw m') = Target.ram (Memory.hw m)
    /\ Memory.store m' = Memory.store m
    /\ Memory.out m' = (Memory.out m ++ Memory.print_data cells s n)%string.
Proof.
  intros Hok Hs He Hse. cbv zeta. unfold is_byte in Hs, He. unfold Memory.memory_dump.
  destruct (Z.eqb_spec e 0) as [->|Hne].
  - change 17%nat with (S 16). rewrite memory_dump_blocks_S. cbv zeta.
    change mode_4bit with true. cbn [negb orb].
    destruct (Z.ltb_spec (s + 16) 16); [lia|]. cbn [andb].
    eexists. split; [reflexivity|]. apply (dump_block s 16 m Hok). lia.
  - cbv zeta. eexists. split; [reflexivity|]. apply (dump_block s (e - s + 1) m Hok). lia.
Qed.

Lemma memory_dump_shows_witness :
  exists m',
    Memory.memory_dump 2 0 [] (Memory.Machine (replicate 256 0) ∅ blank_target EmptyString)
    = Some (m', [])
    /\ ram (Memory.hw m') = ram blank_target.
Proof.
  destruct (memory_dump_shows 2 0 []
              (Memory.Machine (replicate 256 0) ∅ blank_target EmptyString))
    as (m' & H1 & H2 & _).
  - exact blank_target_ok.
  - unfold is_byte. lia.
  - unfold is_byte. lia.
  - left. reflexivity.
  - exists m'. split; [exact H1 | exact H2].
Defined.

End Listings.

(** ** The transfers and the rest of the RAM *)

Section TransferFrame.
Import Target.

(** X28.  A transfer touches only what it addresses: [write_ram] leaves
    every RAM cell that none of its addresses selects as it was, [read_ram]
    leaves the whole RAM as it was, and both leave the programmer with the
    write line low, ready for the next transfer. *)
Theorem ram_transfer_frame (t : Target.target) (data : list Z) (start n : Z) :
  target_ok t -> 0 <= n ->
  (forall q, 0 <= q < 16 ->
     (forall k, 0 <= k < Z.of_nat (length data) -> (start + k) mod 16 <> q) ->
     cell (Target.ram (Target.write_ram t data start)) q = cell (Target.ram t) q)
  /\ target_ok (Target.write_ram t data start)
  /\ Target.ram (Target.read_ram t start n).1 = Target.ram t
  /\ target_ok (Target.read_ram t start n).1.
Proof.
  intros Hok Hn. destruct (write_ram_ok t data start Hok) as [Hw Hokw].
  destruct (read_ram_ok t start n Hok Hn) as (_ & Hr & Hokr).
  split; [|split; [exact Hokw | split; [exact Hr | exact Hokr]]].
  intros q Hq Hk. rewrite Hw. apply store_bytes_other; [exact Hq|].
  intros k Hk'. rewrite <- (Z.add_mod_idemp_l (to_byte start)), to_byte_mod16 by lia.
  rewrite Z.add_mod_idemp_l by lia. apply Hk, Hk'.
Qed.

Lemma ram_transfer_frame_witness :
  cell (ram (write_ram (write_ram blank_target [0x11; 0x22] 4) [0x33] 9)) 5 = 0x22.
Proof.
  destruct (ram_transfer_frame (write_ram blank_target [0x11; 0x22] 4) [0x33] 9 0) as [H _].
  - apply write_ram_ok, blank_target_ok.
  - lia.
  - rewrite H; [vm_compute; reflexivity | lia |].
    intros k Hk. simpl in Hk. assert (k = 0) as -> by lia. discriminate.
Defined.

End TransferFrame.
